(** * geomdl.base: the configurable object model of NURBS-Python

    A shallow embedding of [geomdl/base.py] and a verification of its
    natural-language specification.

    Python objects live in a heap of cells addressed by their identity
    ([id(x)]); mutable containers and class instances are reached through
    references, so that aliasing between an object and its copies can be
    stated.  Every operation is a computation in a state-and-exception
    monad in which the heap survives a raised exception, as it does in
    Python. *)

From Stdlib Require Import Ascii.
From stdpp Require Import base gmap strings list.

(** ** Values, classes and heap cells *)

(** The identity of a heap object, Python's [id(x)]. *)
Abbreviation loc := nat.

(** Python values of the modelled fragment: [None], integers, strings and
    function objects are immutable and carried by value; lists, dicts and
    class instances are carried by reference. *)
Inductive val : Type :=
| VNone
| VInt (n : Z)
| VStr (s : string)
| VFunc (f : string)
| VRef (l : loc).

#[global] Instance val_eq_dec : EqDecision val.
Proof. solve_decision. Defined.

(** The instantiable classes of the module.  [KObject] is [GeomdlObject],
    [KBase] is [GeomdlBase]; [KEvaluator name] is a concrete subclass of
    [GeomdlEvaluator] called [name] which implements the two abstract
    methods and declares nothing else. *)
Inductive klass : Type :=
| KObject
| KBase
| KEvaluator (name : string).

#[global] Instance klass_eq_dec : EqDecision klass.
Proof. solve_decision. Defined.

(** [dict] and its subclass [GeomdlDict] (the weakly referencable dict). *)
Inductive dict_type : Type := PyDict | GeomdlDict.

#[global] Instance dict_type_eq_dec : EqDecision dict_type.
Proof. solve_decision. Defined.

(** A heap cell.  A dict keeps its items in insertion order.  An instance
    keeps the attributes that are currently set, whether they sit in a
    slot or in the instance [__dict__]; an unset attribute is absent. *)
Inductive obj : Type :=
| OList (items : list val)
| ODict (cls : dict_type) (items : list (val * val))
| OInst (cls : klass) (attrs : gmap string val).

Abbreviation heap := (list obj).

(** Python types, as far as [isinstance] can tell them apart. *)
Inductive pytype : Type :=
| TObject
| TNoneType
| TInt
| TStr
| TFunction
| TList
| TDict
| TGeomdlDict
| TInstance (k : klass).

#[global] Instance pytype_eq_dec : EqDecision pytype.
Proof. solve_decision. Defined.

(** ** Exceptions *)

Inductive exn : Type :=
| EGeomdlError (message : string) (data : val)
| AttributeError (name : string)
| TypeError (what : string)
| ValueError (what : string)
| KeyError (key : val)
| IndexError (what : string).

(** [class GeomdlError(Exception)]: the stored message is the prefix
    followed by the caller's message, [data] defaults to [None]. *)
Module GeomdlError.
Definition EXCEPTION_PREFIX : string := "GEOMDL ERROR: ".

Definition __init__ (msg : string) (data : val) : exn :=
  EGeomdlError (String.append EXCEPTION_PREFIX msg) data.
End GeomdlError.

Definition is_GeomdlError (e : exn) : bool :=
  match e with EGeomdlError _ _ => true | _ => false end.

(** [class GeomdlWarning(Warning)]: built like [GeomdlError], with its own
    prefix. *)
Inductive warning : Type :=
| WGeomdlWarning (message : string) (data : val).

Module GeomdlWarning.
Definition EXCEPTION_PREFIX : string := "GEOMDL WARNING: ".

Definition __init__ (msg : string) (data : val) : warning :=
  WGeomdlWarning (String.append EXCEPTION_PREFIX msg) data.
End GeomdlWarning.

(** ** The state-and-exception monad *)

(** [Stuck] marks states no Python execution reaches (a dangling
    reference, a method run on a cell that is no instance); [OutOfFuel]
    marks a recursion cut off by the fuel of the copy routines. *)
Inductive answer (A : Type) : Type :=
| Ok (a : A)
| Raise (e : exn)
| Stuck
| OutOfFuel.
Arguments Ok {A} a.
Arguments Raise {A} e.
Arguments Stuck {A}.
Arguments OutOfFuel {A}.

Definition M (A : Type) : Type := heap → answer A * heap.

Definition ret {A} (a : A) : M A := λ h, (Ok a, h).

Definition bind {A B} (m : M A) (f : A → M B) : M B :=
  λ h, match m h with
       | (Ok a, h') => f a h'
       | (Raise e, h') => (Raise e, h')
       | (Stuck, h') => (Stuck, h')
       | (OutOfFuel, h') => (OutOfFuel, h')
       end.

#[global] Instance M_ret : MRet M := @ret.
#[global] Instance M_bind : MBind M := λ A B f m, bind m f.

Definition raise {A} (e : exn) : M A := λ h, (Raise e, h).
Definition stuck {A} : M A := λ h, (Stuck, h).
Definition out_of_fuel {A} : M A := λ h, (OutOfFuel, h).

(** [for x in xs: body(x)] *)
Fixpoint for_ {A} (xs : list A) (body : A → M unit) : M unit :=
  match xs with
  | [] => ret tt
  | x :: xs' => body x;; for_ xs' body
  end.

(** ** The [export] decorator *)

(** What [export] looks at in the function or class it decorates: its
    [__module__] and its [__name__]. *)
Record decorated : Type := Decorated {
  fn_module : string;
  fn_name : string
}.

(** [sys.modules], as far as [export] sees it: for each loaded module its
    [__all__] list, when the module has one. *)
Abbreviation modules_t := (gmap string (option (list string))).

(** [export(fn)]: the name of [fn] is appended to the [__all__] of its
    module, which is created when the module has none; [fn] is returned.
    A module that is not in [sys.modules] is a [KeyError]. *)
Definition export (fn : decorated) (sys_modules : modules_t)
  : answer decorated * modules_t :=
  match sys_modules !! fn_module fn with
  | None => (Raise (KeyError (VStr (fn_module fn))), sys_modules)
  | Some (Some all) =>
      (Ok fn, <[fn_module fn := Some (all ++ [fn_name fn])]> sys_modules)
  | Some None =>
      (Ok fn, <[fn_module fn := Some [fn_name fn]]> sys_modules)
  end.

(** The decorators of a module run in the order of its definitions. *)
Fixpoint exports (fns : list decorated) (sys_modules : modules_t)
  : answer unit * modules_t :=
  match fns with
  | [] => (Ok tt, sys_modules)
  | fn :: rest =>
      match export fn sys_modules with
      | (Ok _, sys_modules') => exports rest sys_modules'
      | (Raise e, sys_modules') => (Raise e, sys_modules')
      | (Stuck, sys_modules') => (Stuck, sys_modules')
      | (OutOfFuel, sys_modules') => (OutOfFuel, sys_modules')
      end
  end.

(** ** Heap primitives *)

(** Allocation appends a cell; the new object's identity is fresh. *)
Definition alloc (o : obj) : M loc := λ h, (Ok (length h), h ++ [o]).

Definition deref (l : loc) : M obj :=
  λ h, match h !! l with
       | Some o => (Ok o, h)
       | None => (Stuck, h)
       end.

Definition store (l : loc) (o : obj) : M unit := λ h, (Ok tt, <[l:=o]> h).

(** ** The class table *)

(** [cls.__name__] *)
Definition __name__ (k : klass) : string :=
  match k with
  | KObject => "GeomdlObject"
  | KBase => "GeomdlBase"
  | KEvaluator name => name
  end.

(** The tuple a class states as its own [__slots__], when it states one. *)
Definition GeomdlObject_slots : list string := ["_name"; "_id"; "_cfg"].
Definition GeomdlBase_slots : list string :=
  ["_dimension"; "_geom_type"; "_opt_data"; "_cache"].

(** [self.__slots__]: an ordinary attribute lookup along the method
    resolution order, which stops at the first class that states
    [__slots__].  [GeomdlBase] states its own tuple; a concrete evaluator
    states none and finds the one of [GeomdlObject]. *)
Definition __slots__ (k : klass) : list string :=
  match k with
  | KObject => GeomdlObject_slots
  | KBase => GeomdlBase_slots
  | KEvaluator _ => GeomdlObject_slots
  end.

(** Every slot an instance has: the slots of all classes of its MRO. *)
Definition all_slots (k : klass) : list string :=
  match k with
  | KObject => GeomdlObject_slots
  | KBase => GeomdlObject_slots ++ GeomdlBase_slots
  | KEvaluator _ => GeomdlObject_slots
  end.

(** Whether instances carry a [__dict__]: only when some class of the MRO
    states no [__slots__]. *)
Definition has_dict (k : klass) : bool :=
  match k with
  | KObject | KBase => false
  | KEvaluator _ => true
  end.

(** The method resolution order of a type.  The abstract class
    [GeomdlEvaluator] itself, between a concrete evaluator and
    [GeomdlObject], is no type of the fragment and is left out. *)
Definition mro (t : pytype) : list pytype :=
  match t with
  | TObject => [TObject]
  | TGeomdlDict => [TGeomdlDict; TDict; TObject]
  | TInstance KObject => [TInstance KObject; TObject]
  | TInstance k => [TInstance k; TInstance KObject; TObject]
  | _ => [t; TObject]
  end.

(** An attribute can be set when it is a slot or the instance has a
    [__dict__]. *)
Definition settable (k : klass) (name : string) : bool :=
  has_dict k || bool_decide (name ∈ all_slots k).

(** ** Attribute access *)

(** [getattr(self, name)] for a data attribute: an unset slot and an
    unknown name both raise [AttributeError]. *)
Definition getattr (self : loc) (name : string) : M val :=
  o ← deref self;
  match o with
  | OInst _ attrs =>
      match attrs !! name with
      | Some v => ret v
      | None => raise (AttributeError name)
      end
  | _ => stuck
  end.

(** [setattr(self, name, v)] *)
Definition setattr (self : loc) (name : string) (v : val) : M unit :=
  o ← deref self;
  match o with
  | OInst k attrs =>
      if settable k name
      then store self (OInst k (<[name:=v]> attrs))
      else raise (AttributeError name)
  | _ => stuck
  end.

(** [self.__class__] *)
Definition __class__ (self : loc) : M klass :=
  o ← deref self;
  match o with
  | OInst k _ => ret k
  | _ => stuck
  end.

(** [type(x)] *)
Definition type_of (x : val) : M pytype :=
  match x with
  | VNone => ret TNoneType
  | VInt _ => ret TInt
  | VStr _ => ret TStr
  | VFunc _ => ret TFunction
  | VRef l =>
      o ← deref l;
      match o with
      | OList _ => ret TList
      | ODict PyDict _ => ret TDict
      | ODict GeomdlDict _ => ret TGeomdlDict
      | OInst k _ => ret (TInstance k)
      end
  end.

(** ** Built-in functions *)

(** *** [int(x)]

    Strings are read as Python reads a base-10 literal: surrounding
    whitespace is dropped, one sign is allowed, and single underscores may
    separate digits.  Strings are byte strings here, so only the ASCII
    digits and ASCII whitespace are recognised. *)
Definition is_space (c : ascii) : bool :=
  let n := nat_of_ascii c in
  ((9 <=? n) && (n <=? 13) || (28 <=? n) && (n <=? 32))%nat.

Definition digit_of (c : ascii) : option Z :=
  let n := nat_of_ascii c in
  if ((48 <=? n) && (n <=? 57))%nat then Some (Z.of_nat (n - 48)) else None.

Fixpoint drop_spaces (cs : list ascii) : list ascii :=
  match cs with
  | c :: cs' => if is_space c then drop_spaces cs' else cs
  | [] => []
  end.

Definition strip (cs : list ascii) : list ascii :=
  rev (drop_spaces (rev (drop_spaces cs))).

Fixpoint parse_digits (acc : Z) (after_digit : bool) (cs : list ascii)
  : option Z :=
  match cs with
  | [] => if after_digit then Some acc else None
  | c :: cs' =>
      if Ascii.eqb c "_"%char
      then (if after_digit then parse_digits acc false cs' else None)
      else match digit_of c with
           | Some d => parse_digits (10 * acc + d) true cs'
           | None => None
           end
  end.

Definition int_literal (s : string) : option Z :=
  match strip (String.list_ascii_of_string s) with
  | c :: cs =>
      if Ascii.eqb c "+"%char then parse_digits 0 false cs
      else if Ascii.eqb c "-"%char then Z.opp <$> parse_digits 0 false cs
      else parse_digits 0 false (c :: cs)
  | [] => None
  end.

(** [int(x)] reads no heap cell and writes none: no object of the
    fragment has [__int__], [__index__] or [__trunc__], so every reference
    is refused like [None] and functions are. *)
Definition int_of (x : val) : answer Z :=
  match x with
  | VInt n => Ok n
  | VStr s =>
      match int_literal s with
      | Some n => Ok n
      | None => Raise (ValueError "invalid literal for int() with base 10")
      end
  | _ => Raise (TypeError "int() argument must be a string, a bytes-like object or a real number")
  end.

Definition int (x : val) : M Z := λ h, (int_of x, h).

(** *** Dict items, kept as an association list in insertion order *)

Fixpoint dict_get (items : list (val * val)) (k : val) : option val :=
  match items with
  | [] => None
  | (k', v) :: rest => if decide (k' = k) then Some v else dict_get rest k
  end.

(** [d[k] = v]: an existing key keeps its place, a new key goes last. *)
Fixpoint dict_set (items : list (val * val)) (k v : val)
  : list (val * val) :=
  match items with
  | [] => [(k, v)]
  | (k', v') :: rest =>
      if decide (k' = k) then (k', v) :: rest
      else (k', v') :: dict_set rest k v
  end.

Fixpoint dict_del (items : list (val * val)) (k : val) : list (val * val) :=
  match items with
  | [] => []
  | (k', v') :: rest =>
      if decide (k' = k) then rest else (k', v') :: dict_del rest k
  end.

(** [hash(k)], as far as it can fail: lists and dicts are unhashable,
    instances hash by identity. *)
Definition hash_check (k : val) : M unit :=
  match k with
  | VRef l =>
      o ← deref l;
      match o with
      | OInst _ _ => ret tt
      | OList _ => raise (TypeError "unhashable type: 'list'")
      | ODict _ _ => raise (TypeError "unhashable type: 'dict'")
      end
  | _ => ret tt
  end.

(** The dict a dict method is called on. *)
Definition as_dict (d : val) : M (loc * dict_type * list (val * val)) :=
  match d with
  | VRef l =>
      o ← deref l;
      match o with
      | ODict c items => ret (l, c, items)
      | _ => stuck
      end
  | _ => stuck
  end.

(** [d[k]] *)
Definition dict_getitem (d k : val) : M val :=
  '(_, _, items) ← as_dict d;
  hash_check k;;
  match dict_get items k with
  | Some v => ret v
  | None => raise (KeyError k)
  end.

(** [d[k] = v] *)
Definition dict_setitem (d k v : val) : M unit :=
  '(l, c, items) ← as_dict d;
  hash_check k;;
  store l (ODict c (dict_set items k v)).

(** [d.pop(k)] and [d.pop(k, default)] *)
Definition dict_pop (d k : val) (dflt : option val) : M val :=
  '(l, c, items) ← as_dict d;
  hash_check k;;
  match dict_get items k with
  | Some v => store l (ODict c (dict_del items k));; ret v
  | None =>
      match dflt with
      | Some v => ret v
      | None => raise (KeyError k)
      end
  end.

(** [GeomdlDict()] *)
Definition GeomdlDict_new : M val :=
  l ← alloc (ODict GeomdlDict []); ret (VRef l).

(** *** Sequences *)

(** [len(x)]; a string counts its bytes, which are its characters as
    long as it is ASCII. *)
Definition len (x : val) : M Z :=
  match x with
  | VStr s => ret (Z.of_nat (String.length s))
  | VRef l =>
      o ← deref l;
      match o with
      | OList items => ret (Z.of_nat (length items))
      | ODict _ items => ret (Z.of_nat (length items))
      | OInst _ _ => raise (TypeError "object has no len()")
      end
  | _ => raise (TypeError "object has no len()")
  end.

(** [x[i]] for a literal index [i] that is not negative. *)
Definition getitem (x : val) (i : nat) : M val :=
  match x with
  | VStr s =>
      match String.get i s with
      | Some c => ret (VStr (String c EmptyString))
      | None => raise (IndexError "string index out of range")
      end
  | VRef l =>
      o ← deref l;
      match o with
      | OList items =>
          match items !! i with
          | Some v => ret v
          | None => raise (IndexError "list index out of range")
          end
      | ODict _ items =>
          match dict_get items (VInt (Z.of_nat i)) with
          | Some v => ret v
          | None => raise (KeyError (VInt (Z.of_nat i)))
          end
      | OInst _ _ => raise (TypeError "object is not subscriptable")
      end
  | _ => raise (TypeError "object is not subscriptable")
  end.

(** The arguments a starred call [f( * x)] passes: the elements [x]
    iterates over. *)
Definition star_args (x : val) : M (list val) :=
  match x with
  | VStr s =>
      ret ((λ c, VStr (String c EmptyString)) <$> String.list_ascii_of_string s)
  | VRef l =>
      o ← deref l;
      match o with
      | OList items => ret items
      | ODict _ items => ret (fst <$> items)
      | OInst _ _ => raise (TypeError "argument after * must be an iterable")
      end
  | _ => raise (TypeError "argument after * must be an iterable")
  end.

(** [xs.append(v)] *)
Definition list_append (xs : loc) (v : val) : M unit :=
  o ← deref xs;
  match o with
  | OList items => store xs (OList (items ++ [v]))
  | _ => stuck
  end.

(** ** The type capability registry *)

(** [GeomdlTypeSequence] and [GeomdlTypeString] are abstract base classes
    without members; what satisfies them is what has been registered with
    [ABCMeta.register].  [base.py] registers nothing itself, so the two
    registries are taken as they stand when a check runs. *)
Record registry : Type := Registry {
  GeomdlTypeSequence : list pytype;
  GeomdlTypeString : list pytype
}.

(** [isinstance(x, abc)]: the type of [x], or one of its ancestors, has
    been registered with [abc]. *)
Definition isinstance (x : val) (registered : list pytype) : M bool :=
  t ← type_of x;
  ret (existsb (λ c, bool_decide (c ∈ registered)) (mro t)).

(** [abc.register(t)] *)
Definition register (t : pytype) (registered : list pytype) : list pytype :=
  t :: registered.

(** [for x in xs: acc = body(x, acc)], for loops that carry a value. *)
Fixpoint for_acc {A S} (xs : list A) (s : S) (body : A → S → M S) : M S :=
  match xs with
  | [] => ret s
  | x :: xs' => s' ← body x s; for_acc xs' s' body
  end.

(** [try: m  except KeyError: handler] *)
Definition except_KeyError {A} (m handler : M A) : M A :=
  λ h, match m h with
       | (Raise (KeyError _), h') => handler h'
       | r => r
       end.

(** [id(x)] of a heap object. *)
Definition id_of (x : val) : M loc :=
  match x with
  | VRef l => ret l
  | _ => stuck
  end.

(** [x.__new__(GeomdlDict)]: the [__new__] of the type of [x] is asked for
    a [GeomdlDict]; only [dict.__new__] can make one, any other refuses
    with a [TypeError]. *)
Definition __new__GeomdlDict (x : val) : M val :=
  t ← type_of x;
  match t with
  | TDict | TGeomdlDict => GeomdlDict_new
  | _ => raise (TypeError "__new__(GeomdlDict): not a subtype")
  end.

(** The dedup table of a deep copy: [id(original)] to its copy. *)
Abbreviation memo_t := (gmap loc val).

(** ** [class GeomdlObject] *)
Module GeomdlObject.

Definition __init__ (self : loc) (kwargs : gmap string val) : M unit :=
  cls ← __class__ self;
  let name := default (VStr (__name__ cls)) (kwargs !! "name") in
  setattr self "_name" name;;
  setattr self "_name" name;;
  n ← int (default (VInt 0) (kwargs !! "id"));
  setattr self "_id" (VInt n);;
  cfg ← GeomdlDict_new;
  setattr self "_cfg" cfg.

(** [copy_] is [copy.copy], looked up when the method runs. *)
Definition __copy__ (copy_ : val → M val) (self : loc) : M val :=
  cls ← __class__ self;
  result ← alloc (OInst cls ∅);
  for_ (__slots__ cls) (λ var,
    v ← getattr self var;
    c ← copy_ v;
    setattr result var c);;
  ret (VRef result).

(** [deepcopy_] is [copy.deepcopy]; the dedup table, which Python
    shares by reference, is handed on and returned. *)
Definition __deepcopy__
    (deepcopy_ : val → memo_t → M (val * memo_t))
    (self : loc) (memo : memo_t) : M (val * memo_t) :=
  cls ← __class__ self;
  result ← alloc (OInst cls ∅);
  let memo := <[self := VRef result]> memo in
  cache ← getattr self "_cache";
  fresh ← __new__GeomdlDict cache;
  cache ← getattr self "_cache";
  key ← id_of cache;
  let memo := <[key := fresh]> memo in
  memo ← for_acc (__slots__ cls) memo (λ var memo,
    v ← getattr self var;
    '(c, memo) ← deepcopy_ v memo;
    setattr result var c;;
    ret memo);
  ret (VRef result, memo).

(** The [id] property. *)
Definition id (self : loc) : M val := getattr self "_id".

Definition id_setter (self : loc) (value : val) : M unit :=
  n ← int value;
  setattr self "_id" (VInt n).

Definition id_deleter (self : loc) : M unit :=
  setattr self "_id" (VInt 0).

(** The [name] property.  The setter stores [str(value)]; [str_] is the
    built-in [str], which answers a string or raises. *)
Definition name (self : loc) : M val := getattr self "_name".

Definition name_setter (str_ : val → M string) (self : loc) (value : val)
  : M unit :=
  s ← str_ value;
  setattr self "_name" (VStr s).

Definition name_deleter (self : loc) : M unit :=
  setattr self "_name" (VStr "").

Definition __str__ (self : loc) : M val := name self.

End GeomdlObject.

(** ** The [copy] module of the Python library *)
Module copy.

(** [copy.copy(x)]: immutable values are returned as they are; a list,
    a dict and a [GeomdlDict] give a new container of the same type with
    the same items; an instance is copied by its [__copy__]. *)
Fixpoint copy (fuel : nat) (x : val) : M val :=
  match x with
  | VRef l =>
      o ← deref l;
      match o with
      | OList items => y ← alloc (OList items); ret (VRef y)
      | ODict c items => y ← alloc (ODict c items); ret (VRef y)
      | OInst _ _ =>
          match fuel with
          | 0 => out_of_fuel
          | S fuel' => GeomdlObject.__copy__ (copy fuel') l
          end
      end
  | _ => ret x
  end.

(** [copy.deepcopy(x, memo)].  A table hit returns the recorded copy.
    A container is created empty and recorded before its items are
    copied; a [dict] copies each value before its key, a [GeomdlDict],
    rebuilt from its reduction, each key before its value.  An instance
    is copied by its [__deepcopy__] and recorded again on return. *)
Fixpoint deepcopy (fuel : nat) (x : val) (memo : memo_t)
  : M (val * memo_t) :=
  match x with
  | VRef l =>
      match memo !! l with
      | Some y => ret (y, memo)
      | None =>
          o ← deref l;
          match fuel with
          | 0 => out_of_fuel
          | S fuel' =>
              match o with
              | OList items =>
                  y ← alloc (OList []);
                  memo ← for_acc items (<[l := VRef y]> memo) (λ a memo,
                    '(a', memo) ← deepcopy fuel' a memo;
                    list_append y a';;
                    ret memo);
                  ret (VRef y, <[l := VRef y]> memo)
              | ODict PyDict items =>
                  y ← alloc (ODict PyDict []);
                  memo ← for_acc items (<[l := VRef y]> memo) (λ kv memo,
                    '(v', memo) ← deepcopy fuel' kv.2 memo;
                    '(k', memo) ← deepcopy fuel' kv.1 memo;
                    dict_setitem (VRef y) k' v';;
                    ret memo);
                  ret (VRef y, <[l := VRef y]> memo)
              | ODict GeomdlDict items =>
                  y ← alloc (ODict GeomdlDict []);
                  memo ← for_acc items (<[l := VRef y]> memo) (λ kv memo,
                    '(k', memo) ← deepcopy fuel' kv.1 memo;
                    '(v', memo) ← deepcopy fuel' kv.2 memo;
                    dict_setitem (VRef y) k' v';;
                    ret memo);
                  ret (VRef y, <[l := VRef y]> memo)
              | OInst _ _ =>
                  '(y, memo) ← GeomdlObject.__deepcopy__ (deepcopy fuel') l memo;
                  ret (y, <[l := y]> memo)
              end
          end
      end
  | _ => ret (x, memo)
  end.

(** [copy.deepcopy(x)]: a top-level call starts from an empty table. *)
Definition deepcopy_top (fuel : nat) (x : val) : M val :=
  '(y, _) ← deepcopy fuel x ∅; ret y.

End copy.

(** ** [class GeomdlBase(GeomdlObject)] *)
Module GeomdlBase.

Definition __init__ (self : loc) (kwargs : gmap string val) : M unit :=
  GeomdlObject.__init__ self kwargs;;
  setattr self "_dimension" (VInt 0);;
  setattr self "_geom_type" (VStr "");;
  d ← GeomdlDict_new;
  setattr self "_opt_data" d;;
  d ← GeomdlDict_new;
  setattr self "_cfg" d;;
  d ← GeomdlDict_new;
  setattr self "_cache" d.

(** The [dimension] property reads [self._dim]. *)
Definition dimension (self : loc) : M val := getattr self "_dim".

(** The [type] property. *)
Definition type (self : loc) : M val := getattr self "_geom_type".

(** The [opt] property. *)
Definition opt (self : loc) : M val := getattr self "_opt_data".

(** [d.pop( * args)]: [dict.pop] takes a key and at most one default. *)
Definition pop_star (d : val) (args : list val) : M val :=
  match args with
  | [k] => dict_pop d k None
  | [k; dflt] => dict_pop d k (Some dflt)
  | _ => raise (TypeError "pop expected 1 or 2 arguments")
  end.

Definition opt_setter (reg : registry) (self : loc) (key_value : val)
  : M unit :=
  is_seq ← isinstance key_value (GeomdlTypeSequence reg);
  if negb is_seq
  then raise (GeomdlError.__init__
                "opt input must be a GeomdlTypeSequence" VNone)
  else
    n ← len key_value;
    if bool_decide (n ≠ 2%Z)
    then raise (GeomdlError.__init__
                  "opt input must have a size of 2, corresponding to [0:key] => [1:value]"
                  VNone)
    else
      k ← getitem key_value 0;
      is_str ← isinstance k (GeomdlTypeString reg);
      if negb is_str
      then raise (GeomdlError.__init__ "key must be GeomdlTypeString" VNone)
      else
        v ← getitem key_value 1;
        if bool_decide (v = VNone)
        then
          d ← getattr self "_opt_data";
          args ← star_args key_value;
          pop_star d args;;
          ret tt
        else
          v ← getitem key_value 1;
          d ← getattr self "_opt_data";
          k ← getitem key_value 0;
          dict_setitem d k v.

Definition opt_deleter (self : loc) : M unit :=
  d ← GeomdlDict_new;
  setattr self "_opt_data" d.

Definition get_opt (self : loc) (value : val) : M val :=
  except_KeyError
    (d ← getattr self "_opt_data"; dict_getitem d value)
    (ret VNone).

(** [reset( ** kwargs)]: the keyword arguments are not looked at. *)
Definition reset (self : loc) (kwargs : gmap string val) : M unit :=
  d ← GeomdlDict_new;
  setattr self "_opt_data" d;;
  d ← GeomdlDict_new;
  setattr self "_cache" d.

End GeomdlBase.

(** ** [class GeomdlEvaluator(GeomdlObject)] *)
Module GeomdlEvaluator.

Definition __init__ (self : loc) (kwargs : gmap string val) : M unit :=
  GeomdlObject.__init__ self kwargs;;
  let func := default VNone (kwargs !! "config_find_span") in
  cfg ← getattr self "cfg";
  dict_setitem cfg (VStr "func_find_span") func.

End GeomdlEvaluator.

(** ** Instantiation *)

(** [cls( ** kwargs)]: [cls.__new__(cls)] makes an instance with every
    slot unset, then the [__init__] the class resolves to runs on it. *)
Definition new (cls : klass) (kwargs : gmap string val) : M val :=
  self ← alloc (OInst cls ∅);
  match cls with
  | KObject => GeomdlObject.__init__ self kwargs
  | KBase => GeomdlBase.__init__ self kwargs
  | KEvaluator _ => GeomdlEvaluator.__init__ self kwargs
  end;;
  ret (VRef self).

(** ** Notions used by the statements *)

(** What a computation answers in a heap, leaving the final heap aside. *)
Definition eval {A} (m : M A) (h : heap) : answer A := (m h).1.

(** A computation is a read when it leaves every heap as it found it. *)
Definition reads {A} (m : M A) : Prop := ∀ h, (m h).2 = h.

(** Modelled from the spec: the registrations of the built-in types, which
    the package makes outside [base.py].  The specification asks that the
    library's own string type and ordered-sequence type be registered
    beforehand against string-like and sequence-like respectively; [str]
    and [list] are those types. *)
Definition default_registry : registry :=
  {| GeomdlTypeSequence := register TList [];
     GeomdlTypeString := register TStr [] |}.

(** The attributes [GeomdlBase( ** kwargs)] leaves set on the new instance
    it puts at the end of [h], when [int()] reads the [id] argument as
    [n]. *)
Definition new_base_attrs (h : heap) (kwargs : gmap string val) (n : Z)
  : gmap string val :=
  <["_cache" := VRef (length h + 4)]>
  (<["_cfg" := VRef (length h + 3)]>
   (<["_opt_data" := VRef (length h + 2)]>
    (<["_geom_type" := VStr ""]>
     (<["_dimension" := VInt 0]>
      (<["_id" := VInt n]>
       (<["_name" := default (VStr "GeomdlBase") (kwargs !! "name")]> ∅)))))).

(** *** Copies at work *)

Abbreviation empty_GeomdlDict := (ODict GeomdlDict []).

(** A successful write to one cell: the heap is as before except, at
    most, at that cell. *)
Definition writes_only_at (y : loc) (h h' : heap) : Prop :=
  h' = h ∨ ∃ o, h' = <[y := o]> h.

(** The table maps [lc] to [f], and [f] is an empty [GeomdlDict]. *)
Definition seed (memo : memo_t) (h : heap) (lc f : loc) : Prop :=
  memo !! lc = Some (VRef f) ∧ h !! f = Some empty_GeomdlDict.

(** What one call of [copy.deepcopy] may do to the heap and the table:
    cells are only added, and an entry of the table that met an empty
    [GeomdlDict] still meets one, the same or a newer one. *)
Definition deepcopy_post (h : heap) (memo : memo_t) (h' : heap)
    (memo' : memo_t) : Prop :=
  h `prefix_of` h' ∧
  ∀ lc f, seed memo h lc f →
          ∃ f', seed memo' h' lc f' ∧ (f' = f ∨ length h ≤ f').

(** The same while the copy in cell [y] is being filled: the cell [y] is
    the only old cell written to, and it is none of those empty
    [GeomdlDict]s. *)
Definition building (h : heap) (memo : memo_t) (y : loc) (memo' : memo_t)
    (h' : heap) : Prop :=
  h `prefix_of` h' ∧ length h ≤ y < length h' ∧
  ∀ lc f, seed memo h lc f →
          ∃ f', seed memo' h' lc f' ∧ f' ≠ y ∧ (f' = f ∨ length h ≤ f').

(** *** A sample geometry object

    [curve_heap] is the heap after
    [g = GeomdlBase(id="7", name="curve")], [g.opt = ["k", [1]]] and one
    entry written to the cache of [g]; [g] is cell 0, its [opt] store
    cell 2, its cache cell 4; cells 6 and 7 are two lists to assign to
    [g.opt]. *)
Definition curve_attrs : gmap string val :=
  <["_cache" := VRef 4]>
  (<["_cfg" := VRef 3]>
   (<["_opt_data" := VRef 2]>
    (<["_geom_type" := VStr ""]>
     (<["_dimension" := VInt 0]>
      (<["_id" := VInt 7]>
       (<["_name" := VStr "curve"]> ∅)))))).

Definition curve_heap : heap :=
  [ OInst KBase curve_attrs;
    ODict GeomdlDict [];
    ODict GeomdlDict [(VStr "k", VRef 5)];
    ODict GeomdlDict [];
    ODict GeomdlDict [(VStr "evalpts", VInt 3)];
    OList [VInt 1];
    OList [VStr "k"; VRef 5];
    OList [VStr "absent"; VNone] ].

Definition build_curve : M val :=
  self ← new KBase (<["id" := VStr "7"]> {["name" := VStr "curve"]});
  inner ← alloc (OList [VInt 1]);
  pair ← alloc (OList [VStr "k"; VRef inner]);
  g ← id_of self;
  GeomdlBase.opt_setter (Registry [TList] [TStr]) g (VRef pair);;
  cache ← getattr g "_cache";
  dict_setitem cache (VStr "evalpts") (VInt 3);;
  alloc (OList [VStr "absent"; VNone]);;
  ret self.

(** A plain identity object, [GeomdlObject(id=3)], with its
    configuration dict. *)
Definition plain_attrs : gmap string val :=
  <["_cfg" := VRef 1]>
  (<["_id" := VInt 3]>
   (<["_name" := VStr "GeomdlObject"]> ∅)).

Definition plain_heap : heap :=
  [ OInst KObject plain_attrs; ODict GeomdlDict [] ].

(** *** Copies, one by one *)

(** The values that [copy.copy] and [copy.deepcopy] hand back as they
    are: [None], numbers, strings and functions. *)
Definition immutable (v : val) : bool :=
  match v with VRef _ => false | _ => true end.

(** A computation that leaves alone every cell below [n]: whatever a
    heap starts with, up to [n] cells, it still starts with afterwards. *)
Definition keeps_below {A} (n : nat) (m : M A) : Prop :=
  ∀ h0 h r h',
    length h0 ≤ n → h0 `prefix_of` h → m h = (r, h') → h0 `prefix_of` h'.

(** What a value of the store becomes in the deep copy of a geometry
    object: a reference to the object itself, to its cache or to its store
    is redirected to the copy, to the new cache or to the new store;
    anything immutable stays. *)
Definition relink (self cache opt self' cache' opt' : loc) (v : val) : val :=
  if decide (v = VRef self) then VRef self'
  else if decide (v = VRef cache) then VRef cache'
  else if decide (v = VRef opt) then VRef opt'
  else v.

(** The entries such a store may hold for [relink] to be the whole
    story. *)
Definition flat_or_cyclic (self cache opt : loc) (kv : val * val) : Prop :=
  immutable kv.1 = true ∧
  (immutable kv.2 = true ∨ kv.2 ∈ [VRef self; VRef cache; VRef opt]).

(** A geometry object whose [opt] store points back at the object and at
    the store itself, as after [g = GeomdlBase()], [g.opt = ["me", g]],
    [g.opt = ["n", 3]], [g.opt = ["store", g.opt]]; here [g] is cell 0,
    its store cell 1, its cache cell 2, its configuration cell 3. *)
Definition knot_attrs : gmap string val :=
  <["_cache" := VRef 2]>
  (<["_cfg" := VRef 3]>
   (<["_opt_data" := VRef 1]>
    (<["_geom_type" := VStr ""]>
     (<["_dimension" := VInt 0]>
      (<["_id" := VInt 0]>
       (<["_name" := VStr "GeomdlBase"]> ∅)))))).

Definition knot_heap : heap :=
  [ OInst KBase knot_attrs;
    ODict GeomdlDict
      [(VStr "me", VRef 0); (VStr "n", VInt 3); (VStr "store", VRef 1)];
    ODict GeomdlDict [];
    ODict GeomdlDict [] ].

(** * Reasoning about runs *)

(** ** Running computations *)

Lemma run_bind {A B} (m : M A) (f : A → M B) (h : heap) :
  (m ≫= f) h =
  match m h with
  | (Ok a, h') => f a h'
  | (Raise e, h') => (Raise e, h')
  | (Stuck, h') => (Stuck, h')
  | (OutOfFuel, h') => (OutOfFuel, h')
  end.
Proof. reflexivity. Qed.

Lemma run_bind_Ok {A B} (m : M A) (f : A → M B) (h h' : heap) (a : A) :
  m h = (Ok a, h') → (m ≫= f) h = f a h'.
Proof. intros E. rewrite run_bind, E. reflexivity. Qed.

Lemma run_bind_Raise {A B} (m : M A) (f : A → M B) (h h' : heap) (e : exn) :
  m h = (Raise e, h') → (m ≫= f) h = (Raise e, h').
Proof. intros E. rewrite run_bind, E. reflexivity. Qed.

Lemma run_deref (h : heap) (l : loc) (o : obj) :
  h !! l = Some o → deref l h = (Ok o, h).
Proof. intros E. unfold deref. rewrite E. reflexivity. Qed.

Lemma run_class (h : heap) (self : loc) (k : klass) (attrs : gmap string val) :
  h !! self = Some (OInst k attrs) → __class__ self h = (Ok k, h).
Proof.
  intros E. unfold __class__.
  rewrite (run_bind_Ok _ _ _ _ _ (run_deref _ _ _ E)). reflexivity.
Qed.

Lemma run_getattr (h : heap) (self : loc) (k : klass) (attrs : gmap string val)
    (name : string) :
  h !! self = Some (OInst k attrs) →
  getattr self name h =
  (match attrs !! name with
   | Some v => Ok v
   | None => Raise (AttributeError name)
   end, h).
Proof.
  intros E. unfold getattr.
  rewrite (run_bind_Ok _ _ _ _ _ (run_deref _ _ _ E)).
  destruct (attrs !! name); reflexivity.
Qed.

Lemma run_setattr (h : heap) (self : loc) (k : klass) (attrs : gmap string val)
    (name : string) (v : val) :
  h !! self = Some (OInst k attrs) →
  settable k name = true →
  setattr self name v h = (Ok tt, <[self := OInst k (<[name := v]> attrs)]> h).
Proof.
  intros E Hslot. unfold setattr.
  rewrite (run_bind_Ok _ _ _ _ _ (run_deref _ _ _ E)).
  rewrite Hslot. reflexivity.
Qed.

Lemma run_GeomdlDict_new (h : heap) :
  GeomdlDict_new h = (Ok (VRef (length h)), h ++ [ODict GeomdlDict []]).
Proof. reflexivity. Qed.

(** ** Heap lookups *)

Lemma lookup_alloc (h : heap) (o : obj) : (h ++ [o]) !! length h = Some o.
Proof. apply list_lookup_middle. reflexivity. Qed.

Lemma lookup_alloc_mid (h : heap) (o : obj) (rest : list obj) :
  (h ++ o :: rest) !! length h = Some o.
Proof. apply list_lookup_middle. reflexivity. Qed.

Lemma lookup_alloc_old (h : heap) (o o' : obj) (l : loc) :
  h !! l = Some o → (h ++ [o']) !! l = Some o.
Proof. apply lookup_app_l_Some. Qed.

(** Every class has the three slots of [GeomdlObject]. *)
Lemma object_slots_settable (k : klass) (name : string) :
  name ∈ GeomdlObject_slots → settable k name = true.
Proof.
  intros Hin. destruct k.
  - change (bool_decide (name ∈ GeomdlObject_slots) = true).
    by apply bool_decide_eq_true.
  - change (bool_decide (name ∈ GeomdlObject_slots ++ GeomdlBase_slots) = true).
    apply bool_decide_eq_true, elem_of_app. by left.
  - reflexivity.
Qed.

Lemma base_slots_settable (name : string) :
  name ∈ GeomdlBase_slots → settable KBase name = true.
Proof.
  intros Hin.
  change (bool_decide (name ∈ GeomdlObject_slots ++ GeomdlBase_slots) = true).
  apply bool_decide_eq_true, elem_of_app. by right.
Qed.

Ltac slot :=
  first [ apply object_slots_settable; solve [ repeat constructor ]
        | apply base_slots_settable; solve [ repeat constructor ] ].

(** ** Methods at work on [self]

    While a method runs, the heap is kept in the shape [<[self := cell]> h]:
    the cell of [self] as the method has left it so far, over the other
    cells. *)

Lemma run_class_at (h : heap) (self : loc) (k : klass) (attrs : gmap string val) :
  self < length h →
  __class__ self (<[self := OInst k attrs]> h) =
  (Ok k, <[self := OInst k attrs]> h).
Proof. intros Hlt. eapply run_class. by apply list_lookup_insert_eq. Qed.

Lemma run_getattr_at (h : heap) (self : loc) (k : klass)
    (attrs : gmap string val) (name : string) :
  self < length h →
  getattr self name (<[self := OInst k attrs]> h) =
  (match attrs !! name with
   | Some v => Ok v
   | None => Raise (AttributeError name)
   end, <[self := OInst k attrs]> h).
Proof. intros Hlt. eapply run_getattr. by apply list_lookup_insert_eq. Qed.

Lemma run_setattr_at (h : heap) (self : loc) (k : klass)
    (attrs : gmap string val) (name : string) (v : val) :
  self < length h →
  settable k name = true →
  setattr self name v (<[self := OInst k attrs]> h) =
  (Ok tt, <[self := OInst k (<[name := v]> attrs)]> h).
Proof.
  intros Hlt Hslot.
  erewrite run_setattr by (first [ by apply list_lookup_insert_eq | done ]).
  by rewrite list_insert_insert_eq.
Qed.

Lemma run_GeomdlDict_new_at (h : heap) (self : loc) (o : obj) :
  self < length h →
  GeomdlDict_new (<[self := o]> h) =
  (Ok (VRef (length h)), <[self := o]> (h ++ [ODict GeomdlDict []])).
Proof.
  intros Hlt. rewrite run_GeomdlDict_new, length_insert.
  by rewrite insert_app_l.
Qed.

Lemma length_alloc (h : heap) (o : obj) : length (h ++ [o]) = S (length h).
Proof. rewrite length_app. simpl. lia. Qed.

(** ** The constructors *)

(** [GeomdlObject.__init__] on an instance of any class: the three
    attributes are set and one cell, the configuration dict, is added. *)
Lemma GeomdlObject_init_Ok (h : heap) (self : loc) (k : klass)
    (attrs : gmap string val) (kwargs : gmap string val) (n : Z) :
  self < length h →
  int_of (default (VInt 0) (kwargs !! "id")) = Ok n →
  GeomdlObject.__init__ self kwargs (<[self := OInst k attrs]> h) =
  (Ok tt,
   <[self := OInst k (<["_cfg" := VRef (length h)]>
                      (<["_id" := VInt n]>
                       (<["_name" := default (VStr (__name__ k)) (kwargs !! "name")]>
                        attrs)))]>
     (h ++ [ODict GeomdlDict []])).
Proof.
  intros Hlt Hint. unfold GeomdlObject.__init__.
  rewrite (run_bind_Ok _ _ _ _ _ (run_class_at _ _ _ _ Hlt)).
  rewrite (run_bind_Ok _ _ _ _ _ (run_setattr_at _ _ _ _ "_name" _ Hlt
             ltac:(slot))).
  rewrite (run_bind_Ok _ _ _ _ _ (run_setattr_at _ _ _ _ "_name" _ Hlt
             ltac:(slot))).
  rewrite insert_insert_eq.
  rewrite run_bind. unfold int. rewrite Hint.
  rewrite (run_bind_Ok _ _ _ _ _ (run_setattr_at _ _ _ _ "_id" _ Hlt
             ltac:(slot))).
  rewrite (run_bind_Ok _ _ _ _ _ (run_GeomdlDict_new_at _ _ _ Hlt)).
  apply run_setattr_at.
  - rewrite length_alloc. lia.
  - slot.
Qed.

Lemma GeomdlObject_init_Raise (h : heap) (self : loc) (k : klass)
    (attrs : gmap string val) (kwargs : gmap string val) (e : exn) :
  self < length h →
  int_of (default (VInt 0) (kwargs !! "id")) = Raise e →
  GeomdlObject.__init__ self kwargs (<[self := OInst k attrs]> h) =
  (Raise e,
   <[self := OInst k (<["_name" := default (VStr (__name__ k)) (kwargs !! "name")]>
                        attrs)]> h).
Proof.
  intros Hlt Hint. unfold GeomdlObject.__init__.
  rewrite (run_bind_Ok _ _ _ _ _ (run_class_at _ _ _ _ Hlt)).
  rewrite (run_bind_Ok _ _ _ _ _ (run_setattr_at _ _ _ _ "_name" _ Hlt
             ltac:(slot))).
  rewrite (run_bind_Ok _ _ _ _ _ (run_setattr_at _ _ _ _ "_name" _ Hlt
             ltac:(slot))).
  rewrite insert_insert_eq.
  rewrite run_bind. unfold int. rewrite Hint. reflexivity.
Qed.

Lemma run_alloc_inst (h : heap) (k : klass) :
  alloc (OInst k ∅) h =
  (Ok (length h), <[length h := OInst k ∅]> (h ++ [OInst k ∅])).
Proof.
  unfold alloc. f_equal. symmetry. apply list_insert_id, lookup_alloc.
Qed.

Lemma heap_new_inst (h : heap) (o o' : obj) (rest : list obj) :
  <[length h := o']> (h ++ o :: rest) = h ++ o' :: rest.
Proof.
  replace (length h) with (length h + 0) at 1 by lia.
  by rewrite insert_app_r.
Qed.

Lemma new_KBase_Ok (h : heap) (kwargs : gmap string val) (n : Z) :
  int_of (default (VInt 0) (kwargs !! "id")) = Ok n →
  new KBase kwargs h =
  (Ok (VRef (length h)),
   h ++ [OInst KBase (new_base_attrs h kwargs n);
         ODict GeomdlDict []; ODict GeomdlDict [];
         ODict GeomdlDict []; ODict GeomdlDict []]).
Proof.
  intros Hint. unfold new, GeomdlBase.__init__.
  rewrite (run_bind_Ok _ _ _ _ _ (run_alloc_inst h KBase)).
  assert (Hlt : ∀ rest : list obj, length h < length (h ++ OInst KBase ∅ :: rest)).
  { intros rest. rewrite length_app. simpl. lia. }
  rewrite run_bind.
  rewrite (run_bind_Ok _ _ _ _ _
             (GeomdlObject_init_Ok _ _ _ _ _ _ (Hlt []) Hint)).
  rewrite <- !app_assoc. simpl.
  rewrite (run_bind_Ok _ _ _ _ _ (run_setattr_at _ _ _ _ "_dimension" _ (Hlt _)
             ltac:(slot))).
  rewrite (run_bind_Ok _ _ _ _ _ (run_setattr_at _ _ _ _ "_geom_type" _ (Hlt _)
             ltac:(slot))).
  rewrite (run_bind_Ok _ _ _ _ _ (run_GeomdlDict_new_at _ _ _ (Hlt _))).
  rewrite <- !app_assoc. simpl.
  rewrite (run_bind_Ok _ _ _ _ _ (run_setattr_at _ _ _ _ "_opt_data" _ (Hlt _)
             ltac:(slot))).
  rewrite (run_bind_Ok _ _ _ _ _ (run_GeomdlDict_new_at _ _ _ (Hlt _))).
  rewrite <- !app_assoc. simpl.
  rewrite (run_bind_Ok _ _ _ _ _ (run_setattr_at _ _ _ _ "_cfg" _ (Hlt _)
             ltac:(slot))).
  rewrite (run_bind_Ok _ _ _ _ _ (run_GeomdlDict_new_at _ _ _ (Hlt _))).
  rewrite <- !app_assoc. simpl.
  rewrite (run_setattr_at _ _ _ _ "_cache" _ (Hlt _)
             ltac:(slot)).
  unfold ret. f_equal. rewrite heap_new_inst. do 3 f_equal.
  rewrite !length_app. simpl. unfold new_base_attrs.
  apply map_eq. intros i.
  repeat (rewrite lookup_insert; case_decide; [ repeat f_equal; lia | ]).
  reflexivity.
Qed.

Lemma int_of_cases (x : val) :
  (∃ n, int_of x = Ok n) ∨ (∃ e, int_of x = Raise e ∧ is_GeomdlError e = false).
Proof.
  destruct x; simpl; eauto.
  destruct (int_literal s); eauto.
Qed.

(** A constructor whose [id] argument is refused by [int()] passes the
    exception on, whatever the class. *)
Lemma new_Raise (k : klass) (kwargs : gmap string val) (h : heap) (e : exn) :
  int_of (default (VInt 0) (kwargs !! "id")) = Raise e →
  (new k kwargs h).1 = Raise e.
Proof.
  intros Hint. unfold new.
  rewrite (run_bind_Ok _ _ _ _ _ (run_alloc_inst h k)).
  assert (Hlt : length h < length (h ++ [OInst k ∅]))
    by (rewrite length_alloc; lia).
  pose proof (GeomdlObject_init_Raise _ _ k ∅ kwargs e Hlt Hint) as Hinit.
  rewrite run_bind.
  destruct k; unfold GeomdlBase.__init__, GeomdlEvaluator.__init__;
    rewrite ?(run_bind_Raise _ _ _ _ _ Hinit); rewrite ?Hinit; reflexivity.
Qed.

(** [GeomdlEvaluator.__init__] always stops at [self.cfg]. *)
Lemma new_KEvaluator_Ok_id (name : string) (kwargs : gmap string val)
    (h : heap) (n : Z) :
  int_of (default (VInt 0) (kwargs !! "id")) = Ok n →
  eval (new (KEvaluator name) kwargs) h = Raise (AttributeError "cfg").
Proof.
  intros Hint. unfold eval, new, GeomdlEvaluator.__init__.
  rewrite (run_bind_Ok _ _ _ _ _ (run_alloc_inst h _)).
  assert (Hlt : ∀ rest : list obj,
             length h < length (h ++ OInst (KEvaluator name) ∅ :: rest)).
  { intros rest. rewrite length_app. simpl. lia. }
  rewrite run_bind.
  rewrite (run_bind_Ok _ _ _ _ _
             (GeomdlObject_init_Ok _ _ _ _ _ _ (Hlt []) Hint)).
  rewrite <- !app_assoc. simpl.
  rewrite run_bind, (run_getattr_at _ _ _ _ "cfg" (Hlt _)).
  rewrite !lookup_insert_ne by done. rewrite lookup_empty. reflexivity.
Qed.

Lemma evaluator_never_constructed (name : string) (kwargs : gmap string val)
    (h h' : heap) (v : val) :
  new (KEvaluator name) kwargs h ≠ (Ok v, h').
Proof.
  intros Hnew.
  destruct (int_of_cases (default (VInt 0) (kwargs !! "id")))
    as [[n Hint]|[e [Hint _]]].
  - pose proof (new_KEvaluator_Ok_id name kwargs h n Hint) as Hr.
    unfold eval in Hr. rewrite Hnew in Hr. discriminate.
  - pose proof (new_Raise (KEvaluator name) kwargs h e Hint) as Hr.
    rewrite Hnew in Hr. discriminate.
Qed.

Lemma cache_not_object_slot : "_cache" ∉ GeomdlObject_slots.
Proof.
  intros H. repeat (apply elem_of_cons in H as [H|H]; [discriminate|]).
  by apply elem_of_nil in H.
Qed.

(** ** Reads *)

Lemma reads_ret {A} (a : A) : reads (ret a).
Proof. done. Qed.
Lemma reads_mret {A} (a : A) : reads (mret a).
Proof. done. Qed.
Lemma reads_raise {A} (e : exn) : reads (@raise A e).
Proof. done. Qed.
Lemma reads_stuck {A} : reads (@stuck A).
Proof. done. Qed.
Lemma reads_deref (l : loc) : reads (deref l).
Proof. intros h. unfold deref. by destruct (h !! l). Qed.

Lemma reads_bind {A B} (m : M A) (f : A → M B) :
  reads m → (∀ a, reads (f a)) → reads (m ≫= f).
Proof.
  intros Hm Hf h. rewrite run_bind. specialize (Hm h).
  destruct (m h) as [[a| | |] h1]; simpl in *; subst; try done. apply Hf.
Qed.

Ltac reads :=
  repeat first
    [ apply reads_ret | apply reads_mret | apply reads_raise
    | apply reads_stuck | apply reads_deref
    | apply reads_bind; [ | intros ? ]
    | progress case_match ].

Lemma reads_type_of (x : val) : reads (type_of x).
Proof. unfold type_of. reads. Qed.
Lemma reads_isinstance (x : val) (registered : list pytype) :
  reads (isinstance x registered).
Proof. unfold isinstance. reads. apply reads_type_of. Qed.
Lemma reads_len (x : val) : reads (len x).
Proof. unfold len. reads. Qed.
Lemma reads_getitem (x : val) (i : nat) : reads (getitem x i).
Proof. unfold getitem. reads. Qed.
Lemma reads_star_args (x : val) : reads (star_args x).
Proof. unfold star_args. reads. Qed.
Lemma reads_hash_check (k : val) : reads (hash_check k).
Proof. unfold hash_check. reads. Qed.
Lemma reads_getattr (self : loc) (name : string) : reads (getattr self name).
Proof. unfold getattr. reads. Qed.
Lemma reads_as_dict (d : val) : reads (as_dict d).
Proof. unfold as_dict. reads. Qed.

Lemma run_reads {A} (m : M A) (h : heap) (r : answer A) :
  reads m → eval m h = r → m h = (r, h).
Proof.
  intros Hm He. specialize (Hm h). unfold eval in He.
  destruct (m h); simpl in *; congruence.
Qed.

(** ** Dict items *)

Lemma dict_get_set_eq (items : list (val * val)) (k v : val) :
  dict_get (dict_set items k v) k = Some v.
Proof.
  induction items as [|[k' v'] rest IH]; simpl.
  - by rewrite decide_True.
  - destruct (decide (k' = k)) as [->|Hne]; simpl.
    + by rewrite decide_True.
    + by rewrite decide_False.
Qed.

Lemma dict_get_set_ne (items : list (val * val)) (k k' v : val) :
  k' ≠ k → dict_get (dict_set items k v) k' = dict_get items k'.
Proof.
  intros Hne. induction items as [|[k0 v0] rest IH]; simpl.
  - by rewrite decide_False.
  - destruct (decide (k0 = k)) as [->|Hne0]; simpl.
    + by rewrite !decide_False.
    + destruct (decide (k0 = k')); done.
Qed.

Lemma run_len_list (h : heap) (l : loc) (items : list val) :
  h !! l = Some (OList items) →
  len (VRef l) h = (Ok (Z.of_nat (length items)), h).
Proof.
  intros E. unfold len. by rewrite (run_bind_Ok _ _ _ _ _ (run_deref _ _ _ E)).
Qed.

Lemma run_getitem_list (h : heap) (l : loc) (items : list val) (i : nat)
    (v : val) :
  h !! l = Some (OList items) →
  items !! i = Some v →
  getitem (VRef l) i h = (Ok v, h).
Proof.
  intros E Hi. unfold getitem.
  rewrite (run_bind_Ok _ _ _ _ _ (run_deref _ _ _ E)). by rewrite Hi.
Qed.

Lemma run_star_args_list (h : heap) (l : loc) (items : list val) :
  h !! l = Some (OList items) →
  star_args (VRef l) h = (Ok items, h).
Proof.
  intros E. unfold star_args.
  by rewrite (run_bind_Ok _ _ _ _ _ (run_deref _ _ _ E)).
Qed.

Lemma run_as_dict (h : heap) (d : loc) (c : dict_type)
    (items : list (val * val)) :
  h !! d = Some (ODict c items) →
  as_dict (VRef d) h = (Ok (d, c, items), h).
Proof.
  intros E. unfold as_dict.
  by rewrite (run_bind_Ok _ _ _ _ _ (run_deref _ _ _ E)).
Qed.

Lemma run_isinstance_list (h : heap) (l : loc) (items : list val)
    (registered : list pytype) :
  h !! l = Some (OList items) →
  TList ∈ registered →
  isinstance (VRef l) registered h = (Ok true, h).
Proof.
  intros E Hin. unfold isinstance, type_of.
  rewrite run_bind, run_bind, (run_deref _ _ _ E). simpl.
  by rewrite bool_decide_true.
Qed.

Lemma run_dict_setitem (h : heap) (d : loc) (c : dict_type)
    (items : list (val * val)) (k v : val) :
  h !! d = Some (ODict c items) →
  eval (hash_check k) h = Ok tt →
  dict_setitem (VRef d) k v h
  = (Ok tt, <[d := ODict c (dict_set items k v)]> h).
Proof.
  intros Hd Hhash. unfold dict_setitem, as_dict.
  rewrite run_bind, run_bind, (run_deref _ _ _ Hd). simpl.
  rewrite (run_bind_Ok _ _ _ _ _ (run_reads _ _ _ (reads_hash_check k) Hhash)).
  reflexivity.
Qed.

(** ** Taking successful runs apart *)

Lemma bind_Ok_inv {A B} (m : M A) (f : A → M B) (h h'' : heap) (b : B) :
  (m ≫= f) h = (Ok b, h'') →
  ∃ (a : A) (h' : heap), m h = (Ok a, h') ∧ f a h' = (Ok b, h'').
Proof.
  rewrite run_bind. destruct (m h) as [[a| | |] h']; try discriminate. eauto.
Qed.

Lemma ret_Ok_inv {A} (a b : A) (h h' : heap) :
  ret a h = (Ok b, h') → b = a ∧ h' = h.
Proof. intros [= -> ->]. done. Qed.

Lemma reads_Ok_inv {A} (m : M A) (h h' : heap) (a : A) :
  reads m → m h = (Ok a, h') → h' = h.
Proof. intros Hm E. specialize (Hm h). rewrite E in Hm. done. Qed.

Lemma alloc_Ok_inv (o : obj) (h h' : heap) (y : loc) :
  alloc o h = (Ok y, h') → y = length h ∧ h' = h ++ [o].
Proof. intros [= <- <-]. done. Qed.

Lemma store_Ok_inv (l : loc) (o : obj) (h h' : heap) (u : unit) :
  store l o h = (Ok u, h') → h' = <[l := o]> h.
Proof. intros [= <-]. done. Qed.

Lemma setattr_writes (self : loc) (name : string) (v : val) (h h' : heap)
    (u : unit) :
  setattr self name v h = (Ok u, h') →
  ∃ k attrs, h !! self = Some (OInst k attrs) ∧
             h' = <[self := OInst k (<[name := v]> attrs)]> h.
Proof.
  unfold setattr. intros E.
  apply bind_Ok_inv in E as (o & h1 & Ho & E).
  unfold deref in Ho. destruct (h !! self) as [o'|] eqn:Hl; [|discriminate].
  injection Ho as -> ->.
  destruct o as [| |k attrs]; try discriminate.
  destruct (settable k name); [|discriminate].
  apply store_Ok_inv in E. eauto.
Qed.

Lemma list_append_writes (y : loc) (v : val) (h h' : heap) (u : unit) :
  list_append y v h = (Ok u, h') → writes_only_at y h h'.
Proof.
  unfold list_append. intros E.
  apply bind_Ok_inv in E as (o & h1 & Ho & E).
  apply (reads_Ok_inv _ _ _ _ (reads_deref y)) in Ho as Hh. subst h1.
  destruct o; try discriminate.
  apply store_Ok_inv in E. right. eauto.
Qed.

Lemma dict_setitem_writes (y : loc) (k v : val) (h h' : heap) (u : unit) :
  dict_setitem (VRef y) k v h = (Ok u, h') → writes_only_at y h h'.
Proof.
  unfold dict_setitem. intros E.
  apply bind_Ok_inv in E as ([[l c] items] & h1 & Hd & E).
  apply (reads_Ok_inv _ _ _ _ (reads_as_dict _)) in Hd as Hh. subst h1.
  assert (l = y) as ->.
  { unfold as_dict in Hd. apply bind_Ok_inv in Hd as (o & h1 & _ & Hd).
    destruct o; try discriminate. by injection Hd as <- _ _ _. }
  apply bind_Ok_inv in E as (? & h1 & Hhash & E).
  apply (reads_Ok_inv _ _ _ _ (reads_hash_check _)) in Hhash. subst h1.
  apply store_Ok_inv in E. right. eauto.
Qed.

(** ** Heaps that grow *)

Lemma prefix_store_above (h0 h : heap) (y : loc) (o : obj) :
  h0 `prefix_of` h → length h0 ≤ y → h0 `prefix_of` <[y := o]> h.
Proof.
  intros [k ->] Hy.
  replace y with (length h0 + (y - length h0)) by lia.
  rewrite insert_app_r. by eexists.
Qed.

Lemma prefix_writes_above (h0 h h' : heap) (y : loc) :
  h0 `prefix_of` h → length h0 ≤ y → writes_only_at y h h' →
  h0 `prefix_of` h'.
Proof.
  intros Hp Hy [->|[o ->]]; [done|]. by apply prefix_store_above.
Qed.

Lemma lookup_writes_other (h h' : heap) (y l : loc) :
  writes_only_at y h h' → l ≠ y → h' !! l = h !! l.
Proof.
  intros [->|[o ->]] Hne; [done|]. by apply list_lookup_insert_ne.
Qed.

Lemma length_writes (h h' : heap) (y : loc) :
  writes_only_at y h h' → length h' = length h.
Proof. intros [->|[o ->]]; [done|]. apply length_insert. Qed.

(** ** Loops *)

Lemma for_invariant {A} (I : heap → Prop) (xs : list A) (body : A → M unit) :
  (∀ x h u h', x ∈ xs → I h → body x h = (Ok u, h') → I h') →
  ∀ h u h', I h → for_ xs body h = (Ok u, h') → I h'.
Proof.
  induction xs as [|x xs IH]; intros Hbody h u h' HI E; simpl in E.
  - apply ret_Ok_inv in E as [-> ->]. done.
  - apply bind_Ok_inv in E as (u1 & h1 & E1 & E).
    eapply IH; [ | | exact E ].
    + intros. eapply Hbody; eauto. by right.
    + eapply Hbody; eauto. by left.
Qed.

Lemma deref_Ok_inv (l : loc) (h h' : heap) (o : obj) :
  deref l h = (Ok o, h') → h' = h ∧ h !! l = Some o.
Proof.
  unfold deref. destruct (h !! l); [|discriminate]. by intros [= -> ->].
Qed.

Lemma class_Ok_inv (self : loc) (h h' : heap) (k : klass) :
  __class__ self h = (Ok k, h') →
  h' = h ∧ ∃ attrs, h !! self = Some (OInst k attrs).
Proof.
  unfold __class__. intros E.
  apply bind_Ok_inv in E as (o & h1 & Ho & E).
  apply deref_Ok_inv in Ho as [-> Ho].
  destruct o; try discriminate. apply ret_Ok_inv in E as [-> ->]. eauto.
Qed.

Lemma getattr_Ok_inv (self : loc) (name : string) (h h' : heap) (v : val) :
  getattr self name h = (Ok v, h') →
  h' = h ∧ ∃ k attrs, h !! self = Some (OInst k attrs) ∧ attrs !! name = Some v.
Proof.
  unfold getattr. intros E.
  apply bind_Ok_inv in E as (o & h1 & Ho & E).
  apply deref_Ok_inv in Ho as [-> Ho].
  destruct o as [| |k attrs]; try discriminate.
  destruct (attrs !! name) eqn:Ha; [|discriminate].
  apply ret_Ok_inv in E as [-> ->]. eauto.
Qed.

(** ** Shallow copies *)

(** What [__copy__] leaves, whatever [copy.copy] does to the attribute
    values as long as it only adds cells: a new instance of the class of
    [self], at the end of the old heap, on which no attribute is set but
    those [self.__slots__] names. *)
Lemma copy_method_spec (copy_ : val → M val) (self : loc) (h h' : heap)
    (y : val) :
  (∀ v h y h', copy_ v h = (Ok y, h') → h `prefix_of` h') →
  GeomdlObject.__copy__ copy_ self h = (Ok y, h') →
  ∃ k attrs attrs',
    h !! self = Some (OInst k attrs) ∧
    y = VRef (length h) ∧
    h `prefix_of` h' ∧
    h' !! length h = Some (OInst k attrs') ∧
    ∀ name, is_Some (attrs' !! name) → name ∈ __slots__ k.
Proof.
  intros Hcopy E. unfold GeomdlObject.__copy__ in E.
  apply bind_Ok_inv in E as (k & h1 & Hk & E).
  apply class_Ok_inv in Hk as [-> [attrs Hself]].
  apply bind_Ok_inv in E as (r & h1 & Hr & E).
  apply alloc_Ok_inv in Hr as [-> ->].
  apply bind_Ok_inv in E as (u & h2 & Hloop & E).
  apply ret_Ok_inv in E as [-> ->].
  set (I := λ hc : heap,
         h `prefix_of` hc ∧
         ∃ a, hc !! length h = Some (OInst k a) ∧
              ∀ name, is_Some (a !! name) → name ∈ __slots__ k).
  assert (HI : I h2).
  { eapply (for_invariant I); [ | | exact Hloop ].
    - clear Hloop h2 u. intros var hc u hc'' Hvar [Hp (a & Ha & Hdom)] E.
      apply bind_Ok_inv in E as (v & h1 & Hv & E).
      apply getattr_Ok_inv in Hv as [-> _].
      apply bind_Ok_inv in E as (c & hc' & Hc & E).
      apply Hcopy in Hc.
      apply setattr_writes in E as (k' & a' & Hr & ->).
      rewrite (prefix_lookup_Some _ _ _ _ Ha Hc) in Hr.
      injection Hr as <- <-.
      split; [ apply prefix_store_above; [ by etrans | done ] | ].
      exists (<[var := c]> a). split.
      + apply list_lookup_insert_eq.
        eapply lookup_lt_Some, prefix_lookup_Some; eauto.
      + intros name. rewrite lookup_insert. case_decide; [ by subst | auto ].
    - split; [ by apply prefix_app_r | ].
      exists ∅. split; [ apply lookup_alloc | ].
      intros name [v Hv]. by rewrite lookup_empty in Hv. }
  destruct HI as [Hp (a & Ha & Hdom)].
  exists k, attrs, a. split_and!; eauto.
Qed.

Lemma copy_unfold (fuel : nat) (x : val) :
  copy.copy fuel x =
  match x with
  | VRef l =>
      o ← deref l;
      match o with
      | OList items => y ← alloc (OList items); ret (VRef y)
      | ODict c items => y ← alloc (ODict c items); ret (VRef y)
      | OInst _ _ =>
          match fuel with
          | 0 => out_of_fuel
          | S fuel' => GeomdlObject.__copy__ (copy.copy fuel') l
          end
      end
  | _ => ret x
  end.
Proof. destruct fuel; reflexivity. Qed.

(** [copy.copy] only adds cells. *)
Lemma copy_extends (fuel : nat) (x : val) (h h' : heap) (y : val) :
  copy.copy fuel x h = (Ok y, h') → h `prefix_of` h'.
Proof.
  revert x h h' y. induction fuel as [|fuel IH]; intros x h h' y E;
    rewrite copy_unfold in E;
    (destruct x as [| | | |l];
     [ by apply ret_Ok_inv in E as [_ ->] .. | ]);
    apply bind_Ok_inv in E as (o & h1 & Ho & E);
    apply deref_Ok_inv in Ho as [-> Ho];
    (destruct o;
     [ apply bind_Ok_inv in E as (r & h1 & Hr & E);
       apply alloc_Ok_inv in Hr as [-> ->];
       apply ret_Ok_inv in E as [_ ->]; by apply prefix_app_r ..
     | ]).
  - discriminate.
  - apply copy_method_spec in E as (? & ? & ? & _ & _ & Hp & _); [done|].
    intros v h0 y0 h0'. apply IH.
Qed.

(** ** Deep copies *)

Lemma seed_lt (memo : memo_t) (h : heap) (lc f : loc) :
  seed memo h lc f → f < length h.
Proof. intros [_ Hf]. by eapply lookup_lt_Some. Qed.

Lemma building_init (h : heap) (memo : memo_t) (l : loc) (o : obj) :
  memo !! l = None →
  building h memo (length h) (<[l := VRef (length h)]> memo) (h ++ [o]).
Proof.
  intros Hl. split_and!.
  - by apply prefix_app_r.
  - done.
  - rewrite length_alloc. lia.
  - intros lc f Hs. exists f. pose proof (seed_lt _ _ _ _ Hs) as Hlt.
    destruct Hs as [Hm Hf]. split_and!.
    + split; [ | by apply lookup_app_l_Some ].
      rewrite lookup_insert_ne; [done|]. intros ->. congruence.
    + lia.
    + by left.
Qed.

Lemma building_call (h : heap) (memo : memo_t) (y : loc)
    (m1 m2 : memo_t) (h1 h2 : heap) :
  building h memo y m1 h1 → deepcopy_post h1 m1 h2 m2 →
  building h memo y m2 h2.
Proof.
  intros (Hp & [Hy1 Hy2] & Hs) [Hp' Hs'].
  pose proof (prefix_length _ _ Hp) as Hlen.
  pose proof (prefix_length _ _ Hp') as Hlen'.
  split_and!; [ by etrans | lia | lia | ].
  intros lc f Hseed.
  destruct (Hs lc f Hseed) as (f1 & Hs1 & Hne & Hor).
  destruct (Hs' lc f1 Hs1) as (f2 & Hs2 & Hor').
  exists f2. split_and!; [ done | | ].
  - destruct Hor' as [->|?]; [done|lia].
  - destruct Hor' as [->|?]; [done|]. right. lia.
Qed.

Lemma building_write (h : heap) (memo : memo_t) (y : loc)
    (m1 : memo_t) (h1 h2 : heap) :
  building h memo y m1 h1 → writes_only_at y h1 h2 →
  building h memo y m1 h2.
Proof.
  intros (Hp & [Hy1 Hy2] & Hs) Hw.
  split_and!.
  - by eapply prefix_writes_above.
  - done.
  - by rewrite (length_writes _ _ _ Hw).
  - intros lc f Hseed.
    destruct (Hs lc f Hseed) as (f1 & [Hm Hf] & Hne & Hor).
    exists f1. split_and!; [ | done | done ].
    split; [done|]. by rewrite (lookup_writes_other _ _ _ _ Hw).
Qed.

Lemma building_done (h : heap) (memo : memo_t) (y l : loc) (v : val)
    (m1 : memo_t) (h1 : heap) :
  memo !! l = None →
  building h memo y m1 h1 → deepcopy_post h memo h1 (<[l := v]> m1).
Proof.
  intros Hl (Hp & _ & Hs). split; [done|].
  intros lc f Hseed.
  destruct (Hs lc f Hseed) as (f1 & [Hm Hf] & _ & Hor).
  exists f1. split; [ | done ]. split; [ | done ].
  rewrite lookup_insert_ne; [done|].
  intros ->. destruct Hseed. congruence.
Qed.

Lemma deepcopy_post_refl (h : heap) (memo : memo_t) :
  deepcopy_post h memo h memo.
Proof. split; [done|]. intros lc f Hs. exists f. auto. Qed.

(** Seeding the table with a new empty [GeomdlDict], put at the end of the
    heap, for whatever key. *)
Lemma building_seed (h : heap) (memo : memo_t) (y key : loc)
    (m1 : memo_t) (h1 : heap) :
  building h memo y m1 h1 →
  building h memo y (<[key := VRef (length h1)]> m1)
    (h1 ++ [empty_GeomdlDict]).
Proof.
  intros (Hp & [Hy1 Hy2] & Hs).
  pose proof (prefix_length _ _ Hp) as Hlen.
  split_and!; [ by apply prefix_app_r | done | rewrite length_alloc; lia | ].
  intros lc f Hseed. destruct (decide (lc = key)) as [->|Hne].
  - exists (length h1). split_and!; [ | lia | right; lia ].
    split; [ apply lookup_insert_eq | apply lookup_alloc ].
  - destruct (Hs lc f Hseed) as (f1 & [Hm Hf] & Hney & Hor).
    exists f1. split_and!; [ | done | done ].
    split; [ by rewrite lookup_insert_ne | by apply lookup_app_l_Some ].
Qed.

Lemma building_post (h : heap) (memo : memo_t) (y : loc)
    (m1 : memo_t) (h1 : heap) :
  building h memo y m1 h1 → deepcopy_post h memo h1 m1.
Proof.
  intros (Hp & _ & Hs). split; [done|].
  intros lc f Hseed.
  destruct (Hs lc f Hseed) as (f1 & Hs1 & _ & Hor). eauto.
Qed.

Lemma deepcopy_post_insert (h : heap) (memo : memo_t) (l : loc) (v : val)
    (m1 : memo_t) (h1 : heap) :
  memo !! l = None →
  deepcopy_post h memo h1 m1 → deepcopy_post h memo h1 (<[l := v]> m1).
Proof.
  intros Hl [Hp Hs]. split; [done|].
  intros lc f Hseed.
  destruct (Hs lc f Hseed) as (f1 & [Hm Hf] & Hor).
  exists f1. split; [ | done ]. split; [ | done ].
  rewrite lookup_insert_ne; [done|].
  intros ->. destruct Hseed. congruence.
Qed.

Lemma for_acc_invariant_ix {A S} (I : list A → S → heap → Prop)
    (xs : list A) (body : A → S → M S) :
  (∀ done x s h s' h',
     I done s h → body x s h = (Ok s', h') → I (done ++ [x]) s' h') →
  ∀ done s h s' h',
    I done s h → for_acc xs s body h = (Ok s', h') → I (done ++ xs) s' h'.
Proof.
  intros Hbody. induction xs as [|x xs IH]; intros done s h s' h' HI E;
    simpl in E.
  - apply ret_Ok_inv in E as [-> ->]. by rewrite app_nil_r.
  - apply bind_Ok_inv in E as (s1 & h1 & E1 & E).
    rewrite cons_middle, app_assoc. eapply IH; [ | exact E ]. eauto.
Qed.

Lemma new_GeomdlDict_Ok_inv (x fresh : val) (h h' : heap) :
  __new__GeomdlDict x h = (Ok fresh, h') →
  ∃ lc, x = VRef lc ∧ fresh = VRef (length h) ∧
        h' = h ++ [empty_GeomdlDict].
Proof.
  unfold __new__GeomdlDict. intros E.
  apply bind_Ok_inv in E as (t & h1 & Ht & E).
  apply (reads_Ok_inv _ _ _ _ (reads_type_of x)) in Ht as Hh. subst h1.
  assert (∃ lc, x = VRef lc) as [lc ->].
  { destruct x; try (injection Ht as <-; discriminate). eauto. }
  exists lc. split; [done|].
  destruct t; try discriminate; by injection E as <- <-.
Qed.

Lemma id_of_Ok_inv (x : val) (l : loc) (h h' : heap) :
  id_of x h = (Ok l, h') → x = VRef l ∧ h' = h.
Proof. destruct x; try discriminate. by intros [= -> ->]. Qed.

(** What [__deepcopy__] leaves, whatever [copy.deepcopy] does to the
    attribute values as long as it keeps to [deepcopy_post] and answers
    from the table when it can: a new instance of the class of [self] at
    the end of the old heap; exactly the attributes [self.__slots__] names
    are set on it; and [_cache], if set, is a new, empty [GeomdlDict]. *)
Lemma deepcopy_method_spec
    (deepcopy_ : val → memo_t → M (val * memo_t))
    (self : loc) (memo memo' : memo_t) (h h' : heap) (y : val) :
  (∀ v m h y m' h',
     deepcopy_ v m h = (Ok (y, m'), h') → deepcopy_post h m h' m') →
  (∀ l m h v, m !! l = Some v → deepcopy_ (VRef l) m h = (Ok (v, m), h)) →
  memo !! self = None →
  GeomdlObject.__deepcopy__ deepcopy_ self memo h = (Ok (y, memo'), h') →
  ∃ k attrs attrs',
    h !! self = Some (OInst k attrs) ∧
    y = VRef (length h) ∧
    deepcopy_post h memo h' memo' ∧
    h' !! length h = Some (OInst k attrs') ∧
    (∀ name, is_Some (attrs' !! name) ↔ name ∈ __slots__ k) ∧
    (∀ v, attrs' !! "_cache" = Some v →
          ∃ f, v = VRef f ∧ length h < f ∧
               h' !! f = Some empty_GeomdlDict).
Proof.
  intros Hpost Hhit Hmemo E. unfold GeomdlObject.__deepcopy__ in E.
  apply bind_Ok_inv in E as (k & h1 & Hk & E).
  apply class_Ok_inv in Hk as [-> [attrs Hself]].
  apply bind_Ok_inv in E as (r & h1 & Hr & E).
  apply alloc_Ok_inv in Hr as [-> ->].
  apply bind_Ok_inv in E as (cache & h1 & Hc & E).
  apply getattr_Ok_inv in Hc as [-> (k1 & a1 & Hs1 & Hcache)].
  rewrite (lookup_app_l_Some _ _ _ _ Hself) in Hs1. injection Hs1 as <- <-.
  apply bind_Ok_inv in E as (fresh & h2 & Hfresh & E).
  apply new_GeomdlDict_Ok_inv in Hfresh as (lc & -> & -> & ->).
  apply bind_Ok_inv in E as (cache' & h3 & Hc & E).
  apply getattr_Ok_inv in Hc as [-> (k1 & a1 & Hs1 & Hcache')].
  rewrite (lookup_app_l_Some _ _ _ _ (lookup_app_l_Some _ _ _ _ Hself)) in Hs1.
  injection Hs1 as <- <-.
  rewrite Hcache in Hcache'. injection Hcache' as <-.
  apply bind_Ok_inv in E as (key & h3 & Hkey & E).
  apply id_of_Ok_inv in Hkey as [[= <-] ->].
  apply bind_Ok_inv in E as (memo1 & h3 & Hloop & E).
  apply ret_Ok_inv in E as [[= -> ->] ->].
  set (r := length h) in *.
  set (I := λ (done : list string) (m : memo_t) (hc : heap),
         building h memo r m hc ∧
         (∃ f, seed m hc lc f ∧ r < f) ∧
         ∃ a, hc !! r = Some (OInst k a) ∧
              (∀ name, is_Some (a !! name) ↔ name ∈ done) ∧
              (∀ v, a !! "_cache" = Some v →
                    ∃ f, v = VRef f ∧ r < f ∧
                         hc !! f = Some empty_GeomdlDict)).
  assert (HI : I ([] ++ __slots__ k) memo1 h3).
  { eapply (for_acc_invariant_ix I); [ | | exact Hloop ].
    - clear Hloop memo1 h3.
      intros done var m hc m' hc''
        (Hb & (f & [Hmf Hf] & Hrf) & a & Ha & Hdom & Hca) E.
      pose proof Hb as (Hp & [_ Hrlt] & _).
      apply bind_Ok_inv in E as (v & h1 & Hv & E).
      apply getattr_Ok_inv in Hv as [-> (k1 & a1 & Hs1 & Hvar)].
      rewrite (prefix_lookup_Some _ _ _ _ Hself Hp) in Hs1.
      injection Hs1 as <- <-.
      apply bind_Ok_inv in E as ([c m2] & hc' & Hc & E).
      apply bind_Ok_inv in E as (u & h1 & Hset & E).
      apply ret_Ok_inv in E as [-> ->].
      pose proof (Hpost _ _ _ _ _ _ Hc) as Hpc.
      pose proof Hpc as [Hp' Hs'].
      apply setattr_writes in Hset as (k' & a' & Hr & ->).
      rewrite (prefix_lookup_Some _ _ _ _ Ha Hp') in Hr.
      injection Hr as <- <-.
      assert (Hw : writes_only_at r hc'
                     (<[r := OInst k (<[var := c]> a)]> hc'))
        by (right; eauto).
      pose proof (prefix_length _ _ Hp') as Hlen'.
      split_and!.
      + eapply building_write; [ | exact Hw ]. by eapply building_call.
      + destruct (Hs' lc f (conj Hmf Hf)) as (f' & [Hmf' Hf'] & Hor).
        exists f'. split; [ split; [done|] | ].
        * rewrite list_lookup_insert_ne; [done|].
          destruct Hor as [->|?]; lia.
        * destruct Hor as [->|?]; [done|]. lia.
      + exists (<[var := c]> a). split_and!.
        * apply list_lookup_insert_eq. lia.
        * intros name. rewrite lookup_insert, elem_of_app, list_elem_of_singleton.
          case_decide as Hd.
          -- subst. split; [ by right | eauto ].
          -- rewrite Hdom. split; [ by left | ]. intros [?|?]; [done|].
             by subst.
        * intros v'. rewrite lookup_insert. case_decide as Hd.
          -- intros [= <-]. subst var.
             rewrite Hcache in Hvar. injection Hvar as <-.
             rewrite (Hhit _ _ _ _ Hmf) in Hc. injection Hc as <- <- <-.
             exists f. split_and!; [ done | done | ].
             rewrite list_lookup_insert_ne; [done|lia].
          -- intros Hv'. destruct (Hca v' Hv') as (f0 & -> & Hlt0 & Hf0).
             exists f0. split_and!; [ done | done | ].
             rewrite list_lookup_insert_ne; [ | lia ].
             by eapply prefix_lookup_Some.
    - split_and!.
      + apply building_seed, building_init. done.
      + exists (length (h ++ [OInst k ∅])). split.
        * split; [ apply lookup_insert_eq | apply lookup_alloc ].
        * rewrite length_alloc. subst r. lia.
      + exists ∅. split_and!.
        * apply lookup_app_l_Some, lookup_alloc.
        * intros name. rewrite lookup_empty. split.
          -- by intros [? ?].
          -- by intros ?%elem_of_nil.
        * intros v. by rewrite lookup_empty. }
  destruct HI as (Hb & _ & a & Ha & Hdom & Hca).
  exists k, attrs, a. split_and!; try done.
  by eapply building_post.
Qed.

Lemma deepcopy_memo_hit (fuel : nat) (l : loc) (memo : memo_t) (h : heap)
    (v : val) :
  memo !! l = Some v → copy.deepcopy fuel (VRef l) memo h = (Ok (v, memo), h).
Proof. intros Hm. destruct fuel; simpl; by rewrite Hm. Qed.

Lemma deepcopy_miss (fuel : nat) (l : loc) (memo : memo_t) :
  memo !! l = None →
  copy.deepcopy (S fuel) (VRef l) memo =
  (o ← deref l;
   match o with
   | OList items =>
       y ← alloc (OList []);
       memo ← for_acc items (<[l := VRef y]> memo) (λ a memo,
         '(a', memo) ← copy.deepcopy fuel a memo;
         list_append y a';;
         ret memo);
       ret (VRef y, <[l := VRef y]> memo)
   | ODict PyDict items =>
       y ← alloc (ODict PyDict []);
       memo ← for_acc items (<[l := VRef y]> memo) (λ kv memo,
         '(v', memo) ← copy.deepcopy fuel kv.2 memo;
         '(k', memo) ← copy.deepcopy fuel kv.1 memo;
         dict_setitem (VRef y) k' v';;
         ret memo);
       ret (VRef y, <[l := VRef y]> memo)
   | ODict GeomdlDict items =>
       y ← alloc (ODict GeomdlDict []);
       memo ← for_acc items (<[l := VRef y]> memo) (λ kv memo,
         '(k', memo) ← copy.deepcopy fuel kv.1 memo;
         '(v', memo) ← copy.deepcopy fuel kv.2 memo;
         dict_setitem (VRef y) k' v';;
         ret memo);
       ret (VRef y, <[l := VRef y]> memo)
   | OInst _ _ =>
       '(y, memo) ← GeomdlObject.__deepcopy__ (copy.deepcopy fuel) l memo;
       ret (y, <[l := y]> memo)
   end).
Proof. intros Hm. simpl. rewrite Hm. reflexivity. Qed.

(** Every call of [copy.deepcopy] keeps to [deepcopy_post]. *)
Lemma deepcopy_spec (fuel : nat) (x : val) (memo memo' : memo_t)
    (h h' : heap) (y : val) :
  copy.deepcopy fuel x memo h = (Ok (y, memo'), h') →
  deepcopy_post h memo h' memo'.
Proof.
  revert x memo memo' h h' y.
  induction fuel as [|fuel IH]; intros x memo memo' h h' y E.
  - destruct x as [| | | |l]; simpl in E;
      try (injection E as <- <- <-; apply deepcopy_post_refl).
    destruct (memo !! l).
    + injection E as <- <- <-. apply deepcopy_post_refl.
    + apply bind_Ok_inv in E as (o & h1 & _ & E). discriminate.
  - destruct x as [| | | |l];
      try (simpl in E; injection E as <- <- <-; apply deepcopy_post_refl).
    destruct (memo !! l) as [v|] eqn:Hm.
    { rewrite (deepcopy_memo_hit _ _ _ _ _ Hm) in E.
      injection E as <- <- <-. apply deepcopy_post_refl. }
    rewrite (deepcopy_miss _ _ _ Hm) in E.
    apply bind_Ok_inv in E as (o & h1 & Ho & E).
    apply deref_Ok_inv in Ho as [-> Ho].
    destruct o as [items|[] items|k attrs].
    + apply bind_Ok_inv in E as (r & h1 & Hr & E).
      apply alloc_Ok_inv in Hr as [-> ->].
      apply bind_Ok_inv in E as (m1 & h1 & Hloop & E).
      apply ret_Ok_inv in E as [[= -> ->] ->].
      apply (building_done _ _ (length h)); [done|].
      eapply (for_acc_invariant_ix (λ _, building h memo (length h)) items)
        with (done := []); [ | | exact Hloop ]; [ | by apply building_init ].
      clear Hloop. intros _ a m hc m' hc' Hb E.
      apply bind_Ok_inv in E as ([a' m2] & hc1 & Ha & E).
      apply bind_Ok_inv in E as (u & hc2 & Hw & E).
      apply ret_Ok_inv in E as [-> ->].
      eapply building_write; [ | by eapply list_append_writes ].
      eapply building_call; [ done | by eapply IH ].
    + apply bind_Ok_inv in E as (r & h1 & Hr & E).
      apply alloc_Ok_inv in Hr as [-> ->].
      apply bind_Ok_inv in E as (m1 & h1 & Hloop & E).
      apply ret_Ok_inv in E as [[= -> ->] ->].
      apply (building_done _ _ (length h)); [done|].
      eapply (for_acc_invariant_ix (λ _, building h memo (length h)) items)
        with (done := []); [ | | exact Hloop ]; [ | by apply building_init ].
      clear Hloop. intros _ kv m hc m' hc' Hb E.
      apply bind_Ok_inv in E as ([v' m2] & hc1 & Hv & E).
      apply bind_Ok_inv in E as ([k' m3] & hc2 & Hk & E).
      apply bind_Ok_inv in E as (u & hc3 & Hw & E).
      apply ret_Ok_inv in E as [-> ->].
      eapply building_write; [ | by eapply dict_setitem_writes ].
      eapply building_call; [ | by eapply IH ].
      eapply building_call; [ done | by eapply IH ].
    + apply bind_Ok_inv in E as (r & h1 & Hr & E).
      apply alloc_Ok_inv in Hr as [-> ->].
      apply bind_Ok_inv in E as (m1 & h1 & Hloop & E).
      apply ret_Ok_inv in E as [[= -> ->] ->].
      apply (building_done _ _ (length h)); [done|].
      eapply (for_acc_invariant_ix (λ _, building h memo (length h)) items)
        with (done := []); [ | | exact Hloop ]; [ | by apply building_init ].
      clear Hloop. intros _ kv m hc m' hc' Hb E.
      apply bind_Ok_inv in E as ([k' m2] & hc1 & Hk & E).
      apply bind_Ok_inv in E as ([v' m3] & hc2 & Hv & E).
      apply bind_Ok_inv in E as (u & hc3 & Hw & E).
      apply ret_Ok_inv in E as [-> ->].
      eapply building_write; [ | by eapply dict_setitem_writes ].
      eapply building_call; [ | by eapply IH ].
      eapply building_call; [ done | by eapply IH ].
    + apply bind_Ok_inv in E as ([y1 m1] & h1 & Hcall & E).
      apply ret_Ok_inv in E as [[= -> ->] ->].
      apply deepcopy_post_insert; [done|].
      apply deepcopy_method_spec in Hcall
        as (_ & _ & _ & _ & _ & Hpost & _); [ done | | | done ].
      * intros. by eapply IH.
      * intros. by apply deepcopy_memo_hit.
Qed.

(** * The claims *)

(** ** Sample objects are what the constructors build *)

Lemma curve_heap_built : build_curve [] = (Ok (VRef 0), curve_heap).
Proof. vm_compute. reflexivity. Qed.

Lemma plain_heap_built :
  new KObject {["id" := VInt 3]} [] = (Ok (VRef 0), plain_heap).
Proof. vm_compute. reflexivity. Qed.

(** ** Copies *)

(** C1 (deep copy of a geometry object; the code departs from the claim).
    Deep-copying the sample geometry object, whose cache holds an entry,
    returns a new [GeomdlBase] instance.  Its cache is a new, empty
    [GeomdlDict] while the original keeps its entry; its [opt] store is a
    new [GeomdlDict] with the same key and a new inner list.  But the
    inherited attributes [_id], [_name] and [_cfg] are not set on the copy:
    reading them raises [AttributeError]. *)
Theorem deepcopy_leaves_inherited_attributes_unset :
  ∃ (c cache opt inner : loc) (h' : heap),
    copy.deepcopy_top 3 (VRef 0) curve_heap = (Ok (VRef c), h') ∧
    length curve_heap ≤ cache ∧
    eval (getattr c "_cache") h' = Ok (VRef cache) ∧
    h' !! cache = Some (ODict GeomdlDict []) ∧
    h' !! 4 = Some (ODict GeomdlDict [(VStr "evalpts", VInt 3)]) ∧
    length curve_heap ≤ opt ∧
    eval (GeomdlBase.opt c) h' = Ok (VRef opt) ∧
    h' !! opt = Some (ODict GeomdlDict [(VStr "k", VRef inner)]) ∧
    length curve_heap ≤ inner ∧
    h' !! inner = Some (OList [VInt 1]) ∧
    eval (getattr c "_dimension") h' = Ok (VInt 0) ∧
    eval (GeomdlBase.type c) h' = Ok (VStr "") ∧
    eval (GeomdlObject.id 0) h' = Ok (VInt 7) ∧
    eval (GeomdlObject.id c) h' = Raise (AttributeError "_id") ∧
    eval (GeomdlObject.name c) h' = Raise (AttributeError "_name") ∧
    eval (getattr c "_cfg") h' = Raise (AttributeError "_cfg").
Proof.
  exists 8, 9, 10, 11. eexists. split; [ vm_compute; reflexivity | ].
  split_and!; first [ simpl; lia | vm_compute; reflexivity ].
Qed.

(** X22.  The deep copy of any geometry object, whenever
    [copy.deepcopy] returns one: it is a new [GeomdlBase] instance at the
    end of a heap whose old cells are all as they were; its [_cache] is
    a new, empty [GeomdlDict], whatever the cache of the original holds;
    and the attributes set on it are exactly those
    [GeomdlBase.__slots__] names, so that [_id], [_name] and [_cfg] are
    unset. *)
Theorem deepcopy_seeds_cache_and_sets_own_slots_only
    (fuel : nat) (h h' : heap) (self : loc) (attrs : gmap string val)
    (y : val) :
  h !! self = Some (OInst KBase attrs) →
  copy.deepcopy_top fuel (VRef self) h = (Ok y, h') →
  ∃ (attrs' : gmap string val) (cache : loc),
    y = VRef (length h) ∧
    h `prefix_of` h' ∧
    h' !! length h = Some (OInst KBase attrs') ∧
    attrs' !! "_cache" = Some (VRef cache) ∧
    length h < cache ∧
    h' !! cache = Some empty_GeomdlDict ∧
    (∀ name, is_Some (attrs' !! name) ↔ name ∈ GeomdlBase_slots).
Proof.
  intros Hself E. unfold copy.deepcopy_top in E.
  apply bind_Ok_inv in E as ([y1 m1] & h1 & E & Hret).
  apply ret_Ok_inv in Hret as [-> ->].
  destruct fuel as [|fuel].
  { simpl in E. rewrite lookup_empty in E.
    rewrite (run_bind_Ok _ _ _ _ _ (run_deref _ _ _ Hself)) in E.
    discriminate. }
  rewrite (deepcopy_miss _ _ _ (lookup_empty _)) in E.
  rewrite (run_bind_Ok _ _ _ _ _ (run_deref _ _ _ Hself)) in E.
  apply bind_Ok_inv in E as ([y2 m2] & h2 & Hcall & E).
  apply ret_Ok_inv in E as [[= -> ->] ->].
  apply deepcopy_method_spec in Hcall
    as (k & a & a' & Hs & -> & [Hp _] & Hc & Hdom & Hca);
    [ | intros; by eapply deepcopy_spec
      | intros; by apply deepcopy_memo_hit
      | apply lookup_empty ].
  rewrite Hself in Hs. injection Hs as <- <-.
  assert (Hin : "_cache" ∈ GeomdlBase_slots) by (repeat constructor).
  apply (Hdom "_cache") in Hin as [v Hv].
  destruct (Hca v Hv) as (f & -> & Hlt & Hf).
  exists a', f. split_and!; done.
Qed.

Lemma deepcopy_seeds_cache_and_sets_own_slots_only_witness :
  ∃ (attrs' : gmap string val) (cache : loc),
    VRef 8 = VRef (length curve_heap) ∧
    curve_heap `prefix_of` (copy.deepcopy_top 3 (VRef 0) curve_heap).2 ∧
    (copy.deepcopy_top 3 (VRef 0) curve_heap).2 !! length curve_heap
    = Some (OInst KBase attrs') ∧
    attrs' !! "_cache" = Some (VRef cache) ∧
    length curve_heap < cache ∧
    (copy.deepcopy_top 3 (VRef 0) curve_heap).2 !! cache
    = Some empty_GeomdlDict ∧
    (∀ name, is_Some (attrs' !! name) ↔ name ∈ GeomdlBase_slots).
Proof.
  apply (deepcopy_seeds_cache_and_sets_own_slots_only 3 curve_heap _ 0
           curve_attrs (VRef 8)).
  - reflexivity.
  - vm_compute. reflexivity.
Defined.

(** C2 (shallow copy of an identity object; the code departs from the
    claim).  Shallow-copying the sample geometry object returns a new
    [GeomdlBase] instance on which only the four attributes named by
    [GeomdlBase.__slots__] are set; the inherited [_id], [_name] and
    [_cfg] are not, and reading them raises [AttributeError]. *)
Theorem copy_leaves_inherited_attributes_unset :
  ∃ (c opt cache : loc) (h' : heap),
    copy.copy 1 (VRef 0) curve_heap = (Ok (VRef c), h') ∧
    h' !! c = Some (OInst KBase
                      (<["_cache" := VRef cache]>
                       (<["_opt_data" := VRef opt]>
                        (<["_geom_type" := VStr ""]>
                         (<["_dimension" := VInt 0]> ∅))))) ∧
    eval (GeomdlObject.id 0) h' = Ok (VInt 7) ∧
    eval (GeomdlObject.id c) h' = Raise (AttributeError "_id") ∧
    eval (GeomdlObject.name c) h' = Raise (AttributeError "_name") ∧
    eval (getattr c "_cfg") h' = Raise (AttributeError "_cfg").
Proof.
  exists 8, 9, 10. eexists. split; [ vm_compute; reflexivity | ].
  split_and!; vm_compute; reflexivity.
Qed.

(** X23.  The shallow copy of any identity object, whenever [copy.copy]
    returns one: it is a new instance of the same class at the end of a
    heap whose old cells are all as they were, and no attribute is set on
    it but those [self.__slots__] names - for a geometry object the four
    of [GeomdlBase], none of the inherited ones. *)
Theorem shallow_copy_sets_own_slots_only
    (fuel : nat) (h h' : heap) (self : loc) (k : klass)
    (attrs : gmap string val) (y : val) :
  h !! self = Some (OInst k attrs) →
  copy.copy fuel (VRef self) h = (Ok y, h') →
  ∃ attrs',
    y = VRef (length h) ∧
    h `prefix_of` h' ∧
    h' !! length h = Some (OInst k attrs') ∧
    ∀ name, is_Some (attrs' !! name) → name ∈ __slots__ k.
Proof.
  intros Hself E. rewrite copy_unfold in E.
  rewrite (run_bind_Ok _ _ _ _ _ (run_deref _ _ _ Hself)) in E.
  destruct fuel as [|fuel]; [discriminate|].
  apply copy_method_spec in E as (k' & a & a' & Hs & -> & Hp & Hc & Hdom);
    [ | intros v h0 y0 h0'; apply copy_extends ].
  rewrite Hself in Hs. injection Hs as <- <-. eauto.
Qed.

Lemma shallow_copy_sets_own_slots_only_witness :
  ∃ attrs',
    VRef 8 = VRef (length curve_heap) ∧
    curve_heap `prefix_of` (copy.copy 1 (VRef 0) curve_heap).2 ∧
    (copy.copy 1 (VRef 0) curve_heap).2 !! length curve_heap
    = Some (OInst KBase attrs') ∧
    ∀ name, is_Some (attrs' !! name) → name ∈ __slots__ KBase.
Proof.
  apply (shallow_copy_sets_own_slots_only 1 curve_heap _ 0 KBase
           curve_attrs (VRef 8)).
  - reflexivity.
  - vm_compute. reflexivity.
Defined.

(** C10.  An identity object that is no geometry object, and that carries
    only the attributes its classes declare, cannot be deep-copied: the
    shared [__deepcopy__] reads [self._cache] before anything else, and
    [copy.deepcopy] raises [AttributeError] for [_cache], whatever
    recursion budget it is given to start with. *)
Theorem deepcopy_without_cache_raises
    (fuel : nat) (h : heap) (self : loc) (k : klass) (attrs : gmap string val) :
  h !! self = Some (OInst k attrs) →
  k ≠ KBase →
  (∀ name, is_Some (attrs !! name) → name ∈ all_slots k) →
  eval (copy.deepcopy_top (S fuel) (VRef self)) h
  = Raise (AttributeError "_cache").
Proof.
  intros Hself Hk Hattrs.
  assert (Hcache : attrs !! "_cache" = None).
  { destruct (attrs !! "_cache") eqn:E; [|done].
    assert (Hin : "_cache" ∈ all_slots k) by (apply Hattrs; eauto).
    destruct k; [ | done | ]; by apply cache_not_object_slot in Hin. }
  unfold eval, copy.deepcopy_top. simpl.
  rewrite lookup_empty.
  rewrite run_bind, run_bind, (run_deref _ _ _ Hself).
  unfold GeomdlObject.__deepcopy__.
  rewrite run_bind, run_bind, (run_class _ _ _ _ Hself).
  rewrite run_bind. unfold alloc at 1.
  rewrite run_bind.
  rewrite (run_getattr _ _ _ _ "_cache" (lookup_alloc_old _ _ _ _ Hself)).
  rewrite Hcache. reflexivity.
Qed.

Lemma deepcopy_without_cache_raises_witness :
  eval (copy.deepcopy_top 1 (VRef 0)) plain_heap
  = Raise (AttributeError "_cache").
Proof.
  apply (deepcopy_without_cache_raises 0 plain_heap 0 KObject plain_attrs).
  - reflexivity.
  - discriminate.
  - intros name [v Hv]. unfold plain_attrs in Hv.
    repeat (rewrite lookup_insert in Hv; case_decide;
            [ subst name; repeat constructor | ]).
    by rewrite lookup_empty in Hv.
Defined.

(** ** Properties of a geometry object *)

(** C3 (the [dimension] property; the code departs from the claim).  On
    every geometry object a constructor call returns, the stored spatial
    dimension [_dimension] is the default 0, yet reading the [dimension]
    property raises [AttributeError]: the getter reads [_dim], which no
    instance has. *)
Theorem dimension_getter_reads_unset_attribute
    (h h' : heap) (kwargs : gmap string val) (v : val) :
  new KBase kwargs h = (Ok v, h') →
  ∃ self : loc,
    v = VRef self ∧
    getattr self "_dimension" h' = (Ok (VInt 0), h') ∧
    GeomdlBase.dimension self h' = (Raise (AttributeError "_dim"), h').
Proof.
  intros Hnew.
  destruct (int_of_cases (default (VInt 0) (kwargs !! "id")))
    as [[n Hint]|[e [Hint _]]].
  - rewrite (new_KBase_Ok _ _ _ Hint) in Hnew.
    injection Hnew as <- <-. exists (length h). split; [done|].
    unfold GeomdlBase.dimension.
    rewrite !(run_getattr _ _ _ _ _ (lookup_alloc_mid _ _ _)).
    unfold new_base_attrs.
    rewrite !lookup_insert_ne by done. rewrite lookup_insert_eq.
    rewrite !lookup_insert_ne by done. rewrite lookup_empty. done.
  - pose proof (new_Raise KBase kwargs h e Hint) as Hr.
    rewrite Hnew in Hr. discriminate.
Qed.

Lemma dimension_getter_reads_unset_attribute_witness :
  ∃ self : loc,
    VRef 0 = VRef self ∧
    getattr self "_dimension" (new KBase ∅ []).2
    = (Ok (VInt 0), (new KBase ∅ []).2) ∧
    GeomdlBase.dimension self (new KBase ∅ []).2
    = (Raise (AttributeError "_dim"), (new KBase ∅ []).2).
Proof.
  apply (dimension_getter_reads_unset_attribute [] _ ∅ (VRef 0)).
  vm_compute. reflexivity.
Defined.

(** C8.  [reset] on a geometry object succeeds and leaves its [opt] store
    and its cache each a new, empty [GeomdlDict]; reading [id], [name],
    [type], the stored [_dimension] and the [dimension] property answers
    after the call what it answered before. *)
Theorem reset_clears_stores_only (h : heap) (self : loc)
    (attrs : gmap string val) (kwargs : gmap string val) :
  h !! self = Some (OInst KBase attrs) →
  ∃ (h' : heap) (opt cache : loc),
    GeomdlBase.reset self kwargs h = (Ok tt, h') ∧
    GeomdlBase.opt self h' = (Ok (VRef opt), h') ∧
    h' !! opt = Some (ODict GeomdlDict []) ∧
    getattr self "_cache" h' = (Ok (VRef cache), h') ∧
    h' !! cache = Some (ODict GeomdlDict []) ∧
    (GeomdlObject.id self h').1 = (GeomdlObject.id self h).1 ∧
    (GeomdlObject.name self h').1 = (GeomdlObject.name self h).1 ∧
    (getattr self "_dimension" h').1 = (getattr self "_dimension" h).1 ∧
    (GeomdlBase.dimension self h').1 = (GeomdlBase.dimension self h).1 ∧
    (GeomdlBase.type self h').1 = (GeomdlBase.type self h).1.
Proof.
  intros Hself.
  pose proof (lookup_lt_Some _ _ _ Hself) as Hlt.
  set (h1 := h ++ [ODict GeomdlDict []]).
  set (a1 := <["_opt_data" := VRef (length h)]> attrs).
  set (h2 := <[self := OInst KBase a1]> h1).
  set (h3 := h2 ++ [ODict GeomdlDict []]).
  set (a2 := <["_cache" := VRef (length h2)]> a1).
  set (h4 := <[self := OInst KBase a2]> h3).
  assert (Hlen1 : length h1 = S (length h)) by (subst h1; rewrite length_app; simpl; lia).
  assert (Hlen2 : length h2 = S (length h)) by (subst h2; rewrite length_insert; done).
  assert (Hlen3 : length h3 = S (S (length h))) by (subst h3; rewrite length_app; simpl; lia).
  assert (H1 : h1 !! self = Some (OInst KBase attrs)) by (by apply lookup_alloc_old).
  assert (H2 : h2 !! self = Some (OInst KBase a1)).
  { subst h2. apply list_lookup_insert_eq. lia. }
  assert (H3 : h3 !! self = Some (OInst KBase a1)) by (by apply lookup_alloc_old).
  assert (H4 : h4 !! self = Some (OInst KBase a2)).
  { subst h4. apply list_lookup_insert_eq. lia. }
  assert (Hrun : GeomdlBase.reset self kwargs h = (Ok tt, h4)).
  { unfold GeomdlBase.reset.
    rewrite (run_bind_Ok _ _ _ _ _ (run_GeomdlDict_new h)).
    rewrite (run_bind_Ok _ _ _ _ _ (run_setattr _ _ _ _ "_opt_data" _ H1 ltac:(slot))).
    rewrite (run_bind_Ok _ _ _ _ _ (run_GeomdlDict_new _)).
    apply (run_setattr _ _ _ _ "_cache" _ H3 ltac:(slot)). }
  exists h4, (length h), (length h2). split; [exact Hrun|].
  unfold GeomdlBase.opt, GeomdlObject.id, GeomdlObject.name,
    GeomdlBase.dimension, GeomdlBase.type.
  rewrite !(run_getattr _ _ _ _ _ H4), !(run_getattr _ _ _ _ _ Hself).
  subst a2 a1. simpl.
  split_and!; rewrite ?lookup_insert_ne by done;
    rewrite ?lookup_insert_eq; try done.
  - subst h4 h3 h2 h1. rewrite list_lookup_insert_ne by lia.
    rewrite lookup_app_l by (rewrite length_insert, length_app; simpl; lia).
    rewrite list_lookup_insert_ne by lia. apply lookup_alloc.
  - subst h4 h3. rewrite list_lookup_insert_ne by lia. apply lookup_alloc.
Qed.

Lemma reset_clears_stores_only_witness :
  ∃ (h' : heap) (opt cache : loc),
    GeomdlBase.reset 0 ∅ curve_heap = (Ok tt, h') ∧
    GeomdlBase.opt 0 h' = (Ok (VRef opt), h') ∧
    h' !! opt = Some (ODict GeomdlDict []) ∧
    getattr 0 "_cache" h' = (Ok (VRef cache), h') ∧
    h' !! cache = Some (ODict GeomdlDict []) ∧
    (GeomdlObject.id 0 h').1 = (GeomdlObject.id 0 curve_heap).1 ∧
    (GeomdlObject.name 0 h').1 = (GeomdlObject.name 0 curve_heap).1 ∧
    (getattr 0 "_dimension" h').1 = (getattr 0 "_dimension" curve_heap).1 ∧
    (GeomdlBase.dimension 0 h').1 = (GeomdlBase.dimension 0 curve_heap).1 ∧
    (GeomdlBase.type 0 h').1 = (GeomdlBase.type 0 curve_heap).1.
Proof.
  apply (reset_clears_stores_only curve_heap 0 curve_attrs ∅).
  reflexivity.
Defined.

(** ** The [opt] store *)

Section capability_checks.
Variable reg : registry.

(** C4.  On a geometry object the [opt] setter checks in this order and
    raises a [GeomdlError] at the first check that fails, leaving the
    heap as it was: an input that is not sequence-like; else a length
    other than 2; else a first element that is not string-like.  When the
    three checks pass, the value is not [None] and the key is hashable,
    the pair is stored: the key then maps to the value, whatever it
    mapped to before, and the other keys are as they were. *)
Theorem opt_setter_validates_in_order
    (h : heap) (self : loc) (attrs : gmap string val) (d : loc)
    (c : dict_type) (items : list (val * val)) (key_value : val) :
  h !! self = Some (OInst KBase attrs) →
  attrs !! "_opt_data" = Some (VRef d) →
  h !! d = Some (ODict c items) →
  (eval (isinstance key_value (GeomdlTypeSequence reg)) h = Ok false →
   GeomdlBase.opt_setter reg self key_value h
   = (Raise (GeomdlError.__init__
               "opt input must be a GeomdlTypeSequence" VNone), h)) ∧
  (∀ n : Z,
     eval (isinstance key_value (GeomdlTypeSequence reg)) h = Ok true →
     eval (len key_value) h = Ok n →
     n ≠ 2%Z →
     GeomdlBase.opt_setter reg self key_value h
     = (Raise (GeomdlError.__init__
                 "opt input must have a size of 2, corresponding to [0:key] => [1:value]"
                 VNone), h)) ∧
  (∀ k : val,
     eval (isinstance key_value (GeomdlTypeSequence reg)) h = Ok true →
     eval (len key_value) h = Ok 2%Z →
     eval (getitem key_value 0) h = Ok k →
     eval (isinstance k (GeomdlTypeString reg)) h = Ok false →
     GeomdlBase.opt_setter reg self key_value h
     = (Raise (GeomdlError.__init__ "key must be GeomdlTypeString" VNone),
        h)) ∧
  (∀ k v : val,
     eval (isinstance key_value (GeomdlTypeSequence reg)) h = Ok true →
     eval (len key_value) h = Ok 2%Z →
     eval (getitem key_value 0) h = Ok k →
     eval (isinstance k (GeomdlTypeString reg)) h = Ok true →
     eval (getitem key_value 1) h = Ok v →
     v ≠ VNone →
     eval (hash_check k) h = Ok tt →
     GeomdlBase.opt_setter reg self key_value h
     = (Ok tt, <[d := ODict c (dict_set items k v)]> h) ∧
     dict_get (dict_set items k v) k = Some v ∧
     (∀ k', k' ≠ k →
            dict_get (dict_set items k v) k' = dict_get items k')).
Proof.
  intros Hself Hopt Hd. unfold GeomdlBase.opt_setter. split_and!.
  - intros Hseq.
    rewrite (run_bind_Ok _ _ _ _ _
               (run_reads _ _ _ (reads_isinstance _ _) Hseq)).
    reflexivity.
  - intros n Hseq Hlen Hn.
    rewrite (run_bind_Ok _ _ _ _ _
               (run_reads _ _ _ (reads_isinstance _ _) Hseq)). simpl.
    rewrite (run_bind_Ok _ _ _ _ _ (run_reads _ _ _ (reads_len _) Hlen)).
    by rewrite bool_decide_true.
  - intros k Hseq Hlen Hk Hstr.
    rewrite (run_bind_Ok _ _ _ _ _
               (run_reads _ _ _ (reads_isinstance _ _) Hseq)). simpl.
    rewrite (run_bind_Ok _ _ _ _ _ (run_reads _ _ _ (reads_len _) Hlen)).
    rewrite bool_decide_false by (intros Hn; by apply Hn).
    rewrite (run_bind_Ok _ _ _ _ _ (run_reads _ _ _ (reads_getitem _ _) Hk)).
    rewrite (run_bind_Ok _ _ _ _ _
               (run_reads _ _ _ (reads_isinstance _ _) Hstr)).
    reflexivity.
  - intros k v Hseq Hlen Hk Hstr Hv Hnone Hhash. split_and!.
    + rewrite (run_bind_Ok _ _ _ _ _
                 (run_reads _ _ _ (reads_isinstance _ _) Hseq)). simpl.
      rewrite (run_bind_Ok _ _ _ _ _ (run_reads _ _ _ (reads_len _) Hlen)).
      rewrite bool_decide_false by (intros Hn; by apply Hn).
      rewrite (run_bind_Ok _ _ _ _ _ (run_reads _ _ _ (reads_getitem _ _) Hk)).
      rewrite (run_bind_Ok _ _ _ _ _
                 (run_reads _ _ _ (reads_isinstance _ _) Hstr)). simpl.
      rewrite (run_bind_Ok _ _ _ _ _ (run_reads _ _ _ (reads_getitem _ _) Hv)).
      rewrite bool_decide_false by done.
      rewrite (run_bind_Ok _ _ _ _ _ (run_reads _ _ _ (reads_getitem _ _) Hv)).
      rewrite run_bind, (run_getattr _ _ _ _ "_opt_data" Hself), Hopt.
      rewrite (run_bind_Ok _ _ _ _ _ (run_reads _ _ _ (reads_getitem _ _) Hk)).
      by apply run_dict_setitem.
    + apply dict_get_set_eq.
    + intros k' Hne. by apply dict_get_set_ne.
Qed.

(** C7.  On a geometry object whose store has no entry for a key [k] that
    is string-like and hashable, setting [opt] to the list [[k, None]]
    raises nothing and leaves the whole heap, the store with it, as it
    was; [get_opt(k)] raises nothing either and returns [None]. *)
Theorem absent_key_is_no_error
    (h : heap) (self : loc) (attrs : gmap string val) (d : loc)
    (c : dict_type) (items : list (val * val)) (pair : loc) (k : val) :
  h !! self = Some (OInst KBase attrs) →
  attrs !! "_opt_data" = Some (VRef d) →
  h !! d = Some (ODict c items) →
  h !! pair = Some (OList [k; VNone]) →
  eval (isinstance (VRef pair) (GeomdlTypeSequence reg)) h = Ok true →
  eval (isinstance k (GeomdlTypeString reg)) h = Ok true →
  eval (hash_check k) h = Ok tt →
  dict_get items k = None →
  GeomdlBase.opt_setter reg self (VRef pair) h = (Ok tt, h) ∧
  GeomdlBase.get_opt self k h = (Ok VNone, h).
Proof.
  intros Hself Hopt Hd Hpair Hseq Hstr Hhash Habsent. split.
  - unfold GeomdlBase.opt_setter.
    rewrite (run_bind_Ok _ _ _ _ _
               (run_reads _ _ _ (reads_isinstance _ _) Hseq)). simpl.
    rewrite (run_bind_Ok _ _ _ _ _ (run_len_list _ _ _ Hpair)). simpl.
    rewrite (run_bind_Ok _ _ _ _ _
               (run_getitem_list _ _ _ 0 k Hpair eq_refl)).
    rewrite (run_bind_Ok _ _ _ _ _
               (run_reads _ _ _ (reads_isinstance _ _) Hstr)). simpl.
    rewrite (run_bind_Ok _ _ _ _ _
               (run_getitem_list _ _ _ 1 VNone Hpair eq_refl)). simpl.
    rewrite run_bind, (run_getattr _ _ _ _ "_opt_data" Hself), Hopt.
    rewrite (run_bind_Ok _ _ _ _ _ (run_star_args_list _ _ _ Hpair)).
    unfold GeomdlBase.pop_star, dict_pop.
    rewrite run_bind, run_bind, (run_as_dict _ _ _ _ Hd).
    rewrite (run_bind_Ok _ _ _ _ _
               (run_reads _ _ _ (reads_hash_check k) Hhash)).
    rewrite Habsent. reflexivity.
  - unfold GeomdlBase.get_opt, except_KeyError.
    rewrite run_bind, (run_getattr _ _ _ _ "_opt_data" Hself), Hopt.
    unfold dict_getitem.
    rewrite run_bind, (run_as_dict _ _ _ _ Hd).
    rewrite (run_bind_Ok _ _ _ _ _
               (run_reads _ _ _ (reads_hash_check k) Hhash)).
    rewrite Habsent. reflexivity.
Qed.

End capability_checks.

Lemma opt_setter_validates_in_order_witness :
  GeomdlBase.opt_setter (Registry [TList] [TStr]) 0 (VRef 6) curve_heap
  = (Ok tt,
     <[2 := ODict GeomdlDict
              (dict_set [(VStr "k", VRef 5)] (VStr "k") (VRef 5))]>
       curve_heap).
Proof.
  destruct (opt_setter_validates_in_order (Registry [TList] [TStr])
              curve_heap 0 curve_attrs 2 GeomdlDict [(VStr "k", VRef 5)]
              (VRef 6))
    as (_ & _ & _ & Hstore);
    [ reflexivity | by vm_compute | reflexivity | ].
  apply (Hstore (VStr "k") (VRef 5)); by vm_compute.
Defined.

Lemma absent_key_is_no_error_witness :
  GeomdlBase.opt_setter (Registry [TList] [TStr]) 0 (VRef 7) curve_heap
  = (Ok tt, curve_heap) ∧
  GeomdlBase.get_opt 0 (VStr "absent") curve_heap = (Ok VNone, curve_heap).
Proof.
  apply (absent_key_is_no_error (Registry [TList] [TStr]) curve_heap 0
           curve_attrs 2 GeomdlDict [(VStr "k", VRef 5)] 7 (VStr "absent"));
    by vm_compute.
Defined.

(** C5.  With the registrations the package makes for the built-in types,
    a built-in list whose first element is a built-in string passes both
    capability checks of the [opt] setter on every geometry object, and
    the setter returns without raising - nothing else has to be
    registered. *)
Theorem builtin_pair_passes_capability_checks
    (h : heap) (self : loc) (attrs : gmap string val) (d : loc)
    (c : dict_type) (items : list (val * val)) (pair : loc)
    (s : string) (v : val) :
  h !! self = Some (OInst KBase attrs) →
  attrs !! "_opt_data" = Some (VRef d) →
  h !! d = Some (ODict c items) →
  h !! pair = Some (OList [VStr s; v]) →
  eval (isinstance (VRef pair) (GeomdlTypeSequence default_registry)) h
  = Ok true ∧
  eval (isinstance (VStr s) (GeomdlTypeString default_registry)) h
  = Ok true ∧
  ∃ h', GeomdlBase.opt_setter default_registry self (VRef pair) h
        = (Ok tt, h').
Proof.
  intros Hself Hopt Hd Hpair.
  assert (Hseq : isinstance (VRef pair) (GeomdlTypeSequence default_registry) h
                 = (Ok true, h)).
  { eapply run_isinstance_list; [done|]. repeat constructor. }
  split_and!.
  - unfold eval. by rewrite Hseq.
  - reflexivity.
  - unfold GeomdlBase.opt_setter.
    rewrite (run_bind_Ok _ _ _ _ _ Hseq). simpl.
    rewrite (run_bind_Ok _ _ _ _ _ (run_len_list _ _ _ Hpair)). simpl.
    rewrite (run_bind_Ok _ _ _ _ _
               (run_getitem_list _ _ _ 0 _ Hpair eq_refl)).
    erewrite run_bind_Ok by reflexivity. simpl.
    rewrite (run_bind_Ok _ _ _ _ _
               (run_getitem_list _ _ _ 1 _ Hpair eq_refl)).
    case_bool_decide as Hv.
    + subst v.
      rewrite run_bind, (run_getattr _ _ _ _ "_opt_data" Hself), Hopt.
      rewrite (run_bind_Ok _ _ _ _ _ (run_star_args_list _ _ _ Hpair)).
      unfold GeomdlBase.pop_star, dict_pop.
      rewrite run_bind, run_bind, (run_as_dict _ _ _ _ Hd).
      erewrite run_bind_Ok by reflexivity.
      destruct (dict_get items (VStr s)); simpl; eauto.
    + rewrite (run_bind_Ok _ _ _ _ _
                 (run_getitem_list _ _ _ 1 _ Hpair eq_refl)).
      rewrite run_bind, (run_getattr _ _ _ _ "_opt_data" Hself), Hopt.
      rewrite (run_bind_Ok _ _ _ _ _
                 (run_getitem_list _ _ _ 0 _ Hpair eq_refl)).
      erewrite run_dict_setitem by (first [ done | reflexivity ]).
      eauto.
Qed.

Lemma builtin_pair_passes_capability_checks_witness :
  eval (isinstance (VRef 6) (GeomdlTypeSequence default_registry)) curve_heap
  = Ok true ∧
  eval (isinstance (VStr "k") (GeomdlTypeString default_registry)) curve_heap
  = Ok true ∧
  ∃ h', GeomdlBase.opt_setter default_registry 0 (VRef 6) curve_heap
        = (Ok tt, h').
Proof.
  apply (builtin_pair_passes_capability_checks curve_heap 0 curve_attrs 2
           GeomdlDict [(VStr "k", VRef 5)] 6 "k" (VRef 5));
    by vm_compute.
Defined.

(** The example of the specification, with [list] and [str] registered:
    [opt = ["k", 1]], then [opt = ["k", 2]], then [get_opt("k")] returns
    2. *)
Example opt_set_twice_get :
  eval (g ← new KBase ∅;
        self ← id_of g;
        p1 ← alloc (OList [VStr "k"; VInt 1]);
        GeomdlBase.opt_setter (Registry [TList] [TStr]) self (VRef p1);;
        p2 ← alloc (OList [VStr "k"; VInt 2]);
        GeomdlBase.opt_setter (Registry [TList] [TStr]) self (VRef p2);;
        GeomdlBase.get_opt self (VStr "k")) []
  = Ok (VInt 2).
Proof. vm_compute. reflexivity. Qed.

(** ** The evaluator *)

(** C6 (construction of an evaluator; the code departs from the claim).
    Constructing a concrete evaluator, with a span-finding function or
    with none, never returns: [__init__] reads [self.cfg], an attribute
    no class defines, and raises [AttributeError]; nothing is stored under
    [func_find_span]. *)
Theorem evaluator_construction_raises (name : string) (func : val) (h : heap) :
  eval (new (KEvaluator name) {["config_find_span" := func]}) h
  = Raise (AttributeError "cfg") ∧
  eval (new (KEvaluator name) ∅) h = Raise (AttributeError "cfg").
Proof.
  split; eapply new_KEvaluator_Ok_id.
  - rewrite lookup_singleton_ne by done. reflexivity.
  - rewrite lookup_empty. reflexivity.
Qed.

(** ** Assigning [id] *)




(** * Further properties *)

Lemma heap_at (h : heap) (self : loc) (o : obj) :
  h !! self = Some o → h = <[self := o]> h.
Proof. intros E. symmetry. by apply list_insert_id. Qed.

(** ** Signals *)

Lemma append_inj_l (p a b : string) :
  String.append p a = String.append p b → a = b.
Proof. induction p as [|c p IH]; simpl; [done|]. intros [= H]. auto. Qed.

(** X1.  The library's two signals keep what they are given: the stored
    message is the prefix of the class followed by the caller's message,
    so two errors (or two warnings) that are equal were raised with the
    same message and the same data, and the message of an error is never
    the message of a warning. *)
Theorem signal_messages_keep_kind_and_text
    (msg msg' : string) (data data' : val) :
  (GeomdlError.__init__ msg data = GeomdlError.__init__ msg' data' →
   msg = msg' ∧ data = data') ∧
  (GeomdlWarning.__init__ msg data = GeomdlWarning.__init__ msg' data' →
   msg = msg' ∧ data = data') ∧
  (∀ m d m' d',
     GeomdlError.__init__ msg data = EGeomdlError m d →
     GeomdlWarning.__init__ msg' data' = WGeomdlWarning m' d' →
     m ≠ m').
Proof.
  split_and!.
  - intros [= H ->]. by apply append_inj_l in H.
  - intros [= H ->]. by apply append_inj_l in H.
  - intros m d m' d' [= <- <-] [= <- <-]. discriminate.
Qed.

(** ** [export] *)

Lemma exports_append (fns : list decorated) (m : string) (all : list string)
    (sys_modules : modules_t) :
  sys_modules !! m = Some (Some all) →
  Forall (λ fn, fn_module fn = m) fns →
  exports fns sys_modules
  = (Ok tt, <[m := Some (all ++ (fn_name <$> fns))]> sys_modules).
Proof.
  revert all sys_modules.
  induction fns as [|fn fns IH]; intros all sm Hm Hall; simpl.
  - rewrite app_nil_r. f_equal. symmetry. by apply insert_id.
  - apply Forall_cons in Hall as [Hfn Hall].
    unfold export. rewrite Hfn, Hm.
    rewrite (IH (all ++ [fn_name fn])); [ | apply lookup_insert_eq | done ].
    by rewrite insert_insert_eq, <- app_assoc.
Qed.

(** X2.  Decorating the definitions of one module with [export], one
    after the other: when the module is not loaded the first decoration
    raises [KeyError] and nothing changes; otherwise all succeed and the
    [__all__] of the module, created if the module had none, ends with
    the decorated names in the order of the decorations, what it held
    before staying in front; no other module is touched. *)
Theorem exports_accumulate_in_order
    (fns : list decorated) (m : string) (sys_modules : modules_t) :
  fns ≠ [] →
  Forall (λ fn, fn_module fn = m) fns →
  exports fns sys_modules
  = match sys_modules !! m with
    | None => (Raise (KeyError (VStr m)), sys_modules)
    | Some all =>
        (Ok tt,
         <[m := Some (default [] all ++ (fn_name <$> fns))]> sys_modules)
    end.
Proof.
  intros Hne Hall. destruct fns as [|fn fns]; [done|].
  apply Forall_cons in Hall as [Hfn Hall].
  cbn [exports]. unfold export. rewrite Hfn.
  destruct (sys_modules !! m) as [[all|]|] eqn:Hm; [ | | done ].
  - rewrite (exports_append fns m (all ++ [fn_name fn]));
      [ | apply lookup_insert_eq | done ].
    by rewrite insert_insert_eq, <- app_assoc.
  - rewrite (exports_append fns m [fn_name fn]);
      [ | apply lookup_insert_eq | done ].
    by rewrite insert_insert_eq.
Qed.

Lemma exports_accumulate_in_order_witness :
  exports [Decorated "geomdl.base" "GeomdlError";
           Decorated "geomdl.base" "GeomdlWarning"]
    {["geomdl.base" := Some []]}
  = (Ok tt,
     {["geomdl.base" := Some ["GeomdlError"; "GeomdlWarning"]]}).
Proof.
  rewrite (exports_accumulate_in_order _ "geomdl.base").
  - by vm_compute.
  - done.
  - repeat constructor.
Defined.

(** ** [id] and [name] *)

(** X3.  Assigning [id] and reading it back: when [int(value)] is the
    integer [n], the setter succeeds, writes [_id] and nothing else, and
    the getter then returns [n], on an instance of any of the classes. *)
Theorem id_set_then_get
    (h : heap) (self : loc) (k : klass) (attrs : gmap string val)
    (value : val) (n : Z) :
  h !! self = Some (OInst k attrs) →
  int_of value = Ok n →
  ∃ h',
    GeomdlObject.id_setter self value h = (Ok tt, h') ∧
    GeomdlObject.id self h' = (Ok (VInt n), h') ∧
    h' = <[self := OInst k (<["_id" := VInt n]> attrs)]> h.
Proof.
  intros Hself Hint. eexists. split_and!; [ | | reflexivity ].
  - unfold GeomdlObject.id_setter. rewrite run_bind. unfold int.
    rewrite Hint.
    apply run_setattr; [ done | slot ].
  - unfold GeomdlObject.id.
    erewrite run_getattr
      by (apply list_lookup_insert_eq; by eapply lookup_lt_Some).
    by rewrite lookup_insert_eq.
Qed.

Lemma id_set_then_get_witness :
  ∃ h',
    GeomdlObject.id_setter 0 (VStr "12") plain_heap = (Ok tt, h') ∧
    GeomdlObject.id 0 h' = (Ok (VInt 12), h') ∧
    h' = <[0 := OInst KObject (<["_id" := VInt 12]> plain_attrs)]> plain_heap.
Proof.
  apply (id_set_then_get plain_heap 0 KObject plain_attrs (VStr "12") 12);
    by vm_compute.
Defined.

(** X4.  The deleters do not remove the attribute, they put the default
    back: after [del obj.id] the id reads 0, after [del obj.name] the
    name and [str(obj)] read the empty string (not the class name the
    constructor defaults to); each writes its own slot and nothing
    else. *)
Theorem id_and_name_deleters_reset
    (h : heap) (self : loc) (k : klass) (attrs : gmap string val) :
  h !! self = Some (OInst k attrs) →
  (∃ h', GeomdlObject.id_deleter self h = (Ok tt, h') ∧
         GeomdlObject.id self h' = (Ok (VInt 0), h') ∧
         h' = <[self := OInst k (<["_id" := VInt 0]> attrs)]> h) ∧
  (∃ h', GeomdlObject.name_deleter self h = (Ok tt, h') ∧
         GeomdlObject.name self h' = (Ok (VStr ""), h') ∧
         GeomdlObject.__str__ self h' = (Ok (VStr ""), h') ∧
         h' = <[self := OInst k (<["_name" := VStr ""]> attrs)]> h).
Proof.
  intros Hself. pose proof (lookup_lt_Some _ _ _ Hself) as Hlt.
  split; eexists; split_and!; try reflexivity.
  - apply run_setattr; [ done | slot ].
  - unfold GeomdlObject.id.
    erewrite run_getattr by (by apply list_lookup_insert_eq).
    by rewrite lookup_insert_eq.
  - apply run_setattr; [ done | slot ].
  - unfold GeomdlObject.name.
    erewrite run_getattr by (by apply list_lookup_insert_eq).
    by rewrite lookup_insert_eq.
  - unfold GeomdlObject.__str__, GeomdlObject.name.
    erewrite run_getattr by (by apply list_lookup_insert_eq).
    by rewrite lookup_insert_eq.
Qed.

Lemma id_and_name_deleters_reset_witness :
  (∃ h', GeomdlObject.id_deleter 0 curve_heap = (Ok tt, h') ∧
         GeomdlObject.id 0 h' = (Ok (VInt 0), h') ∧
         h' = <[0 := OInst KBase (<["_id" := VInt 0]> curve_attrs)]>
                curve_heap) ∧
  (∃ h', GeomdlObject.name_deleter 0 curve_heap = (Ok tt, h') ∧
         GeomdlObject.name 0 h' = (Ok (VStr ""), h') ∧
         GeomdlObject.__str__ 0 h' = (Ok (VStr ""), h') ∧
         h' = <[0 := OInst KBase (<["_name" := VStr ""]> curve_attrs)]>
                curve_heap).
Proof.
  apply (id_and_name_deleters_reset curve_heap 0 KBase curve_attrs).
  reflexivity.
Defined.

(** X5.  Assigning [name] and reading it back, for any [str] that turns
    the value into the string [s] without touching the heap: the setter
    writes [_name] and nothing else, and both the [name] getter and
    [str(obj)] then return [s]. *)
Theorem name_set_then_get
    (str_ : val → M string) (h : heap) (self : loc) (k : klass)
    (attrs : gmap string val) (value : val) (s : string) :
  h !! self = Some (OInst k attrs) →
  str_ value h = (Ok s, h) →
  ∃ h',
    GeomdlObject.name_setter str_ self value h = (Ok tt, h') ∧
    GeomdlObject.name self h' = (Ok (VStr s), h') ∧
    GeomdlObject.__str__ self h' = (Ok (VStr s), h') ∧
    h' = <[self := OInst k (<["_name" := VStr s]> attrs)]> h.
Proof.
  intros Hself Hstr. pose proof (lookup_lt_Some _ _ _ Hself) as Hlt.
  eexists. split_and!; [ | | | reflexivity ].
  - unfold GeomdlObject.name_setter.
    rewrite (run_bind_Ok _ _ _ _ _ Hstr).
    apply run_setattr; [ done | slot ].
  - unfold GeomdlObject.name.
    erewrite run_getattr by (by apply list_lookup_insert_eq).
    by rewrite lookup_insert_eq.
  - unfold GeomdlObject.__str__, GeomdlObject.name.
    erewrite run_getattr by (by apply list_lookup_insert_eq).
    by rewrite lookup_insert_eq.
Qed.

Lemma name_set_then_get_witness :
  ∃ h',
    GeomdlObject.name_setter (λ v, match v with VStr s => ret s | _ => stuck end)
      0 (VStr "arc") curve_heap = (Ok tt, h') ∧
    GeomdlObject.name 0 h' = (Ok (VStr "arc"), h') ∧
    GeomdlObject.__str__ 0 h' = (Ok (VStr "arc"), h') ∧
    h' = <[0 := OInst KBase (<["_name" := VStr "arc"]> curve_attrs)]>
           curve_heap.
Proof.
  apply (name_set_then_get _ curve_heap 0 KBase curve_attrs (VStr "arc") "arc");
    reflexivity.
Defined.

(** ** Construction *)

(** X6.  [GeomdlObject( ** kwargs)], when [int] accepts the [id] keyword
    (0 when absent): two cells are allocated and no existing cell is
    touched; the new instance has exactly [_name] (the [name] keyword,
    else the class name), [_id] (the integer) and [_cfg], a fresh empty
    [GeomdlDict]. *)
Theorem GeomdlObject_construction
    (h : heap) (kwargs : gmap string val) (n : Z) :
  int_of (default (VInt 0) (kwargs !! "id")) = Ok n →
  new KObject kwargs h =
  (Ok (VRef (length h)),
   h ++ [OInst KObject
           (<["_cfg" := VRef (S (length h))]>
            (<["_id" := VInt n]>
             (<["_name" := default (VStr "GeomdlObject") (kwargs !! "name")]>
              ∅)));
         ODict GeomdlDict []]).
Proof.
  intros Hint. unfold new.
  rewrite (run_bind_Ok _ _ _ _ _ (run_alloc_inst h KObject)).
  assert (Hlt : length h < length (h ++ [OInst KObject ∅]))
    by (rewrite length_alloc; lia).
  rewrite (run_bind_Ok _ _ _ _ _
             (GeomdlObject_init_Ok _ _ _ _ _ _ Hlt Hint)).
  rewrite <- app_assoc. simpl. rewrite heap_new_inst.
  rewrite length_alloc. reflexivity.
Qed.

Lemma GeomdlObject_construction_witness :
  new KObject {["id" := VStr "7"]} plain_heap =
  (Ok (VRef (length plain_heap)),
   plain_heap ++
   [OInst KObject
      (<["_cfg" := VRef (S (length plain_heap))]>
       (<["_id" := VInt 7]>
        (<["_name" := default (VStr "GeomdlObject")
                        (({["id" := VStr "7"]} : gmap string val) !! "name")]>
         ∅)));
    ODict GeomdlDict []]).
Proof.
  apply (GeomdlObject_construction plain_heap {["id" := VStr "7"]} 7).
  by vm_compute.
Defined.

(** X7.  Construction of any of the three classes, when [int] refuses the
    [id] keyword: the error of [int] is what the constructor raises; by
    then the instance has been allocated and its [_name] set, and that is
    all that has happened: no [_id], no configuration dict, no store. *)
Theorem construction_passes_on_int_error
    (k : klass) (h : heap) (kwargs : gmap string val) (e : exn) :
  int_of (default (VInt 0) (kwargs !! "id")) = Raise e →
  new k kwargs h =
  (Raise e,
   h ++ [OInst k (<["_name" := default (VStr (__name__ k)) (kwargs !! "name")]>
                    ∅)]).
Proof.
  intros Hint. unfold new.
  rewrite (run_bind_Ok _ _ _ _ _ (run_alloc_inst h k)).
  assert (Hlt : length h < length (h ++ [OInst k ∅]))
    by (rewrite length_alloc; lia).
  pose proof (GeomdlObject_init_Raise _ _ k ∅ kwargs e Hlt Hint) as Hinit.
  rewrite run_bind.
  destruct k; unfold GeomdlBase.__init__, GeomdlEvaluator.__init__;
    rewrite ?(run_bind_Raise _ _ _ _ _ Hinit); rewrite ?Hinit;
    by rewrite heap_new_inst.
Qed.

Lemma construction_passes_on_int_error_witness :
  new KBase {["id" := VStr "seven"]} curve_heap =
  (Raise (ValueError "invalid literal for int() with base 10"),
   curve_heap ++
   [OInst KBase
      (<["_name" := default (VStr (__name__ KBase))
                      (({["id" := VStr "seven"]} : gmap string val) !! "name")]>
       ∅)]).
Proof.
  apply (construction_passes_on_int_error KBase curve_heap {["id" := VStr "seven"]}).
  by vm_compute.
Defined.

(** X8.  [GeomdlBase( ** kwargs)], when [int] accepts the [id] keyword: no
    existing cell is touched; on the new object [id] is the integer,
    [name] the keyword or the class name, [type] the empty string and
    [_dimension] 0; the [opt] store, the configuration and the cache are
    three different new cells, each an empty [GeomdlDict]. *)
Theorem GeomdlBase_construction
    (h : heap) (kwargs : gmap string val) (n : Z) :
  int_of (default (VInt 0) (kwargs !! "id")) = Ok n →
  ∃ (h' : heap) (opt cfg cache : loc),
    new KBase kwargs h = (Ok (VRef (length h)), h') ∧
    h `prefix_of` h' ∧
    eval (GeomdlObject.id (length h)) h' = Ok (VInt n) ∧
    eval (GeomdlObject.name (length h)) h'
    = Ok (default (VStr "GeomdlBase") (kwargs !! "name")) ∧
    eval (GeomdlBase.type (length h)) h' = Ok (VStr "") ∧
    eval (getattr (length h) "_dimension") h' = Ok (VInt 0) ∧
    eval (GeomdlBase.opt (length h)) h' = Ok (VRef opt) ∧
    eval (getattr (length h) "_cfg") h' = Ok (VRef cfg) ∧
    eval (getattr (length h) "_cache") h' = Ok (VRef cache) ∧
    h' !! opt = Some (ODict GeomdlDict []) ∧
    h' !! cfg = Some (ODict GeomdlDict []) ∧
    h' !! cache = Some (ODict GeomdlDict []) ∧
    length h < opt ∧ opt < cfg ∧ cfg < cache.
Proof.
  intros Hint.
  eexists _, (length h + 2), (length h + 3), (length h + 4).
  split; [ by apply new_KBase_Ok | ].
  split; [ by apply prefix_app_r | ].
  unfold eval, GeomdlObject.id, GeomdlObject.name, GeomdlBase.type,
    GeomdlBase.opt.
  rewrite !(run_getattr _ _ _ _ _ (lookup_alloc_mid _ _ _)).
  unfold new_base_attrs. simpl.
  split_and!;
    try (rewrite ?lookup_insert_ne by done; by rewrite lookup_insert_eq);
    try lia.
  - rewrite lookup_app_r by lia.
    by replace (length h + 2 - length h) with 2 by lia.
  - rewrite lookup_app_r by lia.
    by replace (length h + 3 - length h) with 3 by lia.
  - rewrite lookup_app_r by lia.
    by replace (length h + 4 - length h) with 4 by lia.
Qed.

Lemma GeomdlBase_construction_witness :
  ∃ (h' : heap) (opt cfg cache : loc),
    new KBase {["id" := VStr "7"]} plain_heap
    = (Ok (VRef (length plain_heap)), h') ∧
    plain_heap `prefix_of` h' ∧
    eval (GeomdlObject.id (length plain_heap)) h' = Ok (VInt 7) ∧
    eval (GeomdlObject.name (length plain_heap)) h'
    = Ok (default (VStr "GeomdlBase")
            (({["id" := VStr "7"]} : gmap string val) !! "name")) ∧
    eval (GeomdlBase.type (length plain_heap)) h' = Ok (VStr "") ∧
    eval (getattr (length plain_heap) "_dimension") h' = Ok (VInt 0) ∧
    eval (GeomdlBase.opt (length plain_heap)) h' = Ok (VRef opt) ∧
    eval (getattr (length plain_heap) "_cfg") h' = Ok (VRef cfg) ∧
    eval (getattr (length plain_heap) "_cache") h' = Ok (VRef cache) ∧
    h' !! opt = Some (ODict GeomdlDict []) ∧
    h' !! cfg = Some (ODict GeomdlDict []) ∧
    h' !! cache = Some (ODict GeomdlDict []) ∧
    length plain_heap < opt ∧ opt < cfg ∧ cfg < cache.
Proof.
  apply (GeomdlBase_construction plain_heap {["id" := VStr "7"]} 7).
  by vm_compute.
Defined.

(** ** The [opt] store, continued *)

Lemma dict_set_fresh (items : list (val * val)) (k v : val) :
  k ∉ items.*1 → dict_set items k v = items ++ [(k, v)].
Proof.
  induction items as [|[k' v'] rest IH]; simpl; [done|].
  intros Hk. apply not_elem_of_cons in Hk as [Hne Hk].
  rewrite decide_False by done. by rewrite IH.
Qed.

Lemma dict_get_None (items : list (val * val)) (k : val) :
  dict_get items k = None ↔ k ∉ items.*1.
Proof.
  induction items as [|[k' v'] rest IH]; simpl.
  - split; [ intros _; apply not_elem_of_nil | done ].
  - rewrite not_elem_of_cons. destruct (decide (k' = k)) as [->|Hne].
    + split; [ done | by intros [? _] ].
    + rewrite IH. split; [ by split | by intros [_ ?] ].
Qed.

Lemma dict_set_keys_in (items : list (val * val)) (k v : val) :
  k ∈ items.*1 → (dict_set items k v).*1 = items.*1.
Proof.
  induction items as [|[k' v'] rest IH]; intros Hin.
  - by apply elem_of_nil in Hin.
  - rewrite fmap_cons in Hin. cbn [dict_set].
    destruct (decide (k' = k)) as [->|Hne]; rewrite !fmap_cons; [done|].
    f_equal. apply IH.
    apply elem_of_cons in Hin as [Heq|Hin]; [ | done ].
    simpl in Heq. by subst.
Qed.

Lemma dict_set_NoDup (items : list (val * val)) (k v : val) :
  NoDup items.*1 → NoDup (dict_set items k v).*1.
Proof.
  intros Hnd. destruct (decide (k ∈ items.*1)) as [Hin|Hnin].
  - by rewrite dict_set_keys_in.
  - rewrite dict_set_fresh, fmap_app by done. simpl.
    apply NoDup_app. split_and!; [ done | | apply NoDup_singleton ].
    intros x Hx ->%list_elem_of_singleton. done.
Qed.

Lemma dict_del_sublist (items : list (val * val)) (k : val) :
  dict_del items k `sublist_of` items.
Proof.
  induction items as [|[k' v'] rest IH]; simpl; [done|].
  case_decide; [ by apply sublist_cons | by apply sublist_skip ].
Qed.

Lemma dict_del_NoDup (items : list (val * val)) (k : val) :
  NoDup items.*1 → NoDup (dict_del items k).*1.
Proof.
  intros Hnd. eapply sublist_NoDup; [ exact Hnd | ].
  apply fmap_sublist, dict_del_sublist.
Qed.

Lemma dict_get_del_eq (items : list (val * val)) (k : val) :
  NoDup items.*1 → dict_get (dict_del items k) k = None.
Proof.
  induction items as [|[k' v'] rest IH]; simpl; [done|].
  intros [Hk Hnd]%NoDup_cons. destruct (decide (k' = k)) as [->|Hne].
  - by apply dict_get_None.
  - simpl. rewrite decide_False by done. auto.
Qed.

Lemma dict_get_del_ne (items : list (val * val)) (k k' : val) :
  k' ≠ k → dict_get (dict_del items k) k' = dict_get items k'.
Proof.
  intros Hne. induction items as [|[k0 v0] rest IH]; simpl; [done|].
  destruct (decide (k0 = k)) as [->|Hne0]; simpl.
  - by rewrite decide_False.
  - by rewrite IH.
Qed.

Lemma reads_except_KeyError {A} (m handler : M A) :
  reads m → reads handler → reads (except_KeyError m handler).
Proof.
  intros Hm Hh h. unfold except_KeyError. specialize (Hm h).
  destruct (m h) as [[a|[]| |] h1]; simpl in *; subst; done.
Qed.

Lemma reads_dict_getitem (d k : val) : reads (dict_getitem d k).
Proof.
  unfold dict_getitem. apply reads_bind; [ apply reads_as_dict | ].
  intros [[l c] items]. apply reads_bind; [ apply reads_hash_check | ].
  intros _. destruct (dict_get items k); [ apply reads_ret | apply reads_raise ].
Qed.

Lemma reads_get_opt (self : loc) (value : val) :
  reads (GeomdlBase.get_opt self value).
Proof.
  apply reads_except_KeyError; [ | apply reads_ret ].
  apply reads_bind; [ apply reads_getattr | ].
  intros d. apply reads_dict_getitem.
Qed.

Lemma run_get_opt (h : heap) (self : loc) (attrs : gmap string val)
    (d : loc) (c : dict_type) (items : list (val * val)) (k : val) :
  h !! self = Some (OInst KBase attrs) →
  attrs !! "_opt_data" = Some (VRef d) →
  h !! d = Some (ODict c items) →
  eval (hash_check k) h = Ok tt →
  GeomdlBase.get_opt self k h = (Ok (default VNone (dict_get items k)), h).
Proof.
  intros Hself Hopt Hd Hhash.
  unfold GeomdlBase.get_opt, except_KeyError.
  rewrite run_bind, (run_getattr _ _ _ _ "_opt_data" Hself), Hopt.
  unfold dict_getitem.
  rewrite run_bind, (run_as_dict _ _ _ _ Hd).
  rewrite (run_bind_Ok _ _ _ _ _
             (run_reads _ _ _ (reads_hash_check k) Hhash)).
  by destruct (dict_get items k).
Qed.

(** Writing a dict over a dict changes no hash. *)
Lemma hash_check_store_dict (h : heap) (d : loc) (c c' : dict_type)
    (items items' : list (val * val)) (k : val) :
  h !! d = Some (ODict c items) →
  eval (hash_check k) (<[d := ODict c' items']> h) = eval (hash_check k) h.
Proof.
  intros Hd. destruct k as [| | | |l]; try reflexivity.
  unfold eval, hash_check. rewrite !run_bind. unfold deref.
  destruct (decide (l = d)) as [->|Hne].
  - rewrite list_lookup_insert_eq by (by eapply lookup_lt_Some).
    by rewrite Hd.
  - rewrite list_lookup_insert_ne by done.
    by destruct (h !! l) as [[]|].
Qed.

Section opt_store.
Variable reg : registry.

Lemma run_opt_setter_pair (h : heap) (self : loc) (attrs : gmap string val)
    (d : loc) (pair : loc) (k v : val) :
  h !! self = Some (OInst KBase attrs) →
  attrs !! "_opt_data" = Some (VRef d) →
  h !! pair = Some (OList [k; v]) →
  eval (isinstance (VRef pair) (GeomdlTypeSequence reg)) h = Ok true →
  eval (isinstance k (GeomdlTypeString reg)) h = Ok true →
  GeomdlBase.opt_setter reg self (VRef pair) h =
  (if bool_decide (v = VNone)
   then dict_pop (VRef d) k (Some v) ≫= λ _, ret tt
   else dict_setitem (VRef d) k v) h.
Proof.
  intros Hself Hopt Hpair Hseq Hstr. unfold GeomdlBase.opt_setter.
  rewrite (run_bind_Ok _ _ _ _ _
             (run_reads _ _ _ (reads_isinstance _ _) Hseq)). simpl.
  rewrite (run_bind_Ok _ _ _ _ _ (run_len_list _ _ _ Hpair)). simpl.
  rewrite (run_bind_Ok _ _ _ _ _
             (run_getitem_list _ _ _ 0 k Hpair eq_refl)).
  rewrite (run_bind_Ok _ _ _ _ _
             (run_reads _ _ _ (reads_isinstance _ _) Hstr)). simpl.
  rewrite (run_bind_Ok _ _ _ _ _
             (run_getitem_list _ _ _ 1 v Hpair eq_refl)).
  case_bool_decide.
  - rewrite run_bind, (run_getattr _ _ _ _ "_opt_data" Hself), Hopt.
    by rewrite (run_bind_Ok _ _ _ _ _ (run_star_args_list _ _ _ Hpair)).
  - rewrite (run_bind_Ok _ _ _ _ _
               (run_getitem_list _ _ _ 1 v Hpair eq_refl)).
    rewrite run_bind, (run_getattr _ _ _ _ "_opt_data" Hself), Hopt.
    by rewrite (run_bind_Ok _ _ _ _ _
                  (run_getitem_list _ _ _ 0 k Hpair eq_refl)).
Qed.

(** X9.  Storing through the [opt] setter and reading through
    [get_opt]: after [obj.opt = [k, v]] with a value other than [None],
    [get_opt(k)] returns [v], and for every other hashable key [get_opt]
    answers what it answered before; the only cell written is the
    store. *)
Theorem opt_set_then_get
    (h : heap) (self : loc) (attrs : gmap string val) (d : loc)
    (c : dict_type) (items : list (val * val)) (pair : loc) (k v : val) :
  h !! self = Some (OInst KBase attrs) →
  attrs !! "_opt_data" = Some (VRef d) →
  h !! d = Some (ODict c items) →
  h !! pair = Some (OList [k; v]) →
  eval (isinstance (VRef pair) (GeomdlTypeSequence reg)) h = Ok true →
  eval (isinstance k (GeomdlTypeString reg)) h = Ok true →
  eval (hash_check k) h = Ok tt →
  v ≠ VNone →
  ∃ h',
    GeomdlBase.opt_setter reg self (VRef pair) h = (Ok tt, h') ∧
    h' = <[d := ODict c (dict_set items k v)]> h ∧
    GeomdlBase.get_opt self k h' = (Ok v, h') ∧
    ∀ k', k' ≠ k → eval (hash_check k') h = Ok tt →
          eval (GeomdlBase.get_opt self k') h'
          = eval (GeomdlBase.get_opt self k') h.
Proof.
  intros Hself Hopt Hd Hpair Hseq Hstr Hhash Hv.
  assert (Hsd : self ≠ d) by (intros ->; congruence).
  assert (Hself' : <[d := ODict c (dict_set items k v)]> h !! self
                   = Some (OInst KBase attrs))
    by (by rewrite list_lookup_insert_ne).
  assert (Hd' : <[d := ODict c (dict_set items k v)]> h !! d
                = Some (ODict c (dict_set items k v)))
    by (apply list_lookup_insert_eq; by eapply lookup_lt_Some).
  eexists. split_and!; [ | reflexivity | | ].
  - rewrite (run_opt_setter_pair _ _ _ _ _ _ _ Hself Hopt Hpair Hseq Hstr).
    rewrite bool_decide_false by done. by apply run_dict_setitem.
  - erewrite run_get_opt; [ | done | done | done | ].
    + by rewrite dict_get_set_eq.
    + by rewrite (hash_check_store_dict _ _ _ _ _ _ _ Hd).
  - intros k' Hne Hhash'. unfold eval.
    erewrite (run_get_opt (<[d := _]> h)); [ | done | done | done | ].
    + erewrite (run_get_opt h) by done. simpl.
      by rewrite dict_get_set_ne.
    + by rewrite (hash_check_store_dict _ _ _ _ _ _ _ Hd).
Qed.

(** X10.  Assigning [None] to a key that is in the store removes it:
    after [obj.opt = [k, None]], [get_opt(k)] returns [None], the order
    and the values of the other entries are kept, and for every other
    hashable key [get_opt] answers what it answered before. *)
Theorem opt_set_None_removes_key
    (h : heap) (self : loc) (attrs : gmap string val) (d : loc)
    (c : dict_type) (items : list (val * val)) (pair : loc) (k v0 : val) :
  h !! self = Some (OInst KBase attrs) →
  attrs !! "_opt_data" = Some (VRef d) →
  h !! d = Some (ODict c items) →
  h !! pair = Some (OList [k; VNone]) →
  eval (isinstance (VRef pair) (GeomdlTypeSequence reg)) h = Ok true →
  eval (isinstance k (GeomdlTypeString reg)) h = Ok true →
  eval (hash_check k) h = Ok tt →
  NoDup items.*1 →
  dict_get items k = Some v0 →
  ∃ h',
    GeomdlBase.opt_setter reg self (VRef pair) h = (Ok tt, h') ∧
    h' = <[d := ODict c (dict_del items k)]> h ∧
    GeomdlBase.get_opt self k h' = (Ok VNone, h') ∧
    ∀ k', k' ≠ k → eval (hash_check k') h = Ok tt →
          eval (GeomdlBase.get_opt self k') h'
          = eval (GeomdlBase.get_opt self k') h.
Proof.
  intros Hself Hopt Hd Hpair Hseq Hstr Hhash Hnd Hk.
  assert (Hsd : self ≠ d) by (intros ->; congruence).
  assert (Hself' : <[d := ODict c (dict_del items k)]> h !! self
                   = Some (OInst KBase attrs))
    by (by rewrite list_lookup_insert_ne).
  assert (Hd' : <[d := ODict c (dict_del items k)]> h !! d
                = Some (ODict c (dict_del items k)))
    by (apply list_lookup_insert_eq; by eapply lookup_lt_Some).
  eexists. split_and!; [ | reflexivity | | ].
  - rewrite (run_opt_setter_pair _ _ _ _ _ _ _ Hself Hopt Hpair Hseq Hstr).
    rewrite bool_decide_true by done.
    unfold dict_pop. rewrite run_bind, run_bind, (run_as_dict _ _ _ _ Hd).
    rewrite (run_bind_Ok _ _ _ _ _
               (run_reads _ _ _ (reads_hash_check k) Hhash)).
    rewrite Hk. reflexivity.
  - erewrite run_get_opt; [ | done | done | done | ].
    + by rewrite dict_get_del_eq.
    + by rewrite (hash_check_store_dict _ _ _ _ _ _ _ Hd).
  - intros k' Hne Hhash'. unfold eval.
    erewrite (run_get_opt (<[d := _]> h)); [ | done | done | done | ].
    + erewrite (run_get_opt h) by done. simpl.
      by rewrite dict_get_del_ne.
    + by rewrite (hash_check_store_dict _ _ _ _ _ _ _ Hd).
Qed.

End opt_store.

Lemma opt_set_then_get_witness :
  ∃ h',
    GeomdlBase.opt_setter (Registry [TList] [TStr]) 0 (VRef 6) curve_heap
    = (Ok tt, h') ∧
    h' = <[2 := ODict GeomdlDict
                  (dict_set [(VStr "k", VRef 5)] (VStr "k") (VRef 5))]>
           curve_heap ∧
    GeomdlBase.get_opt 0 (VStr "k") h' = (Ok (VRef 5), h') ∧
    ∀ k', k' ≠ VStr "k" → eval (hash_check k') curve_heap = Ok tt →
          eval (GeomdlBase.get_opt 0 k') h'
          = eval (GeomdlBase.get_opt 0 k') curve_heap.
Proof.
  apply (opt_set_then_get (Registry [TList] [TStr]) curve_heap 0 curve_attrs
           2 GeomdlDict [(VStr "k", VRef 5)] 6 (VStr "k") (VRef 5));
    by vm_compute.
Defined.

Lemma opt_set_None_removes_key_witness :
  ∃ h',
    GeomdlBase.opt_setter (Registry [TList] [TStr]) 0 (VRef 8)
      (curve_heap ++ [OList [VStr "k"; VNone]])
    = (Ok tt, h') ∧
    h' = <[2 := ODict GeomdlDict (dict_del [(VStr "k", VRef 5)] (VStr "k"))]>
           (curve_heap ++ [OList [VStr "k"; VNone]]) ∧
    GeomdlBase.get_opt 0 (VStr "k") h' = (Ok VNone, h') ∧
    ∀ k', k' ≠ VStr "k" →
          eval (hash_check k') (curve_heap ++ [OList [VStr "k"; VNone]])
          = Ok tt →
          eval (GeomdlBase.get_opt 0 k') h'
          = eval (GeomdlBase.get_opt 0 k')
              (curve_heap ++ [OList [VStr "k"; VNone]]).
Proof.
  apply (opt_set_None_removes_key (Registry [TList] [TStr])
           (curve_heap ++ [OList [VStr "k"; VNone]]) 0 curve_attrs
           2 GeomdlDict [(VStr "k", VRef 5)] 8 (VStr "k") (VRef 5));
    try by vm_compute.
  apply NoDup_singleton.
Defined.

Lemma dict_set_Forall (P : val * val → Prop) (items : list (val * val))
    (k v : val) :
  (∀ k', P (k', v)) → Forall P items → Forall P (dict_set items k v).
Proof.
  intros Hv. induction 1 as [|[k' v'] rest Hx Hrest IH]; simpl.
  - by repeat constructor.
  - case_decide; constructor; auto.
Qed.

Lemma dict_del_Forall (P : val * val → Prop) (items : list (val * val))
    (k : val) :
  Forall P items → Forall P (dict_del items k).
Proof.
  induction 1 as [|[k' v'] rest Hx Hrest IH]; simpl; [done|].
  case_decide; [done|]. by constructor.
Qed.

Lemma as_dict_Ok_inv (x : val) (h h' : heap) (l : loc) (c : dict_type)
    (items : list (val * val)) :
  as_dict x h = (Ok (l, c, items), h') →
  x = VRef l ∧ h' = h ∧ h !! l = Some (ODict c items).
Proof.
  destruct x as [| | | |l0]; try discriminate. unfold as_dict. intros E.
  apply bind_Ok_inv in E as (o & h1 & Ho & E).
  apply deref_Ok_inv in Ho as [-> Ho].
  destruct o; try discriminate. by injection E as <- <- <- <-.
Qed.

Lemma dict_setitem_Ok_inv (d : loc) (k v : val) (h h' : heap) (u : unit) :
  dict_setitem (VRef d) k v h = (Ok u, h') →
  ∃ c items, h !! d = Some (ODict c items) ∧
             h' = <[d := ODict c (dict_set items k v)]> h.
Proof.
  unfold dict_setitem. intros E.
  apply bind_Ok_inv in E as ([[l c] items] & h1 & Hd & E).
  apply as_dict_Ok_inv in Hd as ([= <-] & -> & Hd).
  apply bind_Ok_inv in E as (? & h1 & Hhash & E).
  apply (reads_Ok_inv _ _ _ _ (reads_hash_check _)) in Hhash. subst h1.
  apply store_Ok_inv in E. eauto.
Qed.

Lemma dict_pop_Ok_inv (d : loc) (k : val) (dflt : option val) (h h' : heap)
    (r : val) :
  dict_pop (VRef d) k dflt h = (Ok r, h') →
  ∃ c items, h !! d = Some (ODict c items) ∧
             (h' = <[d := ODict c (dict_del items k)]> h ∨ h' = h).
Proof.
  unfold dict_pop. intros E.
  apply bind_Ok_inv in E as ([[l c] items] & h1 & Hd & E).
  apply as_dict_Ok_inv in Hd as ([= <-] & -> & Hd).
  apply bind_Ok_inv in E as (? & h1 & Hhash & E).
  apply (reads_Ok_inv _ _ _ _ (reads_hash_check _)) in Hhash. subst h1.
  exists c, items. split; [done|].
  destruct (dict_get items k).
  - apply bind_Ok_inv in E as (? & h1 & Hst & E).
    apply store_Ok_inv in Hst. apply ret_Ok_inv in E as [_ ->]. by left.
  - right. destruct dflt; [ by apply ret_Ok_inv in E as [_ ->] | discriminate ].
Qed.

(** X11.  Whatever is assigned to [opt], if the setter returns it has
    written at most the store cell, the store is still the same kind of
    dict, its keys are still pairwise different, and it still holds no
    [None] value: a [None] is never stored, it deletes. *)
Theorem opt_setter_keeps_store_invariant
    (reg : registry) (h h' : heap) (self : loc) (attrs : gmap string val)
    (d : loc) (c : dict_type) (items : list (val * val)) (key_value : val) :
  h !! self = Some (OInst KBase attrs) →
  attrs !! "_opt_data" = Some (VRef d) →
  h !! d = Some (ODict c items) →
  NoDup items.*1 →
  Forall (λ kv, kv.2 ≠ VNone) items →
  GeomdlBase.opt_setter reg self key_value h = (Ok tt, h') →
  ∃ items',
    h' = <[d := ODict c items']> h ∧
    NoDup items'.*1 ∧
    Forall (λ kv, kv.2 ≠ VNone) items'.
Proof.
  intros Hself Hopt Hd Hnd Hnone E. unfold GeomdlBase.opt_setter in E.
  apply bind_Ok_inv in E as (is_seq & h1 & Hseq & E).
  apply (reads_Ok_inv _ _ _ _ (reads_isinstance _ _)) in Hseq. subst h1.
  destruct is_seq; [ | discriminate ]. simpl in E.
  apply bind_Ok_inv in E as (n & h1 & Hlen & E).
  apply (reads_Ok_inv _ _ _ _ (reads_len _)) in Hlen. subst h1.
  case_bool_decide; [ discriminate | ].
  apply bind_Ok_inv in E as (k & h1 & Hk & E).
  apply (reads_Ok_inv _ _ _ _ (reads_getitem _ _)) in Hk as Hh. subst h1.
  apply bind_Ok_inv in E as (is_str & h1 & Hstr & E).
  apply (reads_Ok_inv _ _ _ _ (reads_isinstance _ _)) in Hstr. subst h1.
  destruct is_str; [ | discriminate ]. simpl in E.
  apply bind_Ok_inv in E as (v & h1 & Hv & E).
  apply (reads_Ok_inv _ _ _ _ (reads_getitem _ _)) in Hv as Hh. subst h1.
  case_bool_decide as Hvn.
  - apply bind_Ok_inv in E as (d' & h1 & Hd' & E).
    rewrite (run_getattr _ _ _ _ "_opt_data" Hself), Hopt in Hd'.
    injection Hd' as <- <-.
    apply bind_Ok_inv in E as (args & h1 & Hargs & E).
    apply (reads_Ok_inv _ _ _ _ (reads_star_args _)) in Hargs. subst h1.
    apply bind_Ok_inv in E as (r & h1 & Hpop & E).
    apply ret_Ok_inv in E as [_ ->].
    assert (∃ k0 dflt, dict_pop (VRef d) k0 dflt h = (Ok r, h1))
      as (k0 & dflt & Hpop').
    { unfold GeomdlBase.pop_star in Hpop.
      destruct args as [|k0 [|d0 [|]]]; try discriminate; eauto. }
    apply dict_pop_Ok_inv in Hpop' as (c' & items0 & Hd0 & Hor).
    rewrite Hd in Hd0. injection Hd0 as <- <-.
    destruct Hor as [->| ->].
    + exists (dict_del items k0). split_and!; [ done | | ].
      * by apply dict_del_NoDup.
      * by apply dict_del_Forall.
    + exists items. split_and!; [ | done | done ].
      symmetry. by apply list_insert_id.
  - apply bind_Ok_inv in E as (v2 & h1 & Hv2 & E).
    rewrite Hv in Hv2. injection Hv2 as <- <-.
    apply bind_Ok_inv in E as (d' & h1 & Hd' & E).
    rewrite (run_getattr _ _ _ _ "_opt_data" Hself), Hopt in Hd'.
    injection Hd' as <- <-.
    apply bind_Ok_inv in E as (k2 & h1 & Hk2 & E).
    apply (reads_Ok_inv _ _ _ _ (reads_getitem _ _)) in Hk2. subst h1.
    apply dict_setitem_Ok_inv in E as (c' & items0 & Hd0 & ->).
    rewrite Hd in Hd0. injection Hd0 as <- <-.
    exists (dict_set items k2 v). split_and!; [ done | | ].
    + by apply dict_set_NoDup.
    + by apply dict_set_Forall.
Qed.

Lemma opt_setter_keeps_store_invariant_witness :
  ∃ items',
    <[2 := ODict GeomdlDict [(VStr "k", VRef 5)]]> curve_heap
    = <[2 := ODict GeomdlDict items']> curve_heap ∧
    NoDup items'.*1 ∧
    Forall (λ kv, kv.2 ≠ VNone) items'.
Proof.
  apply (opt_setter_keeps_store_invariant (Registry [TList] [TStr])
           curve_heap _ 0 curve_attrs 2 GeomdlDict [(VStr "k", VRef 5)]
           (VRef 6)); try by vm_compute.
  - apply NoDup_singleton.
  - by repeat constructor.
Defined.

(** X12.  [get_opt] never changes the heap, whatever it is asked and
    however it ends; and it turns only a missing key into [None]: asked
    for a list or a dict it passes on the [TypeError] of the lookup. *)
Theorem get_opt_only_reads_and_passes_on_unhashable
    (h : heap) (self : loc) (attrs : gmap string val) (d : loc)
    (c : dict_type) (items : list (val * val)) (key : loc) :
  h !! self = Some (OInst KBase attrs) →
  attrs !! "_opt_data" = Some (VRef d) →
  h !! d = Some (ODict c items) →
  (∀ value, (GeomdlBase.get_opt self value h).2 = h) ∧
  (∀ xs, h !! key = Some (OList xs) →
         GeomdlBase.get_opt self (VRef key) h
         = (Raise (TypeError "unhashable type: 'list'"), h)) ∧
  (∀ c' kvs, h !! key = Some (ODict c' kvs) →
             GeomdlBase.get_opt self (VRef key) h
             = (Raise (TypeError "unhashable type: 'dict'"), h)).
Proof.
  intros Hself Hopt Hd. split_and!.
  - intros value. apply reads_get_opt.
  - intros xs Hkey. unfold GeomdlBase.get_opt, except_KeyError.
    rewrite run_bind, (run_getattr _ _ _ _ "_opt_data" Hself), Hopt.
    unfold dict_getitem.
    rewrite run_bind, (run_as_dict _ _ _ _ Hd).
    rewrite run_bind. unfold hash_check.
    by rewrite (run_bind_Ok _ _ _ _ _ (run_deref _ _ _ Hkey)).
  - intros c' kvs Hkey. unfold GeomdlBase.get_opt, except_KeyError.
    rewrite run_bind, (run_getattr _ _ _ _ "_opt_data" Hself), Hopt.
    unfold dict_getitem.
    rewrite run_bind, (run_as_dict _ _ _ _ Hd).
    rewrite run_bind. unfold hash_check.
    by rewrite (run_bind_Ok _ _ _ _ _ (run_deref _ _ _ Hkey)).
Qed.

Lemma get_opt_only_reads_and_passes_on_unhashable_witness :
  (∀ value, (GeomdlBase.get_opt 0 value curve_heap).2 = curve_heap) ∧
  (∀ xs, curve_heap !! 5 = Some (OList xs) →
         GeomdlBase.get_opt 0 (VRef 5) curve_heap
         = (Raise (TypeError "unhashable type: 'list'"), curve_heap)) ∧
  (∀ c' kvs, curve_heap !! 5 = Some (ODict c' kvs) →
             GeomdlBase.get_opt 0 (VRef 5) curve_heap
             = (Raise (TypeError "unhashable type: 'dict'"), curve_heap)).
Proof.
  apply (get_opt_only_reads_and_passes_on_unhashable curve_heap 0 curve_attrs
           2 GeomdlDict [(VStr "k", VRef 5)] 5);
    by vm_compute.
Defined.

(** X13.  The [opt] getter hands out the store itself, not a copy: an
    entry written into the dict it returned is what [get_opt] then
    finds, with none of the setter's checks in between. *)
Theorem opt_getter_hands_out_the_store
    (h : heap) (self : loc) (attrs : gmap string val) (d : loc)
    (c : dict_type) (items : list (val * val)) (k v : val) :
  h !! self = Some (OInst KBase attrs) →
  attrs !! "_opt_data" = Some (VRef d) →
  h !! d = Some (ODict c items) →
  eval (hash_check k) h = Ok tt →
  (store ← GeomdlBase.opt self;
   dict_setitem store k v;;
   GeomdlBase.get_opt self k) h
  = (Ok v, <[d := ODict c (dict_set items k v)]> h).
Proof.
  intros Hself Hopt Hd Hhash.
  assert (Hsd : self ≠ d) by (intros ->; congruence).
  unfold GeomdlBase.opt.
  rewrite run_bind, (run_getattr _ _ _ _ "_opt_data" Hself), Hopt.
  rewrite (run_bind_Ok _ _ _ _ _ (run_dict_setitem _ _ _ _ _ _ Hd Hhash)).
  erewrite run_get_opt.
  - by rewrite dict_get_set_eq.
  - by rewrite list_lookup_insert_ne.
  - done.
  - apply list_lookup_insert_eq. by eapply lookup_lt_Some.
  - by rewrite (hash_check_store_dict _ _ _ _ _ _ _ Hd).
Qed.

Lemma opt_getter_hands_out_the_store_witness :
  (store ← GeomdlBase.opt 0;
   dict_setitem store (VInt 1) VNone;;
   GeomdlBase.get_opt 0 (VInt 1)) curve_heap
  = (Ok VNone,
     <[2 := ODict GeomdlDict (dict_set [(VStr "k", VRef 5)] (VInt 1) VNone)]>
       curve_heap).
Proof.
  apply (opt_getter_hands_out_the_store curve_heap 0 curve_attrs 2 GeomdlDict
           [(VStr "k", VRef 5)] (VInt 1) VNone);
    by vm_compute.
Defined.

(** X14.  [del obj.opt] does not empty the store, it binds [_opt_data]
    to a new empty [GeomdlDict]: every key then reads [None] through
    [get_opt], while every cell other than the object, the old store
    among them, is as it was, so a reference taken earlier from the
    getter still sees the old entries. *)
Theorem opt_deleter_rebinds_the_store
    (h : heap) (self : loc) (attrs : gmap string val) :
  h !! self = Some (OInst KBase attrs) →
  ∃ h',
    GeomdlBase.opt_deleter self h = (Ok tt, h') ∧
    h' = <[self := OInst KBase (<["_opt_data" := VRef (length h)]> attrs)]>
           (h ++ [ODict GeomdlDict []]) ∧
    GeomdlBase.opt self h' = (Ok (VRef (length h)), h') ∧
    h' !! length h = Some (ODict GeomdlDict []) ∧
    (∀ l o, l ≠ self → h !! l = Some o → h' !! l = Some o) ∧
    (∀ k, eval (hash_check k) h' = Ok tt →
          GeomdlBase.get_opt self k h' = (Ok VNone, h')).
Proof.
  intros Hself. pose proof (lookup_lt_Some _ _ _ Hself) as Hlt.
  set (h' := <[self := OInst KBase (<["_opt_data" := VRef (length h)]> attrs)]>
               (h ++ [ODict GeomdlDict []])).
  assert (Hself' : h' !! self
           = Some (OInst KBase (<["_opt_data" := VRef (length h)]> attrs))).
  { apply list_lookup_insert_eq. rewrite length_alloc. lia. }
  assert (Hnew : h' !! length h = Some (ODict GeomdlDict [])).
  { subst h'. rewrite list_lookup_insert_ne by lia. apply lookup_alloc. }
  exists h'. split_and!; try done.
  - unfold GeomdlBase.opt_deleter.
    rewrite (run_bind_Ok _ _ _ _ _ (run_GeomdlDict_new h)).
    apply run_setattr; [ by apply lookup_alloc_old | slot ].
  - unfold GeomdlBase.opt.
    rewrite (run_getattr _ _ _ _ _ Hself'). by rewrite lookup_insert_eq.
  - intros l o Hne Hl. subst h'. rewrite list_lookup_insert_ne by done.
    by apply lookup_alloc_old.
  - intros k Hhash.
    by erewrite run_get_opt; [ | done | apply lookup_insert_eq | done | done ].
Qed.

Lemma opt_deleter_rebinds_the_store_witness :
  ∃ h',
    GeomdlBase.opt_deleter 0 curve_heap = (Ok tt, h') ∧
    h' = <[0 := OInst KBase
                  (<["_opt_data" := VRef (length curve_heap)]> curve_attrs)]>
           (curve_heap ++ [ODict GeomdlDict []]) ∧
    GeomdlBase.opt 0 h' = (Ok (VRef (length curve_heap)), h') ∧
    h' !! length curve_heap = Some (ODict GeomdlDict []) ∧
    (∀ l o, l ≠ 0 → curve_heap !! l = Some o → h' !! l = Some o) ∧
    (∀ k, eval (hash_check k) h' = Ok tt →
          GeomdlBase.get_opt 0 k h' = (Ok VNone, h')).
Proof.
  apply (opt_deleter_rebinds_the_store curve_heap 0 curve_attrs).
  reflexivity.
Defined.

(** X15.  [reset] binds [_opt_data] and [_cache] to two new empty
    [GeomdlDict]s, whatever keyword arguments it is given: every key
    then reads [None], the other five attributes of the object stay,
    and every other cell, the old store and the old cache among them,
    is as it was. *)
Theorem reset_rebinds_both_stores
    (h : heap) (self : loc) (attrs : gmap string val)
    (kwargs : gmap string val) :
  h !! self = Some (OInst KBase attrs) →
  ∃ h',
    GeomdlBase.reset self kwargs h = (Ok tt, h') ∧
    h' = <[self := OInst KBase
                     (<["_cache" := VRef (S (length h))]>
                      (<["_opt_data" := VRef (length h)]> attrs))]>
           (h ++ [ODict GeomdlDict []; ODict GeomdlDict []]) ∧
    (∀ l o, l ≠ self → h !! l = Some o → h' !! l = Some o) ∧
    (∀ k, eval (hash_check k) h' = Ok tt →
          GeomdlBase.get_opt self k h' = (Ok VNone, h')).
Proof.
  intros Hself. pose proof (lookup_lt_Some _ _ _ Hself) as Hlt.
  set (a' := <["_cache" := VRef (S (length h))]>
              (<["_opt_data" := VRef (length h)]> attrs)).
  set (h' := <[self := OInst KBase a']>
               (h ++ [ODict GeomdlDict []; ODict GeomdlDict []])).
  assert (Hself' : h' !! self = Some (OInst KBase a')).
  { apply list_lookup_insert_eq. rewrite length_app. simpl. lia. }
  exists h'. split_and!; try done.
  - assert (Hlt1 : self < length (h ++ [ODict GeomdlDict []]))
      by (rewrite length_alloc; lia).
    assert (Hlt2 : self < length (h ++ [ODict GeomdlDict []; ODict GeomdlDict []]))
      by (rewrite length_app; simpl; lia).
    unfold GeomdlBase.reset.
    rewrite (heap_at _ _ _ Hself) at 1.
    rewrite (run_bind_Ok _ _ _ _ _ (run_GeomdlDict_new_at _ _ _ Hlt)).
    rewrite (run_bind_Ok _ _ _ _ _ (run_setattr_at _ _ _ _ "_opt_data" _
               Hlt1 ltac:(slot))).
    rewrite (run_bind_Ok _ _ _ _ _ (run_GeomdlDict_new_at _ _ _ Hlt1)).
    rewrite <- app_assoc. simpl.
    rewrite (run_setattr_at _ _ _ _ "_cache" _ Hlt2 ltac:(slot)).
    by rewrite length_alloc.
  - intros l o Hne Hl. subst h'. rewrite list_lookup_insert_ne by done.
    by apply lookup_app_l_Some.
  - intros k Hhash.
    apply (run_get_opt h' self a' (length h) GeomdlDict [] k); try done.
    + subst a'. rewrite lookup_insert_ne by done. apply lookup_insert_eq.
    + subst h'. rewrite list_lookup_insert_ne by lia.
      apply (lookup_alloc_mid h _ [ODict GeomdlDict []]).
Qed.

Lemma reset_rebinds_both_stores_witness :
  ∃ h',
    GeomdlBase.reset 0 {["evalpts" := VInt 1]} curve_heap = (Ok tt, h') ∧
    h' = <[0 := OInst KBase
                  (<["_cache" := VRef (S (length curve_heap))]>
                   (<["_opt_data" := VRef (length curve_heap)]> curve_attrs))]>
           (curve_heap ++ [ODict GeomdlDict []; ODict GeomdlDict []]) ∧
    (∀ l o, l ≠ 0 → curve_heap !! l = Some o → h' !! l = Some o) ∧
    (∀ k, eval (hash_check k) h' = Ok tt →
          GeomdlBase.get_opt 0 k h' = (Ok VNone, h')).
Proof.
  apply (reset_rebinds_both_stores curve_heap 0 curve_attrs).
  reflexivity.
Defined.

(** ** Capabilities *)

Lemma run_isinstance (h : heap) (x : val) (t : pytype)
    (registered : list pytype) :
  eval (type_of x) h = Ok t →
  isinstance x registered h
  = (Ok (existsb (λ c, bool_decide (c ∈ registered)) (mro t)), h).
Proof.
  intros Ht. unfold isinstance.
  by rewrite (run_bind_Ok _ _ _ _ _ (run_reads _ _ _ (reads_type_of x) Ht)).
Qed.

Lemma mro_head (t : pytype) : ∃ rest, mro t = t :: rest.
Proof. destruct t as [| | | | | | | |[]]; simpl; eauto. Qed.

Lemma nothing_registered (ts : list pytype) :
  existsb (λ c, bool_decide (c ∈ ([] : list pytype))) ts = false.
Proof.
  induction ts as [|t ts IH]; cbn [existsb]; [done|].
  rewrite bool_decide_false by apply not_elem_of_nil. done.
Qed.

(** X16.  The two capability classes have no members of their own: with
    nothing registered the [opt] setter refuses every value, at its first
    check and without touching the heap.  A value passes a class as soon
    as its type is registered there, registering more never makes a
    value fail, and a [GeomdlDict] passes wherever [dict] is
    registered. *)
Theorem capability_classes_accept_registered_types_only
    (h : heap) (self : loc) (x : val) (t t' : pytype)
    (registered : list pytype) :
  eval (type_of x) h = Ok t →
  GeomdlBase.opt_setter (Registry [] []) self x h
  = (Raise (GeomdlError.__init__
              "opt input must be a GeomdlTypeSequence" VNone), h) ∧
  eval (isinstance x (register t registered)) h = Ok true ∧
  (eval (isinstance x registered) h = Ok true →
   eval (isinstance x (register t' registered)) h = Ok true) ∧
  (t = TGeomdlDict →
   eval (isinstance x (register TDict registered)) h = Ok true).
Proof.
  intros Ht. split.
  { unfold GeomdlBase.opt_setter.
    rewrite run_bind, (run_isinstance _ _ _ _ Ht). cbn [GeomdlTypeSequence].
    by rewrite nothing_registered. }
  unfold eval. rewrite !(run_isinstance _ _ _ _ Ht). simpl.
  split_and!.
  - destruct (mro_head t) as [rest ->]. simpl.
    rewrite bool_decide_true; [done|]. by left.
  - intros [= Hex]. f_equal.
    apply existsb_exists in Hex as (c & Hc & Hin).
    apply existsb_exists. exists c. split; [done|].
    apply bool_decide_eq_true. right. by apply bool_decide_eq_true in Hin.
  - intros ->. f_equal. apply existsb_exists. exists TDict. split.
    + simpl. auto.
    + apply bool_decide_eq_true. by left.
Qed.

Lemma capability_classes_accept_registered_types_only_witness :
  GeomdlBase.opt_setter (Registry [] []) 0 (VRef 6) curve_heap
  = (Raise (GeomdlError.__init__
              "opt input must be a GeomdlTypeSequence" VNone), curve_heap) ∧
  eval (isinstance (VRef 6) (register TList [])) curve_heap = Ok true ∧
  (eval (isinstance (VRef 6) []) curve_heap = Ok true →
   eval (isinstance (VRef 6) (register TStr [])) curve_heap = Ok true) ∧
  (TList = TGeomdlDict →
   eval (isinstance (VRef 6) (register TDict [])) curve_heap = Ok true).
Proof.
  apply (capability_classes_accept_registered_types_only curve_heap 0
           (VRef 6) TList TStr []).
  reflexivity.
Defined.

(** ** Shallow copies, one by one *)

Lemma run_copy_immutable (fuel : nat) (v : val) (h : heap) :
  immutable v = true → copy.copy fuel v h = (Ok v, h).
Proof. destruct v; try discriminate; intros _; by destruct fuel. Qed.

Lemma run_copy_dict_at (fuel : nat) (h : heap) (r : loc) (x : obj) (d : loc)
    (c : dict_type) (items : list (val * val)) :
  r < length h → d ≠ r →
  h !! d = Some (ODict c items) →
  copy.copy fuel (VRef d) (<[r := x]> h)
  = (Ok (VRef (length h)), <[r := x]> (h ++ [ODict c items])).
Proof.
  intros Hr Hne Hd. rewrite copy_unfold.
  erewrite run_bind_Ok
    by (apply run_deref; by rewrite list_lookup_insert_ne).
  unfold alloc. rewrite run_bind. simpl.
  by rewrite length_insert, insert_app_l.
Qed.

Lemma run_getattr_other_at (h : heap) (r : loc) (x : obj) (self : loc)
    (k : klass) (attrs : gmap string val) (name : string) (v : val) :
  self ≠ r →
  h !! self = Some (OInst k attrs) →
  attrs !! name = Some v →
  getattr self name (<[r := x]> h) = (Ok v, <[r := x]> h).
Proof.
  intros Hne Hself Hv.
  erewrite run_getattr by (by rewrite list_lookup_insert_ne).
  by rewrite Hv.
Qed.

(** X17.  The shallow copy of an object whose class lists the identity
    slots itself (every class but [GeomdlBase]), with [_name] and [_id]
    immutable and [_cfg] a dict: exactly two cells are added and no
    existing cell changes; the copy has the same class, the same name
    and id, and a configuration dict of its own with the entries of the
    original's. *)
Theorem shallow_copy_of_identity_object
    (fuel : nat) (h : heap) (self : loc) (k : klass)
    (attrs : gmap string val) (nm i : val) (cfg : loc) (c : dict_type)
    (items : list (val * val)) :
  h !! self = Some (OInst k attrs) →
  k ≠ KBase →
  attrs !! "_name" = Some nm → immutable nm = true →
  attrs !! "_id" = Some i → immutable i = true →
  attrs !! "_cfg" = Some (VRef cfg) →
  h !! cfg = Some (ODict c items) →
  copy.copy (S fuel) (VRef self) h =
  (Ok (VRef (length h)),
   h ++ [OInst k (<["_cfg" := VRef (S (length h))]>
                  (<["_id" := i]> (<["_name" := nm]> ∅)));
         ODict c items]).
Proof.
  intros Hself Hk Hnm Hnmi Hid Hidi Hcfg Hd.
  pose proof (lookup_lt_Some _ _ _ Hself) as Hlt.
  pose proof (lookup_lt_Some _ _ _ Hd) as Hltd.
  assert (Hslots : __slots__ k = ["_name"; "_id"; "_cfg"])
    by (by destruct k).
  rewrite copy_unfold.
  rewrite (run_bind_Ok _ _ _ _ _ (run_deref _ _ _ Hself)).
  unfold GeomdlObject.__copy__.
  rewrite (run_bind_Ok _ _ _ _ _ (run_class _ _ _ _ Hself)).
  rewrite (run_bind_Ok _ _ _ _ _ (run_alloc_inst h k)).
  rewrite Hslots. cbn [for_].
  assert (Hr : length h < length (h ++ [OInst k ∅]))
    by (rewrite length_alloc; lia).
  assert (Hself1 : (h ++ [OInst k ∅]) !! self = Some (OInst k attrs))
    by (by apply lookup_alloc_old).
  assert (Hne : self ≠ length h) by lia.
  rewrite run_bind.
  (* _name *)
  rewrite run_bind.
  rewrite (run_bind_Ok _ _ _ _ _
             (run_getattr_other_at _ _ _ _ _ _ "_name" _ Hne Hself1 Hnm)).
  rewrite (run_bind_Ok _ _ _ _ _ (run_copy_immutable _ _ _ Hnmi)).
  rewrite (run_setattr_at _ _ _ _ "_name" _ Hr ltac:(slot)).
  (* _id *)
  rewrite run_bind.
  rewrite (run_bind_Ok _ _ _ _ _
             (run_getattr_other_at _ _ _ _ _ _ "_id" _ Hne Hself1 Hid)).
  rewrite (run_bind_Ok _ _ _ _ _ (run_copy_immutable _ _ _ Hidi)).
  rewrite (run_setattr_at _ _ _ _ "_id" _ Hr ltac:(slot)).
  (* _cfg *)
  rewrite run_bind.
  rewrite (run_bind_Ok _ _ _ _ _
             (run_getattr_other_at _ _ _ _ _ _ "_cfg" _ Hne Hself1 Hcfg)).
  assert (Hcr : cfg ≠ length h) by lia.
  assert (Hr2 : length h < length ((h ++ [OInst k ∅]) ++ [ODict c items]))
    by (rewrite !length_alloc; lia).
  rewrite (run_bind_Ok _ _ _ _ _
             (run_copy_dict_at _ _ _ _ cfg c items Hr Hcr
                (lookup_alloc_old _ _ _ _ Hd))).
  rewrite (run_setattr_at _ _ _ _ "_cfg" _ Hr2 ltac:(slot)).
  simpl. unfold ret. rewrite <- app_assoc. simpl.
  rewrite heap_new_inst, length_alloc. reflexivity.
Qed.

Lemma shallow_copy_of_identity_object_witness :
  copy.copy 1 (VRef 0) plain_heap =
  (Ok (VRef (length plain_heap)),
   plain_heap ++
   [OInst KObject (<["_cfg" := VRef (S (length plain_heap))]>
                   (<["_id" := VInt 3]>
                    (<["_name" := VStr "GeomdlObject"]> ∅)));
    ODict GeomdlDict []]).
Proof.
  apply (shallow_copy_of_identity_object 0 plain_heap 0 KObject plain_attrs
           (VStr "GeomdlObject") (VInt 3) 1 GeomdlDict []);
    by vm_compute.
Defined.

(** X18.  The shallow copy of a geometry object with immutable
    [_dimension] and [_geom_type]: exactly three cells are added and no
    existing cell changes; the copy has its own store and its own cache,
    each with the entries of the original's, values shared.  The cache
    is copied, not emptied, unlike in a deep copy. *)
Theorem shallow_copy_of_geometry_object
    (fuel : nat) (h : heap) (self : loc) (attrs : gmap string val)
    (dim gt : val) (opt cache : loc) (c c' : dict_type)
    (items citems : list (val * val)) :
  h !! self = Some (OInst KBase attrs) →
  attrs !! "_dimension" = Some dim → immutable dim = true →
  attrs !! "_geom_type" = Some gt → immutable gt = true →
  attrs !! "_opt_data" = Some (VRef opt) →
  h !! opt = Some (ODict c items) →
  attrs !! "_cache" = Some (VRef cache) →
  h !! cache = Some (ODict c' citems) →
  copy.copy (S fuel) (VRef self) h =
  (Ok (VRef (length h)),
   h ++ [OInst KBase (<["_cache" := VRef (S (S (length h)))]>
                      (<["_opt_data" := VRef (S (length h))]>
                       (<["_geom_type" := gt]>
                        (<["_dimension" := dim]> ∅))));
         ODict c items;
         ODict c' citems]).
Proof.
  intros Hself Hdim Hdimi Hgt Hgti Hopt Hd Hcache Hc.
  pose proof (lookup_lt_Some _ _ _ Hself) as Hlt.
  pose proof (lookup_lt_Some _ _ _ Hd) as Hltd.
  pose proof (lookup_lt_Some _ _ _ Hc) as Hltc.
  rewrite copy_unfold.
  rewrite (run_bind_Ok _ _ _ _ _ (run_deref _ _ _ Hself)).
  unfold GeomdlObject.__copy__.
  rewrite (run_bind_Ok _ _ _ _ _ (run_class _ _ _ _ Hself)).
  rewrite (run_bind_Ok _ _ _ _ _ (run_alloc_inst h KBase)).
  cbn [__slots__ GeomdlBase_slots for_].
  set (h0 := h ++ [OInst KBase ∅]).
  set (h1 := h0 ++ [ODict c items]).
  set (h2 := h1 ++ [ODict c' citems]).
  assert (Hr0 : length h < length h0) by (subst h0; rewrite length_alloc; lia).
  assert (Hr1 : length h < length h1) by (subst h1; rewrite length_alloc; lia).
  assert (Hr2 : length h < length h2) by (subst h2; rewrite length_alloc; lia).
  assert (Hself0 : h0 !! self = Some (OInst KBase attrs))
    by (by apply lookup_alloc_old).
  assert (Hself1 : h1 !! self = Some (OInst KBase attrs))
    by (by apply lookup_alloc_old).
  assert (Hne : self ≠ length h) by lia.
  assert (Hdr : opt ≠ length h) by lia.
  assert (Hcr : cache ≠ length h) by lia.
  rewrite run_bind.
  (* _dimension *)
  rewrite run_bind.
  rewrite (run_bind_Ok _ _ _ _ _
             (run_getattr_other_at _ _ _ _ _ _ "_dimension" _ Hne Hself0 Hdim)).
  rewrite (run_bind_Ok _ _ _ _ _ (run_copy_immutable _ _ _ Hdimi)).
  rewrite (run_setattr_at _ _ _ _ "_dimension" _ Hr0 ltac:(slot)).
  (* _geom_type *)
  rewrite run_bind.
  rewrite (run_bind_Ok _ _ _ _ _
             (run_getattr_other_at _ _ _ _ _ _ "_geom_type" _ Hne Hself0 Hgt)).
  rewrite (run_bind_Ok _ _ _ _ _ (run_copy_immutable _ _ _ Hgti)).
  rewrite (run_setattr_at _ _ _ _ "_geom_type" _ Hr0 ltac:(slot)).
  (* _opt_data *)
  rewrite run_bind.
  rewrite (run_bind_Ok _ _ _ _ _
             (run_getattr_other_at _ _ _ _ _ _ "_opt_data" _ Hne Hself0 Hopt)).
  rewrite (run_bind_Ok _ _ _ _ _
             (run_copy_dict_at _ _ _ _ opt c items Hr0 Hdr
                (lookup_alloc_old _ _ _ _ Hd))).
  fold h1.
  rewrite (run_setattr_at _ _ _ _ "_opt_data" _ Hr1 ltac:(slot)).
  (* _cache *)
  rewrite run_bind.
  rewrite (run_bind_Ok _ _ _ _ _
             (run_getattr_other_at _ _ _ _ _ _ "_cache" _ Hne Hself1 Hcache)).
  rewrite (run_bind_Ok _ _ _ _ _
             (run_copy_dict_at _ _ _ _ cache c' citems Hr1 Hcr
                (lookup_alloc_old _ _ _ _ (lookup_alloc_old _ _ _ _ Hc)))).
  fold h2.
  rewrite (run_setattr_at _ _ _ _ "_cache" _ Hr2 ltac:(slot)).
  simpl. unfold ret. subst h2 h1 h0. rewrite <- !app_assoc. simpl.
  rewrite heap_new_inst, !length_app. simpl.
  by replace (length h + 2) with (S (S (length h))) by lia;
     replace (length h + 1) with (S (length h)) by lia.
Qed.

Lemma shallow_copy_of_geometry_object_witness :
  copy.copy 1 (VRef 0) curve_heap =
  (Ok (VRef (length curve_heap)),
   curve_heap ++
   [OInst KBase (<["_cache" := VRef (S (S (length curve_heap)))]>
                 (<["_opt_data" := VRef (S (length curve_heap))]>
                  (<["_geom_type" := VStr ""]>
                   (<["_dimension" := VInt 0]> ∅))));
    ODict GeomdlDict [(VStr "k", VRef 5)];
    ODict GeomdlDict [(VStr "evalpts", VInt 3)]]).
Proof.
  apply (shallow_copy_of_geometry_object 0 curve_heap 0 curve_attrs
           (VInt 0) (VStr "") 2 4 GeomdlDict GeomdlDict
           [(VStr "k", VRef 5)] [(VStr "evalpts", VInt 3)]);
    by vm_compute.
Defined.

(** ** What copying never does *)

Lemma kb_reads {A} (n : nat) (m : M A) : reads m → keeps_below n m.
Proof.
  intros Hm h0 h r h' _ Hp E. specialize (Hm h). rewrite E in Hm.
  simpl in Hm. by subst.
Qed.

Lemma kb_bind {A B} (n : nat) (m : M A) (f : A → M B) :
  keeps_below n m → (∀ a, keeps_below n (f a)) → keeps_below n (m ≫= f).
Proof.
  intros Hm Hf h0 h r h' Hn Hp E. rewrite run_bind in E.
  destruct (m h) as [[a|e| |] h1] eqn:Em;
    pose proof (Hm _ _ _ _ Hn Hp Em) as Hp1.
  - by eapply Hf.
  - by injection E as <- <-.
  - by injection E as <- <-.
  - by injection E as <- <-.
Qed.

Lemma kb_alloc {B} (n : nat) (o : obj) (f : loc → M B) :
  (∀ y, keeps_below y (f y)) → keeps_below n (alloc o ≫= f).
Proof.
  intros Hf h0 h r h' Hn Hp E. rewrite run_bind in E. unfold alloc in E.
  eapply (Hf (length h)); [ | | exact E ].
  - by apply prefix_length.
  - by apply prefix_app_r.
Qed.

Lemma kb_store (n : nat) (l : loc) (o : obj) :
  n ≤ l → keeps_below n (store l o).
Proof.
  intros Hl h0 h r h' Hn Hp [= _ <-]. apply prefix_store_above; [done|lia].
Qed.

Lemma kb_mono {A} (n n' : nat) (m : M A) :
  n' ≤ n → keeps_below n m → keeps_below n' m.
Proof. intros Hle Hm h0 h r h' Hn. apply Hm. lia. Qed.

Lemma kb_setattr (n : nat) (self : loc) (name : string) (v : val) :
  n ≤ self → keeps_below n (setattr self name v).
Proof.
  intros Hle. unfold setattr. apply kb_bind; [ apply kb_reads, reads_deref | ].
  intros [| |k attrs]; try apply kb_reads, reads_stuck.
  destruct (settable k name); [ by apply kb_store | apply kb_reads, reads_raise ].
Qed.

Lemma kb_list_append (n : nat) (y : loc) (v : val) :
  n ≤ y → keeps_below n (list_append y v).
Proof.
  intros Hle. unfold list_append.
  apply kb_bind; [ apply kb_reads, reads_deref | ].
  intros [| |]; try apply kb_reads, reads_stuck. by apply kb_store.
Qed.

Lemma kb_dict_setitem (n : nat) (y : loc) (k v : val) :
  n ≤ y → keeps_below n (dict_setitem (VRef y) k v).
Proof.
  intros Hle h0 h r h' Hn Hp E. unfold dict_setitem in E.
  rewrite run_bind in E.
  destruct (as_dict (VRef y) h) as [[[[l c] items]|e| |] h1] eqn:Ed;
    pose proof (reads_as_dict (VRef y) h) as Hh; rewrite Ed in Hh;
    simpl in Hh; subst h1; try (by injection E as <- <-).
  apply as_dict_Ok_inv in Ed as ([= <-] & _ & _).
  revert E. apply (kb_bind n); [ apply kb_reads, reads_hash_check | | done | done ].
  intros _. by apply kb_store.
Qed.

Lemma kb_for_ {A} (n : nat) (xs : list A) (body : A → M unit) :
  (∀ x, keeps_below n (body x)) → keeps_below n (for_ xs body).
Proof.
  intros Hb. induction xs as [|x xs IH]; simpl.
  - apply kb_reads, reads_ret.
  - apply kb_bind; [ apply Hb | intros _; apply IH ].
Qed.

Lemma kb_for_acc {A S} (n : nat) (xs : list A) (s : S)
    (body : A → S → M S) :
  (∀ x s, keeps_below n (body x s)) → keeps_below n (for_acc xs s body).
Proof.
  intros Hb. revert s. induction xs as [|x xs IH]; intros s; simpl.
  - apply kb_reads, reads_ret.
  - apply kb_bind; [ apply Hb | intros s'; apply IH ].
Qed.

Lemma kb_copy_method (copy_ : val → M val) (self : loc) (n : nat) :
  (∀ v n, keeps_below n (copy_ v)) →
  keeps_below n (GeomdlObject.__copy__ copy_ self).
Proof.
  intros Hc. unfold GeomdlObject.__copy__.
  apply kb_bind; [ apply kb_reads; unfold __class__; reads | ].
  intros cls. apply kb_alloc. intros y.
  apply kb_bind; [ | intros _; apply kb_reads, reads_ret ].
  apply kb_for_. intros var.
  apply kb_bind; [ apply kb_reads, reads_getattr | ]. intros v.
  apply kb_bind; [ apply Hc | ]. intros c. by apply kb_setattr.
Qed.

Lemma kb_copy (fuel : nat) (x : val) (n : nat) :
  keeps_below n (copy.copy fuel x).
Proof.
  revert x n. induction fuel as [|fuel IH]; intros x n; rewrite copy_unfold;
    (destruct x as [| | | |l]; try apply kb_reads, reads_ret);
    (apply kb_bind; [ apply kb_reads, reads_deref | ]);
    (intros [| |];
       [ apply kb_alloc; intros y; apply kb_reads, reads_ret ..
       | ]).
  - apply kb_reads. by intros h.
  - by apply kb_copy_method.
Qed.

Lemma kb_new_GeomdlDict (n : nat) (x : val) :
  keeps_below n (__new__GeomdlDict x).
Proof.
  unfold __new__GeomdlDict.
  apply kb_bind; [ apply kb_reads, reads_type_of | ].
  intros t.
  destruct t; try apply kb_reads, reads_raise;
    apply kb_alloc; intros y; apply kb_reads, reads_ret.
Qed.

Lemma kb_deepcopy_method
    (deepcopy_ : val → memo_t → M (val * memo_t))
    (self : loc) (memo : memo_t) (n : nat) :
  (∀ v m n, keeps_below n (deepcopy_ v m)) →
  keeps_below n (GeomdlObject.__deepcopy__ deepcopy_ self memo).
Proof.
  intros Hd. unfold GeomdlObject.__deepcopy__.
  apply kb_bind; [ apply kb_reads; unfold __class__; reads | ].
  intros cls. apply kb_alloc. intros y.
  apply kb_bind; [ apply kb_reads, reads_getattr | ]. intros cache.
  apply kb_bind; [ apply kb_new_GeomdlDict | ]. intros fresh.
  apply kb_bind; [ apply kb_reads, reads_getattr | ]. intros cache'.
  apply kb_bind; [ apply kb_reads; unfold id_of; reads | ]. intros key.
  apply kb_bind; [ | intros m; apply kb_reads, reads_ret ].
  apply kb_for_acc. intros var m.
  apply kb_bind; [ apply kb_reads, reads_getattr | ]. intros v.
  apply kb_bind; [ apply Hd | ]. intros [c m'].
  apply kb_bind; [ by apply kb_setattr | ]. intros _.
  apply kb_reads, reads_ret.
Qed.

Lemma kb_deepcopy (fuel : nat) (x : val) (memo : memo_t) (n : nat) :
  keeps_below n (copy.deepcopy fuel x memo).
Proof.
  revert x memo n. induction fuel as [|fuel IH]; intros x memo n.
  - destruct x as [| | | |l]; try apply kb_reads, reads_ret.
    simpl. destruct (memo !! l); [ apply kb_reads, reads_ret | ].
    apply kb_bind; [ apply kb_reads, reads_deref | ].
    intros _. apply kb_reads. by intros h.
  - destruct x as [| | | |l]; try apply kb_reads, reads_ret.
    destruct (memo !! l) as [v|] eqn:Hm.
    { simpl. rewrite Hm. apply kb_reads, reads_ret. }
    rewrite (deepcopy_miss _ _ _ Hm).
    apply kb_bind; [ apply kb_reads, reads_deref | ].
    intros [items|[] items|k attrs].
    + apply kb_alloc. intros y.
      apply kb_bind; [ | intros m; apply kb_reads, reads_ret ].
      apply kb_for_acc. intros a m.
      apply kb_bind; [ apply IH | ]. intros [a' m'].
      apply kb_bind; [ by apply kb_list_append | ]. intros _.
      apply kb_reads, reads_ret.
    + apply kb_alloc. intros y.
      apply kb_bind; [ | intros m; apply kb_reads, reads_ret ].
      apply kb_for_acc. intros kv m.
      apply kb_bind; [ apply IH | ]. intros [v' m1].
      apply kb_bind; [ apply IH | ]. intros [k' m2].
      apply kb_bind; [ by apply kb_dict_setitem | ]. intros _.
      apply kb_reads, reads_ret.
    + apply kb_alloc. intros y.
      apply kb_bind; [ | intros m; apply kb_reads, reads_ret ].
      apply kb_for_acc. intros kv m.
      apply kb_bind; [ apply IH | ]. intros [k' m1].
      apply kb_bind; [ apply IH | ]. intros [v' m2].
      apply kb_bind; [ by apply kb_dict_setitem | ]. intros _.
      apply kb_reads, reads_ret.
    + apply kb_bind; [ by apply kb_deepcopy_method | ].
      intros [y m]. apply kb_reads, reads_ret.
Qed.

(** X19.  Copying never writes to a cell that exists: whatever is copied,
    shallowly or deeply, and however the copy ends (a value, an
    exception, an object the model does not cover), the heap before is a
    prefix of the heap after. *)
Theorem copying_writes_to_no_existing_cell
    (fuel : nat) (x : val) (h : heap) :
  h `prefix_of` (copy.copy fuel x h).2 ∧
  h `prefix_of` (copy.deepcopy_top fuel x h).2.
Proof.
  split.
  - destruct (copy.copy fuel x h) as [r h'] eqn:E.
    by eapply (kb_copy fuel x (length h)).
  - destruct (copy.deepcopy_top fuel x h) as [r h'] eqn:E.
    revert E. apply (kb_bind (length h)); try done.
    + apply kb_deepcopy.
    + intros [y m]. apply kb_reads, reads_ret.
Qed.

(** ** Deep copies, one by one *)

Lemma run_deepcopy_immutable (fuel : nat) (v : val) (memo : memo_t)
    (h : heap) :
  immutable v = true → copy.deepcopy fuel v memo h = (Ok (v, memo), h).
Proof. destruct v; try discriminate; intros _; by destruct fuel. Qed.

Lemma run_hash_check_immutable (k : val) (h : heap) :
  immutable k = true → hash_check k h = (Ok tt, h).
Proof. by destruct k. Qed.

Lemma run_setattr_suffix (h : heap) (k : klass) (attrs : gmap string val)
    (rest : list obj) (name : string) (v : val) :
  settable k name = true →
  setattr (length h) name v (h ++ OInst k attrs :: rest)
  = (Ok tt, h ++ OInst k (<[name := v]> attrs) :: rest).
Proof.
  intros Hs.
  rewrite (run_setattr _ _ _ _ _ _ (lookup_alloc_mid _ _ _) Hs).
  by rewrite heap_new_inst.
Qed.

Section relinking.
Variables (h : heap) (self cache opt : loc).
Variables (attrs : gmap string val) (c : dict_type).
Let r := length h.
Let memo3 : memo_t :=
  <[opt := VRef (S (S r))]> (<[cache := VRef (S r)]> (<[self := VRef r]> ∅)).
Hypothesis self_opt : self ≠ opt.
Hypothesis self_cache : self ≠ cache.
Hypothesis opt_cache : opt ≠ cache.

Lemma run_deepcopy_relink (fuel : nat) (v : val) (hc : heap) :
  immutable v = true ∨ v ∈ [VRef self; VRef cache; VRef opt] →
  copy.deepcopy fuel v memo3 hc
  = (Ok (relink self cache opt r (S r) (S (S r)) v, memo3), hc).
Proof.
  intros [Him|Hin].
  - rewrite run_deepcopy_immutable by done.
    unfold relink. by rewrite !decide_False by (intros ->; discriminate).
  - unfold relink.
    apply elem_of_cons in Hin as [->|Hin]; [ | apply elem_of_cons in Hin
      as [->|Hin]; [ | apply list_elem_of_singleton in Hin as -> ] ].
    + rewrite decide_True by done. apply deepcopy_memo_hit.
      subst memo3. rewrite !lookup_insert_ne by done. apply lookup_insert_eq.
    + rewrite decide_False by congruence. rewrite decide_True by done.
      apply deepcopy_memo_hit.
      subst memo3. rewrite lookup_insert_ne by done. apply lookup_insert_eq.
    + rewrite !decide_False by congruence. rewrite decide_True by done.
      apply deepcopy_memo_hit. apply lookup_insert_eq.
Qed.

Lemma run_store_loop (fuel : nat) (x e : obj)
    (body_order : bool) (items acc : list (val * val)) :
  NoDup (acc ++ items).*1 →
  Forall (flat_or_cyclic self cache opt) items →
  for_acc items memo3
    (λ kv memo,
       if body_order
       then ('(v', memo) ← copy.deepcopy fuel kv.2 memo;
             '(k', memo) ← copy.deepcopy fuel kv.1 memo;
             dict_setitem (VRef (S (S r))) k' v';;
             ret memo)
       else ('(k', memo) ← copy.deepcopy fuel kv.1 memo;
             '(v', memo) ← copy.deepcopy fuel kv.2 memo;
             dict_setitem (VRef (S (S r))) k' v';;
             ret memo))
    (h ++ [x; e; ODict c acc])
  = (Ok memo3,
     h ++ [x; e;
           ODict c (acc ++ (prod_map id
                              (relink self cache opt r (S r) (S (S r)))
                            <$> items))]).
Proof.
  revert acc. induction items as [|[k v] items IH]; intros acc Hnd Hall.
  - simpl. by rewrite app_nil_r.
  - apply Forall_cons in Hall as [[Hk Hv] Hall]. simpl in Hk, Hv.
    cbn [for_acc].
    assert (Hy : (h ++ [x; e; ODict c acc]) !! S (S r) = Some (ODict c acc)).
    { rewrite lookup_app_r by (subst r; lia).
      by replace (S (S r) - length h) with 2 by (subst r; lia). }
    assert (Hfresh : k ∉ acc.*1).
    { rewrite fmap_app, fmap_cons in Hnd. simpl in Hnd.
      apply NoDup_app in Hnd as (_ & Hdisj & _).
      intros Hin. apply (Hdisj _ Hin). by left. }
    assert (Hstep :
      dict_setitem (VRef (S (S r))) k
        (relink self cache opt r (S r) (S (S r)) v)
        (h ++ [x; e; ODict c acc])
      = (Ok tt,
         h ++ [x; e;
               ODict c (acc ++ [(k, relink self cache opt r (S r) (S (S r)) v)])])).
    { erewrite run_dict_setitem;
        [ | exact Hy | unfold eval; by rewrite run_hash_check_immutable ].
      rewrite dict_set_fresh by done.
      f_equal. replace (S (S r)) with (length h + 2) by (subst r; lia).
      by rewrite insert_app_r. }
    assert (Hnd' : NoDup
              ((acc ++ [(k, relink self cache opt r (S r) (S (S r)) v)])
               ++ items).*1).
    { rewrite <- app_assoc. simpl.
      rewrite fmap_app, fmap_cons in Hnd |- *. exact Hnd. }
    rewrite run_bind.
    destruct body_order.
    + rewrite (run_bind_Ok _ _ _ _ _ (run_deepcopy_relink _ _ _ Hv)).
      rewrite (run_bind_Ok _ _ _ _ _
                 (run_deepcopy_immutable _ _ _ _ Hk)).
      rewrite (run_bind_Ok _ _ _ _ _ Hstep).
      cbn [ret]. unfold ret at 1.
      rewrite IH by done.
      by rewrite <- app_assoc.
    + rewrite (run_bind_Ok _ _ _ _ _
                 (run_deepcopy_immutable _ _ _ _ Hk)).
      rewrite (run_bind_Ok _ _ _ _ _ (run_deepcopy_relink _ _ _ Hv)).
      rewrite (run_bind_Ok _ _ _ _ _ Hstep).
      unfold ret at 1.
      rewrite IH by done.
      by rewrite <- app_assoc.
Qed.

End relinking.

Lemma run_new_GeomdlDict_dict (h : heap) (d : loc) (c : dict_type)
    (items : list (val * val)) :
  h !! d = Some (ODict c items) →
  __new__GeomdlDict (VRef d) h
  = (Ok (VRef (length h)), h ++ [ODict GeomdlDict []]).
Proof.
  intros Hd. unfold __new__GeomdlDict, type_of.
  rewrite run_bind, run_bind, (run_deref _ _ _ Hd).
  by destruct c.
Qed.

(** X20.  The deep copy of a geometry object with immutable
    [_dimension] and [_geom_type] whose store has immutable keys and, as
    values, immutable values or references to the object itself, to its
    store or to its cache: exactly three cells are added.  The new store
    has the same kind, keys and order; a value that pointed at the
    original object, store or cache points at the copy, the new store or
    the new cache.  The new cache is empty whatever the old one held. *)
Theorem deep_copy_of_geometry_object
    (fuel : nat) (h : heap) (self : loc) (attrs : gmap string val)
    (dim gt : val) (opt cache : loc) (c c' : dict_type)
    (items citems : list (val * val)) :
  h !! self = Some (OInst KBase attrs) →
  attrs !! "_dimension" = Some dim → immutable dim = true →
  attrs !! "_geom_type" = Some gt → immutable gt = true →
  attrs !! "_opt_data" = Some (VRef opt) →
  h !! opt = Some (ODict c items) →
  attrs !! "_cache" = Some (VRef cache) →
  h !! cache = Some (ODict c' citems) →
  opt ≠ cache →
  NoDup items.*1 →
  Forall (flat_or_cyclic self cache opt) items →
  copy.deepcopy_top (S (S fuel)) (VRef self) h =
  (Ok (VRef (length h)),
   h ++ [OInst KBase (<["_cache" := VRef (S (length h))]>
                      (<["_opt_data" := VRef (S (S (length h)))]>
                       (<["_geom_type" := gt]>
                        (<["_dimension" := dim]> ∅))));
         ODict GeomdlDict [];
         ODict c (prod_map id
                    (relink self cache opt
                       (length h) (S (length h)) (S (S (length h))))
                  <$> items)]).
Proof.
  intros Hself Hdim Hdimi Hgt Hgti Hopt Hd Hcache Hc Hoc Hnd Hall.
  assert (Hso : self ≠ opt) by (intros ->; congruence).
  assert (Hsc : self ≠ cache) by (intros ->; congruence).
  pose proof (lookup_lt_Some _ _ _ Hself) as Hlt.
  unfold copy.deepcopy_top.
  rewrite (deepcopy_miss _ _ _ (lookup_empty _)).
  rewrite run_bind, (run_bind_Ok _ _ _ _ _ (run_deref _ _ _ Hself)).
  unfold GeomdlObject.__deepcopy__.
  rewrite run_bind, (run_bind_Ok _ _ _ _ _ (run_class _ _ _ _ Hself)).
  unfold alloc at 1. rewrite run_bind.
  assert (Hget : ∀ (rest : list obj) name v,
            attrs !! name = Some v →
            getattr self name (h ++ rest) = (Ok v, h ++ rest)).
  { intros rest name v Hv.
    rewrite (run_getattr _ _ _ _ _ (lookup_app_l_Some _ _ _ _ Hself)).
    by rewrite Hv. }
  rewrite (run_bind_Ok _ _ _ _ _ (Hget _ _ _ Hcache)).
  rewrite (run_bind_Ok _ _ _ _ _
             (run_new_GeomdlDict_dict _ _ _ _ (lookup_app_l_Some _ _ _ _ Hc))).
  rewrite <- app_assoc. cbn [app].
  rewrite (run_bind_Ok _ _ _ _ _ (Hget _ _ _ Hcache)).
  unfold id_of at 1. rewrite run_bind. cbn [ret].
  rewrite length_alloc.
  cbn [__slots__ GeomdlBase_slots for_acc].
  rewrite run_bind.
  (* _dimension *)
  rewrite run_bind.
  rewrite (run_bind_Ok _ _ _ _ _ (Hget _ _ _ Hdim)).
  rewrite (run_bind_Ok _ _ _ _ _ (run_deepcopy_immutable _ _ _ _ Hdimi)).
  rewrite (run_bind_Ok _ _ _ _ _
             (run_setattr_suffix _ _ _ _ "_dimension" _ ltac:(slot))).
  unfold ret at 1.
  (* _geom_type *)
  rewrite run_bind.
  rewrite (run_bind_Ok _ _ _ _ _ (Hget _ _ _ Hgt)).
  rewrite (run_bind_Ok _ _ _ _ _ (run_deepcopy_immutable _ _ _ _ Hgti)).
  rewrite (run_bind_Ok _ _ _ _ _
             (run_setattr_suffix _ _ _ _ "_geom_type" _ ltac:(slot))).
  unfold ret at 1.
  (* _opt_data *)
  assert (Hm2 : (<[cache := VRef (S (length h))]>
                   (<[self := VRef (length h)]> (∅ : memo_t))) !! opt = None).
  { rewrite !lookup_insert_ne by done. apply lookup_empty. }
  rewrite run_bind.
  rewrite (run_bind_Ok _ _ _ _ _ (Hget _ _ _ Hopt)).
  rewrite (deepcopy_miss _ _ _ Hm2).
  rewrite run_bind.
  rewrite (run_bind_Ok _ _ _ _ _
             (run_deref _ _ _ (lookup_app_l_Some _ _ _ _ Hd))).
  pose proof (run_store_loop h self cache opt c Hso Hsc Hoc fuel) as Hloop.
  cbn zeta in Hloop.
  assert (Hstore :
    (match c with
     | PyDict =>
         y ← alloc (ODict PyDict []);
         memo ← for_acc items
                  (<[opt:=VRef y]>
                     (<[cache:=VRef (S (length h))]>
                        (<[self:=VRef (length h)]> ∅)))
                  (λ (kv : val * val) (memo : memo_t),
                     '(v', memo0) ← copy.deepcopy fuel kv.2 memo;
                     '(k', memo1) ← copy.deepcopy fuel kv.1 memo0;
                     dict_setitem (VRef y) k' v';; ret memo1);
         ret (VRef y, <[opt:=VRef y]> memo)
     | GeomdlDict =>
         y ← alloc empty_GeomdlDict;
         memo ← for_acc items
                  (<[opt:=VRef y]>
                     (<[cache:=VRef (S (length h))]>
                        (<[self:=VRef (length h)]> ∅)))
                  (λ (kv : val * val) (memo : memo_t),
                     '(k', memo0) ← copy.deepcopy fuel kv.1 memo;
                     '(v', memo1) ← copy.deepcopy fuel kv.2 memo0;
                     dict_setitem (VRef y) k' v';; ret memo1);
         ret (VRef y, <[opt:=VRef y]> memo)
     end)
      (h ++ [OInst KBase (<["_geom_type":=gt]> (<["_dimension":=dim]> ∅));
             empty_GeomdlDict]) =
    (Ok (VRef (S (S (length h))),
         <[opt:=VRef (S (S (length h)))]>
           (<[opt:=VRef (S (S (length h)))]>
              (<[cache:=VRef (S (length h))]>
                 (<[self:=VRef (length h)]> (∅ : memo_t))))),
     h ++ [OInst KBase (<["_geom_type":=gt]> (<["_dimension":=dim]> ∅));
           empty_GeomdlDict;
           ODict c (prod_map id
                      (relink self cache opt
                         (length h) (S (length h)) (S (S (length h))))
                    <$> items)])).
  { destruct c.
    - rewrite run_bind. unfold alloc at 1. cbn [ret].
      rewrite length_app. cbn [length]. rewrite <- app_assoc. cbn [app].
      replace (length h + 2) with (S (S (length h))) by lia.
      rewrite run_bind.
      rewrite (Hloop _ _ true items [] Hnd Hall). done.
    - rewrite run_bind. unfold alloc at 1. cbn [ret].
      rewrite length_app. cbn [length]. rewrite <- app_assoc. cbn [app].
      replace (length h + 2) with (S (S (length h))) by lia.
      rewrite run_bind.
      rewrite (Hloop _ _ false items [] Hnd Hall). done. }
  rewrite Hstore.
  rewrite (run_bind_Ok _ _ _ _ _
             (run_setattr_suffix _ _ _ _ "_opt_data" _ ltac:(slot))).
  unfold ret at 1.
  (* _cache *)
  rewrite run_bind.
  rewrite (run_bind_Ok _ _ _ _ _ (Hget _ _ _ Hcache)).
  assert (Hm3 : (<[opt:=VRef (S (S (length h)))]>
                   (<[opt:=VRef (S (S (length h)))]>
                      (<[cache:=VRef (S (length h))]>
                         (<[self:=VRef (length h)]> (∅ : memo_t)))))
                !! cache = Some (VRef (S (length h)))).
  { rewrite !lookup_insert_ne by done. apply lookup_insert_eq. }
  rewrite (run_bind_Ok _ _ _ _ _ (deepcopy_memo_hit _ _ _ _ _ Hm3)).
  rewrite (run_bind_Ok _ _ _ _ _
             (run_setattr_suffix _ _ _ _ "_cache" _ ltac:(slot))).
  reflexivity.
Qed.

Lemma deep_copy_of_geometry_object_witness :
  copy.deepcopy_top 2 (VRef 0) knot_heap =
  (Ok (VRef (length knot_heap)),
   knot_heap ++
   [OInst KBase (<["_cache" := VRef (S (length knot_heap))]>
                 (<["_opt_data" := VRef (S (S (length knot_heap)))]>
                  (<["_geom_type" := VStr ""]>
                   (<["_dimension" := VInt 0]> ∅))));
    ODict GeomdlDict [];
    ODict GeomdlDict
      (prod_map id
         (relink 0 2 1 (length knot_heap) (S (length knot_heap))
            (S (S (length knot_heap))))
       <$> [(VStr "me", VRef 0); (VStr "n", VInt 3); (VStr "store", VRef 1)])]).
Proof.
  apply (deep_copy_of_geometry_object 0 knot_heap 0 knot_attrs
           (VInt 0) (VStr "") 1 2 GeomdlDict GeomdlDict
           [(VStr "me", VRef 0); (VStr "n", VInt 3); (VStr "store", VRef 1)]
           []);
    try by vm_compute.
  - apply (bool_decide_unpack _). by vm_compute.
  - repeat apply Forall_cons_2; try apply Forall_nil_2;
      (split; [ reflexivity | ]).
    + right. repeat constructor.
    + by left.
    + right. repeat constructor.
Defined.

(** ** Objects do not share what they do not share *)

Lemma bind_reads_cases {A B} (m : M A) (f : A → M B) (h h' : heap)
    (r : answer B) :
  reads m → (m ≫= f) h = (r, h') → h' = h ∨ ∃ a, f a h = (r, h').
Proof.
  intros Hm E. rewrite run_bind in E. specialize (Hm h).
  destruct (m h) as [[a|e| |] h1]; simpl in Hm; subst h1.
  - right. by exists a.
  - left. by injection E as _ <-.
  - left. by injection E as _ <-.
  - left. by injection E as _ <-.
Qed.

Lemma dict_setitem_cases (d : loc) (c : dict_type) (items : list (val * val))
    (k v : val) (h h' : heap) (r : answer unit) :
  h !! d = Some (ODict c items) →
  dict_setitem (VRef d) k v h = (r, h') →
  h' = h ∨ ∃ items', h' = <[d := ODict c items']> h.
Proof.
  intros Hd E. unfold dict_setitem in E.
  rewrite run_bind, (run_as_dict _ _ _ _ Hd) in E.
  apply bind_reads_cases in E as [->|[_ E]];
    [ by left | | apply reads_hash_check ].
  right. injection E as _ <-. eauto.
Qed.

Lemma dict_pop_cases (d : loc) (c : dict_type) (items : list (val * val))
    (k : val) (dflt : option val) (h h' : heap) (r : answer val) :
  h !! d = Some (ODict c items) →
  dict_pop (VRef d) k dflt h = (r, h') →
  h' = h ∨ ∃ items', h' = <[d := ODict c items']> h.
Proof.
  intros Hd E. unfold dict_pop in E.
  rewrite run_bind, (run_as_dict _ _ _ _ Hd) in E.
  apply bind_reads_cases in E as [->|[_ E]];
    [ by left | | apply reads_hash_check ].
  destruct (dict_get items k).
  - right. rewrite run_bind in E. injection E as _ <-. eauto.
  - left. destruct dflt; by injection E as _ <-.
Qed.

Lemma get_opt_frame (h : heap) (d : loc) (c : dict_type)
    (items items' : list (val * val)) (other : loc) (k : val) :
  h !! d = Some (ODict c items) →
  (∀ ko ao, h !! other = Some (OInst ko ao) →
            ao !! "_opt_data" ≠ Some (VRef d)) →
  eval (GeomdlBase.get_opt other k) (<[d := ODict c items']> h)
  = eval (GeomdlBase.get_opt other k) h.
Proof.
  intros Hd Hother.
  assert (Hlt : d < length h) by (by eapply lookup_lt_Some).
  assert (Hhash : ∀ k0, hash_check k0 (<[d := ODict c items']> h)
                  = ((hash_check k0 h).1, <[d := ODict c items']> h)).
  { intros k0. apply run_reads; [ apply reads_hash_check | ].
    apply (hash_check_store_dict _ _ _ _ _ _ _ Hd). }
  unfold eval, GeomdlBase.get_opt, except_KeyError.
  rewrite !run_bind. unfold getattr. rewrite !run_bind. unfold deref.
  destruct (decide (other = d)) as [->|Hne].
  { rewrite list_lookup_insert_eq by done. by rewrite Hd. }
  rewrite list_lookup_insert_ne by done.
  destruct (h !! other) as [[| |ko ao]|] eqn:Ho; try reflexivity.
  specialize (Hother ko ao eq_refl).
  destruct (ao !! "_opt_data") as [v|] eqn:Hv; [ | by destruct (has_dict ko) ].
  cbn [ret]. unfold dict_getitem. rewrite !run_bind.
  destruct v as [| | | |l]; try reflexivity.
  unfold as_dict. rewrite !run_bind. unfold deref.
  assert (Hl : l ≠ d) by congruence.
  rewrite list_lookup_insert_ne by done.
  destruct (h !! l) as [[|c0 its|]|]; try reflexivity.
  cbn [ret]. rewrite !run_bind, Hhash.
  pose proof (reads_hash_check k h) as Hr.
  destruct (hash_check k h) as [[[]|e| |] h1]; simpl in Hr; subst h1;
    try reflexivity; [ | by destruct e ].
  cbn [fst]. by destruct (dict_get its k).
Qed.

(** X21.  The [opt] setter of one object touches nothing but that
    object's store, however it ends: afterwards the heap is as before, or
    as before but for the entries of the store; and on every object that
    does not have that very dict as its store, [get_opt] answers what it
    answered before, for every key. *)
Theorem opt_setter_touches_own_store_only
    (reg : registry) (h h' : heap) (self : loc) (attrs : gmap string val)
    (d : loc) (c : dict_type) (items : list (val * val)) (key_value : val)
    (r : answer unit) :
  h !! self = Some (OInst KBase attrs) →
  attrs !! "_opt_data" = Some (VRef d) →
  h !! d = Some (ODict c items) →
  GeomdlBase.opt_setter reg self key_value h = (r, h') →
  (h' = h ∨ ∃ items', h' = <[d := ODict c items']> h) ∧
  (∀ other k,
     (∀ ko ao, h !! other = Some (OInst ko ao) →
               ao !! "_opt_data" ≠ Some (VRef d)) →
     eval (GeomdlBase.get_opt other k) h'
     = eval (GeomdlBase.get_opt other k) h).
Proof.
  intros Hself Hopt Hd E.
  assert (Hw : h' = h ∨ ∃ items', h' = <[d := ODict c items']> h).
  { unfold GeomdlBase.opt_setter in E.
    apply bind_reads_cases in E as [->|[is_seq E]];
      [ by left | | apply reads_isinstance ].
    destruct (negb is_seq); [ left; by injection E as _ <- | ].
    apply bind_reads_cases in E as [->|[n E]];
      [ by left | | apply reads_len ].
    case_bool_decide; [ left; by injection E as _ <- | ].
    apply bind_reads_cases in E as [->|[k E]];
      [ by left | | apply reads_getitem ].
    apply bind_reads_cases in E as [->|[is_str E]];
      [ by left | | apply reads_isinstance ].
    destruct (negb is_str); [ left; by injection E as _ <- | ].
    apply bind_reads_cases in E as [->|[v E]];
      [ by left | | apply reads_getitem ].
    case_bool_decide.
    - rewrite run_bind, (run_getattr _ _ _ _ "_opt_data" Hself), Hopt in E.
      cbn [ret] in E.
      apply bind_reads_cases in E as [->|[args E]];
        [ by left | | apply reads_star_args ].
      rewrite run_bind in E.
      destruct (GeomdlBase.pop_star (VRef d) args h) as [r0 h0] eqn:Ep.
      assert (Hp : h0 = h ∨ ∃ items', h0 = <[d := ODict c items']> h).
      { unfold GeomdlBase.pop_star in Ep.
        destruct args as [|k0 [|d0 [|]]];
          try (left; by injection Ep as _ <-);
          by eapply dict_pop_cases. }
      destruct r0; by injection E as _ <-.
    - apply bind_reads_cases in E as [->|[v2 E]];
        [ by left | | apply reads_getitem ].
      rewrite run_bind, (run_getattr _ _ _ _ "_opt_data" Hself), Hopt in E.
      cbn [ret] in E.
      apply bind_reads_cases in E as [->|[k2 E]];
        [ by left | | apply reads_getitem ].
      by eapply dict_setitem_cases. }
  split; [ done | ].
  intros other k Hother.
  destruct Hw as [->|[items' ->]]; [ done | ].
  by apply get_opt_frame with (items := items).
Qed.

Lemma opt_setter_touches_own_store_only_witness :
  (<[2 := ODict GeomdlDict [(VStr "k", VRef 5)]]> curve_heap = curve_heap ∨
   ∃ items', <[2 := ODict GeomdlDict [(VStr "k", VRef 5)]]> curve_heap
             = <[2 := ODict GeomdlDict items']> curve_heap) ∧
  (∀ other k,
     (∀ ko ao, curve_heap !! other = Some (OInst ko ao) →
               ao !! "_opt_data" ≠ Some (VRef 2)) →
     eval (GeomdlBase.get_opt other k)
       (<[2 := ODict GeomdlDict [(VStr "k", VRef 5)]]> curve_heap)
     = eval (GeomdlBase.get_opt other k) curve_heap).
Proof.
  apply (opt_setter_touches_own_store_only (Registry [TList] [TStr])
           curve_heap _ 0 curve_attrs 2 GeomdlDict [(VStr "k", VRef 5)]
           (VRef 6) (Ok tt));
    by vm_compute.
Defined.
